(** * EA-EGA codec: bmp2ega.c / ega2bmp.c

    A shallow embedding of the two converters of the repository
    (the encoder [bmp2ega.c] and the decoder [ega2bmp.c]) and the
    properties of the codec core: the run finder, the token
    emitters, the nibble packer, the header, and the decode loop;
    then of what surrounds it: the names of the files, and the BMP
    files read by [load_bmp] and written by [save_bmp].

    C integers are modelled as [Z] with the wrap-around of their type
    written out; byte buffers are [list Z]; pointers into a buffer are
    offsets. *)

From Stdlib Require Import ZArith List Lia Bool.
From Stdlib Require String Ascii.
From stdpp Require Import base list.
Import ListNotations.

Local Open Scope Z_scope.

(** ** Outcomes *)

(** The typed errors the specification names for the codec core
    (section 7).  No statement of the two C programs produces one. *)
Inductive error : Type :=
| UnexpectedEof
| CorruptStream
| SizeMismatch.

(** Outcome of running a piece of the C code.  [OutOfBounds] is an
    access outside the buffer a pointer belongs to, for which C defines
    no behaviour; [OutOfFuel] is a loop cut off by the bound given to
    its model; [NoMemory] is a [calloc] that returns [NULL], upon which
    [main] prints its message and ends with -1. *)
Inductive result (A : Type) : Type :=
| Ok (a : A)
| Err (e : error)
| OutOfBounds
| OutOfFuel
| NoMemory.

Arguments Ok {A} a.
Arguments Err {A} e.
Arguments OutOfBounds {A}.
Arguments OutOfFuel {A}.
Arguments NoMemory {A}.

#[global] Instance result_bind : MBind result := fun A B k m =>
  match m with
  | Ok a => k a
  | Err e => Err e
  | OutOfBounds => OutOfBounds
  | OutOfFuel => OutOfFuel
  | NoMemory => NoMemory
  end.

#[global] Instance result_ret : MRet result := fun A a => Ok a.

(** ** Machine integers *)

Definition u8 (z : Z) : Z := z mod 256.
Definition u16 (z : Z) : Z := z mod 65536.

Definition is_byte (b : Z) : Prop := 0 <= b < 256.
Definition is_pixel (p : Z) : Prop := 0 <= p < 16.

(** ** Buffers *)

(** [memstream_buf_t]: a buffer of [len] bytes and a position in it. *)
Record memstream_buf_t : Type := Memstream { len : Z; pos : Z; data : list Z }.

(** The [n] zero bytes [calloc] gives when it succeeds. *)
Definition calloc (n : Z) : list Z := replicate (Z.to_nat n) 0.

Definition INT_MAX : Z := 2147483647.

(** [calloc] of [n] bytes, [n] the product [width * height] of two
    [uint16_t] taken in [int].  A product beyond [INT_MAX] does not fit
    the [int]: what is left of it is negative, as a [size_t] more than
    any allocation gives, and [calloc] returns [NULL].  Within [int] the
    allocation is taken to succeed. *)
Definition alloc (n : Z) : result (list Z) :=
  if n >? INT_MAX then NoMemory else Ok (calloc n).

(** [buf[i]] read; outside the buffer there is no defined value *)
Definition peek (buf : list Z) (i : Z) : result Z :=
  if 0 <=? i then
    match buf !! Z.to_nat i with
    | Some b => Ok b
    | None => OutOfBounds
    end
  else OutOfBounds.

(** [buf[i] = b] for a [uint8_t] buffer *)
Definition poke (buf : list Z) (i : Z) (b : Z) : result (list Z) :=
  if (0 <=? i) && (i <? Z.of_nat (length buf))
  then Ok (<[Z.to_nat i := u8 b]> buf)
  else OutOfBounds.

(** A 16-bit field at byte offset [i], least significant byte first
    (the [int16_t] access through [par] on a little-endian host). *)
Definition peek16 (buf : list Z) (i : Z) : result Z :=
  lo ← peek buf i; hi ← peek buf (i + 1); Ok (lo + 256 * hi).

Definition poke16 (buf : list Z) (i : Z) (v : Z) : result (list Z) :=
  buf ← poke buf i (u16 v); poke buf (i + 1) (u16 v / 256).

(** The memory a pointer at offset [p] of [buf] sees. *)
Definition mem_at (buf : list Z) (p : Z) : list Z :=
  if 0 <=? p then drop (Z.to_nat p) buf else [].

(** [dst.data[dst.pos++] = b] *)
Definition put (b : Z) (dst : memstream_buf_t) : result memstream_buf_t :=
  d ← poke (data dst) (pos dst) b;
  Ok (Memstream (len dst) (pos dst + 1) d).

(** * bmp2ega.c *)

Module Bmp2ega.

(** ** Run finder (bmp2ega.c, find_run) *)

(** The [while (pos < len)] loop; [n] is the number of iterations left,
    [buf] the memory at the moving pointer. *)
Fixpoint find_run_loop (n : nat) (buf : list Z) (lc lp count pos : Z)
  : result (Z * Z) :=
  match n with
  | O => if 3 >? count then Ok (0, pos) else Ok (count, lp)
  | S n' =>
      match buf with
      | [] => OutOfBounds
      | cc :: buf' =>
          if negb (lc =? cc) then
            if 3 <=? count then Ok (count, lp)
            else find_run_loop n' buf' cc pos 1 (pos + 1)
          else find_run_loop n' buf' lc lp (count + 1) (pos + 1)
      end
  end.

(** [find_run buf len] returns [(count, rpos)]: the returned int and the
    value left in [*rpos].  [len] is a [uint8_t] parameter. *)
Definition find_run (buf : list Z) (len : Z) : result (Z * Z) :=
  let len := u8 len in
  match buf with
  | [] => OutOfBounds
  | lc :: buf' => find_run_loop (Z.to_nat (len - 1)) buf' lc 0 1 1
  end.

(** State of the encoding loops: the read pointer [src] into the packed
    image (an offset in [img.data]) and the output stream [dst]. *)
Record state : Type := State { src : Z; dst : memstream_buf_t }.

Definition with_dst (st : state) (d : memstream_buf_t) : state :=
  State (src st) d.

(** main, lines 104-107: the image size prefix *)
Definition write_header (width height : Z) (dst : memstream_buf_t)
  : result memstream_buf_t :=
  d ← poke16 (data dst) 0 (width - 1);
  d ← poke16 d 2 (height - 1);
  Ok (Memstream (len dst) (pos dst + 2 * 2) d).

(** main, lines 110-118: pack the pixels two to a byte, in place.
    [n] iterations are left, [sp] and [dp] both point into [data]. *)
Fixpoint pack_loop (n : nat) (data : list Z) (sp dp : Z) : result (list Z) :=
  match n with
  | O => Ok data
  | S n' =>
      px ← peek data sp;
      let px := u8 (Z.shiftl px 4) in
      q ← peek data (sp + 1);
      let px := Z.lor px (Z.land q 15) in
      data ← poke data dp px;
      pack_loop n' data (sp + 2) (dp + 1)
  end.

(** [for(size_t i = 0; i < img.len; i+=2)] *)
Definition pack_pixels (img : memstream_buf_t) : result (list Z) :=
  pack_loop (Z.to_nat ((len img + 1) / 2)) (data img) 0 0.

(** [for(int i = 0; i < n; i++) dst.data[dst.pos++] = *src++;] *)
Fixpoint copy_bytes (n : nat) (img : list Z) (st : state) : result state :=
  match n with
  | O => Ok st
  | S n' =>
      b ← peek img (src st);
      d ← put b (dst st);
      copy_bytes n' img (State (src st + 1) d)
  end.

(** main, lines 132-143: the bytes before the run, as literal tokens *)
Fixpoint copy_literals (fuel : nat) (img : list Z) (clen : Z) (st : state)
  : result state :=
  match fuel with
  | O => OutOfFuel
  | S fuel' =>
      if clen >? 128 then
        d ← put 127 (dst st);
        st ← copy_bytes 128 img (with_dst st d);
        copy_literals fuel' img (clen - 128) st
      else
        d ← put (clen - 1) (dst st);
        copy_bytes (Z.to_nat clen) img (with_dst st d)
  end.

(** main, lines 147-154: the run, as repeat tokens *)
Fixpoint encode_run (fuel : nat) (img : list Z) (rlen : Z) (st : state)
  : result state :=
  match fuel with
  | O => OutOfFuel
  | S fuel' =>
      if rlen >? 130 then
        d ← put (127 + 128) (dst st);
        v ← peek img (src st);
        d ← put v d;
        encode_run fuel' img (rlen - 130) (with_dst st d)
      else
        d ← put ((rlen - 3) + 128) (dst st);
        v ← peek img (src st);
        d ← put v d;
        Ok (with_dst st d)
  end.

(** One iteration of [for(int x = 0; x < width;)], lines 128-157;
    returns the new [x]. *)
Definition encode_step (img : list Z) (width x : Z) (st : state)
  : result (Z * state) :=
  '(len, rpos) ← find_run (mem_at img (src st)) (width - x);
  '(x, st) ← (if rpos =? 0 then Ok (x, st)
              else st ← copy_literals (S (Z.to_nat rpos)) img rpos st;
                   Ok (x + rpos, st));
  if len =? 0 then Ok (x, st)
  else st ← encode_run (S (Z.to_nat len)) img len st;
       Ok (x + len, State (src st + len) (dst st)).

Fixpoint encode_line (fuel : nat) (img : list Z) (width x : Z) (st : state)
  : result state :=
  if x <? width then
    match fuel with
    | O => OutOfFuel
    | S fuel' =>
        '(x, st) ← encode_step img width x st;
        encode_line fuel' img width x st
    end
  else Ok st.

(** [for(int y = 0; y < height; y++)], [n] lines left *)
Fixpoint encode_lines (n : nat) (img : list Z) (width : Z) (st : state)
  : result state :=
  match n with
  | O => Ok st
  | S n' =>
      st ← encode_line (Z.to_nat width) img width 0 st;
      encode_lines n' img width (State (src st - 2 * width) (dst st))
  end.

(** main, lines 94-168, from the image [load_bmp] returned to the bytes
    handed to [fwrite].  [width] and [height] are [uint16_t] and
    [dst.len] is their product in [int]: beyond [INT_MAX] the buffer is
    not allotted ("Unable to allocate memory", lines 96-100). *)
Definition main (img : memstream_buf_t) (width height : Z)
  : result (list Z) :=
  mem ← alloc (width * height);
  let dst := Memstream (width * height) 0 mem in
  dst ← write_header width height dst;
  packed ← pack_pixels img;
  let width := width / 2 in
  let src := (height - 1) * width in
  st ← encode_lines (Z.to_nat height) packed width (State src dst);
  Ok (take (Z.to_nat (pos (Bmp2ega.dst st))) (data (Bmp2ega.dst st))).

(** The image [load_bmp] hands over: one byte per pixel. *)
Definition loaded (pixels : list Z) : memstream_buf_t :=
  Memstream (Z.of_nat (length pixels)) 0 pixels.

End Bmp2ega.

(** * ega2bmp.c *)

Module Ega2bmp.

(** State of the decoding loop: the input stream [src] (its [pos]
    moves), the write pointer [dst] (an offset in [img.data]), the pixel
    column [x] and the image. *)
Record state : Type :=
  State { src : memstream_buf_t; dst : Z; x : Z; img : list Z }.

(** [src.data[src.pos++]] *)
Definition get (st : state) : result (Z * state) :=
  b ← peek (data (src st)) (pos (src st));
  Ok (b, State (Memstream (len (src st)) (pos (src st) + 1) (data (src st)))
               (dst st) (x st) (img st)).

(** lines 144-146 and 154-156: the two pixels of a packed byte *)
Definition store_pair (tv : Z) (st : state) : result state :=
  i ← poke (img st) (dst st) (Z.land (Z.shiftr tv 4) 15);
  i ← poke i (dst st + 1) (Z.land tv 15);
  Ok (State (src st) (dst st + 2) (x st + 2) i).

(** lines 143-147 *)
Fixpoint repeat_loop (n : nat) (tv : Z) (st : state) : result state :=
  match n with
  | O => Ok st
  | S n' => st ← store_pair tv st; repeat_loop n' tv st
  end.

(** lines 151-157 *)
Fixpoint literal_loop (n : nat) (st : state) : result state :=
  match n with
  | O => Ok st
  | S n' =>
      '(tv, st) ← get st;
      st ← store_pair tv st;
      literal_loop n' st
  end.

(** One iteration of [while(src.pos < src.len)], lines 138-163 *)
Definition decode_token (width : Z) (st : state) : result state :=
  '(tc, st) ← get st;
  st ← (if tc >=? 128 then
          let tc := u8 (Z.land tc 127 + 3) in
          '(tv, st) ← get st;
          repeat_loop (Z.to_nat tc) tv st
        else
          let tc := u8 (tc + 1) in
          literal_loop (Z.to_nat tc) st);
  if x st >=? width
  then Ok (State (src st) (dst st - 2 * width) 0 (img st))
  else Ok st.

Fixpoint decode_loop (fuel : nat) (width : Z) (st : state) : result state :=
  if pos (src st) <? len (src st) then
    match fuel with
    | O => OutOfFuel
    | S fuel' => st ← decode_token width st; decode_loop fuel' width st
    end
  else Ok st.

(** main, lines 113-117: [width] and [height] are [uint16_t] *)
Definition read_header (file : list Z) : result (Z * Z) :=
  width ← peek16 file 0;
  height ← peek16 file 2;
  Ok (u16 (width + 1), u16 (height + 1)).

(** main, lines 113-164, from the bytes of the file to the decoded
    image: [(width, height, img.data)].  [img.len] is the product of
    the two [uint16_t] in [int]: beyond [INT_MAX] the image is not
    allotted ("Unable to allocate buffer for output image", lines
    122-127). *)
Definition main (file : list Z) : result (Z * Z * list Z) :=
  let src := Memstream (Z.of_nat (length file)) 0 file in
  '(width, height) ← read_header file;
  let src := Memstream (len src) (pos src + 2 * 2) (data src) in
  img ← alloc (width * height);
  let dst := (height - 1) * width in
  st ← decode_loop (length file) width (State src dst 0 img);
  Ok (width, height, Ega2bmp.img st).

End Ega2bmp.

(** * The format, as the specification words it *)

(** ** Tokens *)

Inductive token : Type :=
| Literal (bytes : list Z)
| Repeat (n : nat) (v : Z).

Definition expand (t : token) : list Z :=
  match t with
  | Literal bytes => bytes
  | Repeat n v => replicate n v
  end.

Definition expand_all (ts : list token) : list Z := concat (map expand ts).

Definition is_literal (t : token) : bool :=
  match t with Literal _ => true | Repeat _ _ => false end.

(** Read a stream as tokens: a control byte with the high bit set and a
    value byte, or a control byte [c < 128] and [c + 1] raw bytes. *)
Fixpoint parse_tokens_fuel (fuel : nat) (s : list Z) : option (list token) :=
  match s with
  | [] => Some []
  | c :: s' =>
      match fuel with
      | O => None
      | S fuel' =>
          if Z.testbit c 7 then
            match s' with
            | v :: s'' =>
                ts ← parse_tokens_fuel fuel' s'';
                Some (Repeat (Z.to_nat (Z.land c 127 + 3)) v :: ts)
            | [] => None
            end
          else
            let n := Z.to_nat (c + 1) in
            if (n <=? length s')%nat then
              ts ← parse_tokens_fuel fuel' (drop n s');
              Some (Literal (take n s') :: ts)
            else None
      end
  end.

Definition parse_tokens (s : list Z) : option (list token) :=
  parse_tokens_fuel (length s) s.

(** ** Nibbles *)

(** [packed = (left << 4) | (right & 0x0F)], on consecutive pairs *)
Fixpoint pack (pixels : list Z) : list Z :=
  match pixels with
  | l :: r :: rest => Z.lor (u8 (Z.shiftl l 4)) (Z.land r 15) :: pack rest
  | _ => []
  end.

(** [left = (packed >> 4) & 0x0F], [right = packed & 0x0F] *)
Definition unpack_byte (b : Z) : list Z :=
  [Z.land (Z.shiftr b 4) 15; Z.land b 15].

Definition unpack (bytes : list Z) : list Z := concat (map unpack_byte bytes).

(** The sixteen pixel values, and the check of one packed pair. *)
Definition pixels16 : list Z := map Z.of_nat (seq 0 16).

Definition nibbles_ok (p q : Z) : bool :=
  let b := Z.lor (u8 (Z.shiftl p 4)) (Z.land q 15) in
  (b =? 16 * p + q) &&
  (Z.land (Z.shiftr b 4) 15 =? p) && (Z.land b 15 =? q).

(** ** Runs *)

Fixpoint run_length (v : Z) (l : list Z) : nat :=
  match l with
  | x :: l' => if x =? v then S (run_length v l') else O
  | [] => O
  end.

Definition starts_run3 (l : list Z) : bool :=
  match l with
  | a :: b :: c :: _ => (a =? b) && (b =? c)
  | _ => false
  end.

Fixpoint has_run3 (l : list Z) : bool :=
  match l with
  | [] => false
  | _ :: t => starts_run3 l || has_run3 t
  end.

(** Leftmost position at which three equal bytes start, with the length
    of the run of equal bytes from there; [(0, length l)] without one. *)
Fixpoint first_run (l : list Z) : Z * Z :=
  match l with
  | [] => (0, 0)
  | a :: t =>
      if starts_run3 l then (Z.of_nat (S (run_length a t)), 0)
      else let '(n, p) := first_run t in (n, p + 1)
  end.

Definition shift_run (d : Z) (r : Z * Z) : Z * Z := (fst r, snd r + d).

(** * The encoder's output, as bytes *)

(** The stream [d] has room for [n] more bytes. *)
Definition room (d : memstream_buf_t) (n : nat) : Prop :=
  0 <= pos d /\ pos d + Z.of_nat n <= Z.of_nat (length (data d)).

(** The stream [d] after [bs] has been written at its position. *)
Definition append (d : memstream_buf_t) (bs : list Z) : memstream_buf_t :=
  Memstream (len d) (pos d + Z.of_nat (length bs))
    (take (Z.to_nat (pos d)) (data d) ++ bs
     ++ drop (Z.to_nat (pos d) + length bs) (data d)).

(** What has been written so far. *)
Definition written (d : memstream_buf_t) : list Z :=
  take (Z.to_nat (pos d)) (data d).

Definition cdiv (a b : Z) : Z := (a + b - 1) / b.

(** The bytes [Bmp2ega.copy_literals] writes for the bytes [bs]. *)
Fixpoint literal_bytes (fuel : nat) (bs : list Z) : list Z :=
  match fuel with
  | O => []
  | S fuel' =>
      if Z.of_nat (length bs) >? 128
      then 127 :: take 128 bs ++ literal_bytes fuel' (drop 128 bs)
      else (Z.of_nat (length bs) - 1) :: bs
  end.

(** The bytes [Bmp2ega.encode_run] writes for [rlen] times [v]. *)
Fixpoint run_bytes (fuel : nat) (rlen v : Z) : list Z :=
  match fuel with
  | O => []
  | S fuel' =>
      if rlen >? 130
      then 255 :: v :: run_bytes fuel' (rlen - 130) v
      else [u8 (rlen - 3 + 128); v]
  end.

(** One line on its own: the inner loop of [Bmp2ega.main] on a one-line
    packed image, with the two bytes of output per packed byte that
    [main] allots. *)
Definition encode_row (row : list Z) : result (list Z) :=
  let n := Z.of_nat (length row) in
  st ← Bmp2ega.encode_line (length row) row n 0
         (Bmp2ega.State 0 (Memstream (2 * n) 0 (calloc (2 * n))));
  Ok (written (Bmp2ega.dst st)).

(** The 256 byte values. *)
Definition bytes256 : list Z := map Z.of_nat (seq 0 256).

(** On a byte, the high bit, the comparison with 128 and the low seven
    bits agree. *)
Definition control_ok (c : Z) : bool :=
  Bool.eqb (Z.testbit c 7) (c >=? 128) &&
  (Z.land c 127 =? (if c >=? 128 then c - 128 else c)).

(** The bytes [Bmp2ega.encode_line] writes for what is left of a line,
    [row]: for each run the finder returns, the literal tokens of the
    bytes before it and the repeat tokens of the run. *)
Fixpoint line_bytes (fuel : nat) (row : list Z) : list Z :=
  match row, fuel with
  | [], _ => []
  | _ :: _, O => []
  | _ :: _, S fuel' =>
      match Bmp2ega.find_run row (Z.of_nat (length row)) with
      | Ok (len, rpos) =>
          let lits := take (Z.to_nat rpos) row in
          let rest := drop (Z.to_nat rpos) row in
          (if rpos =? 0 then []
           else literal_bytes (S (Z.to_nat rpos)) lits)
          ++ (if len =? 0 then []
              else run_bytes (S (Z.to_nat len)) len (hd 0 rest))
          ++ line_bytes fuel' (drop (Z.to_nat len) rest)
      | _ => []
      end
  end.

(** What one call of the finder makes the encoder write. *)
Definition step_bytes (row : list Z) (len rpos : nat) : list Z :=
  (if Z.of_nat rpos =? 0 then []
   else literal_bytes (S rpos) (take rpos row))
  ++ (if Z.of_nat len =? 0 then []
      else run_bytes (S len) (Z.of_nat len) (hd 0 (drop rpos row))).

(** Some run of [n] or more equal bytes starts somewhere in [l]. *)
Fixpoint has_run (n : nat) (l : list Z) : bool :=
  match l with
  | [] => false
  | a :: t => (n <=? S (run_length a t))%nat || has_run n t
  end.

(** The first [k] lines of [n] bytes of a buffer. *)
Fixpoint lines (n k : nat) (buf : list Z) : list (list Z) :=
  match k with
  | O => []
  | S k' => take n buf :: lines n k' (drop n buf)
  end.

(** The token stream of an image whose lines, first in the buffer
    first, are [rows]: the last line of the buffer comes first. *)
Definition stream_bytes (rows : list (list Z)) : list Z :=
  concat (map (fun row => line_bytes (length row) row) (rev rows)).

(** The four bytes of the size prefix. *)
Definition header_bytes (width height : Z) : list Z :=
  [u16 (width - 1) mod 256; (u16 (width - 1) / 256) mod 256;
   u16 (height - 1) mod 256; (u16 (height - 1) / 256) mod 256].

(** The encoding of a line of 300 bytes [v]. *)
Definition row300_ok (v : Z) : bool :=
  match encode_row (replicate 300 v) with
  | Ok out => bool_decide (out = [169; v; 0; v; 255; v; 250; v])
  | _ => false
  end.

(** The tokens of an encoder output. *)
Definition parsed (r : result (list Z)) : option (list token) :=
  match r with
  | Ok out => parse_tokens out
  | _ => None
  end.

(** * The decoder's stores, token by token *)

(** [n] bytes at offset [dst] lie inside [img]. *)
Definition in_image (img : list Z) (dst : Z) (n : nat) : Prop :=
  0 <= dst /\ dst + Z.of_nat n <= Z.of_nat (length img).

Definition in_image_b (img : list Z) (dst : Z) (n : nat) : bool :=
  (0 <=? dst) && (dst + Z.of_nat n <=? Z.of_nat (length img)).

(** [img] with [px] stored from offset [dst] on. *)
Definition splice (img : list Z) (dst : Z) (px : list Z) : list Z :=
  take (Z.to_nat dst) img ++ px ++ drop (Z.to_nat dst + length px) img.

(** The bytes of the stream a token takes. *)
Definition token_size (t : token) : Z :=
  match t with
  | Literal bytes => 1 + Z.of_nat (length bytes)
  | Repeat _ _ => 2
  end.

(** What one token does to the write pointer, the column and the image:
    its expansion goes to the image two pixels per byte, and the pointer
    moves back two lines once the column has reached [width]. *)
Definition lay_token (width : Z) (t : token) (s : Z * Z * list Z)
  : option (Z * Z * list Z) :=
  let '(dst, x, img) := s in
  let px := unpack (expand t) in
  if in_image_b img dst (length px) then
    let img' := splice img dst px in
    let dst' := dst + Z.of_nat (length px) in
    let x' := x + Z.of_nat (length px) in
    if x' >=? width
    then Some (dst' - 2 * width, 0, img')
    else Some (dst', x', img')
  else None.

Fixpoint lay (width : Z) (ts : list token) (s : Z * Z * list Z)
  : option (Z * Z * list Z) :=
  match ts with
  | [] => Some s
  | t :: ts' => s ← lay_token width t s; lay width ts' s
  end.

(** The decoder state after the stream has been read to its end. *)
Definition finished (src : memstream_buf_t) (s : option (Z * Z * list Z))
  : result Ega2bmp.state :=
  match s with
  | Some (dst, x, img) =>
      Ok (Ega2bmp.State (Memstream (len src) (len src) (data src)) dst x img)
  | None => OutOfBounds
  end.

(** An outcome that is not a typed error. *)
Definition no_err {A : Type} (r : result A) : Prop := forall e, r <> Err e.

(** * Three lines of 131 packed bytes (262 pixels) *)

(** 130 bytes 0 and a byte 17 *)
Definition line_a : list Z := replicate 130 0 ++ [17].

(** 131 bytes 0 *)
Definition line_b : list Z := replicate 131 0.

(** 16 and 35 in turn, but for a 2 at offset 125 and a 1 at 128: no
    three equal bytes in a row *)
Definition line_c : list Z :=
  map (fun i => if (i =? 125)%nat then 2
                else if (i =? 128)%nat then 1
                else if Nat.even i then 16 else 35) (seq 0 131).

(** The image of 262 by 3 pixels with [line_c] first in the buffer,
    then [line_b], then [line_a]. *)
Definition image_cba : list Z := unpack (line_c ++ line_b ++ line_a).

(** * The C library, as the two programs call it *)

(** ** Strings *)

(** A [char] buffer is a [list Z] as any other; the string it holds ends
    at its first 0.  [chars] gives the characters of a string literal. *)
Definition chars (s : String.string) : list Z :=
  map (fun c => Z.of_N (Ascii.N_of_ascii c)) (String.list_ascii_of_string s).

(** a character of a string: any [char] but the terminator *)
Definition is_char (c : Z) : Prop := 1 <= c < 256.

(** [strlen(s)]; a buffer without a 0 is read past its end *)
Fixpoint strlen (s : list Z) : result Z :=
  match s with
  | [] => OutOfBounds
  | c :: s' => if c =? 0 then Ok 0 else n ← strlen s'; Ok (n + 1)
  end.

(** [strrchr(s, c)]: the offset of the last [c] of the string, the
    terminator included; [None] is [NULL]. *)
Fixpoint strrchr (s : list Z) (c : Z) : result (option Z) :=
  match s with
  | [] => OutOfBounds
  | b :: s' =>
      if b =? 0 then Ok (if c =? 0 then Some 0 else None)
      else
        r ← strrchr s' c;
        Ok (match r with
            | Some i => Some (i + 1)
            | None => if b =? c then Some 0 else None
            end)
  end.

(** [memset(buf + i, b, n)] *)
Fixpoint memset (n : nat) (buf : list Z) (i : Z) (b : Z) : result (list Z) :=
  match n with
  | O => Ok buf
  | S n' => buf ← poke buf i b; memset n' buf (i + 1) b
  end.

(** [strncpy(dst + i, src, n)]: the characters of [src] up to its
    terminator, then zeros, [n] bytes in all *)
Fixpoint strncpy_at (n : nat) (dst : list Z) (i : Z) (src : list Z)
  : result (list Z) :=
  match n with
  | O => Ok dst
  | S n' =>
      match src with
      | [] => OutOfBounds
      | c :: src' =>
          dst ← poke dst i c;
          if c =? 0 then memset n' dst (i + 1) 0
          else strncpy_at n' dst (i + 1) src'
      end
  end.

Definition strncpy (dst src : list Z) (n : Z) : result (list Z) :=
  strncpy_at (Z.to_nat n) dst 0 src.

(** [strncat(dst, src, n)]: at most [n] characters of [src] from the
    terminator of [dst] on, then a terminator *)
Fixpoint strncat_at (n : nat) (dst : list Z) (i : Z) (src : list Z)
  : result (list Z) :=
  match n with
  | O => poke dst i 0
  | S n' =>
      match src with
      | [] => OutOfBounds
      | c :: src' =>
          if c =? 0 then poke dst i 0
          else dst ← poke dst i c; strncat_at n' dst (i + 1) src'
      end
  end.

Definition strncat (dst src : list Z) (n : Z) : result (list Z) :=
  l ← strlen dst; strncat_at (Z.to_nat n) dst l src.

(** The string a buffer holds: its characters before the first 0. *)
Fixpoint text (buf : list Z) : list Z :=
  match buf with
  | [] => []
  | c :: buf' => if c =? 0 then [] else c :: text buf'
  end.

(** ** Files *)

(** An open file: its bytes and the position of the next read. *)
Record FILE : Type := File { contents : list Z; fpos : Z }.

(** [fread(buf, size, 1, fp)]: the [size] bytes of the one item, or
    [None] when [fread] returns 0: fewer than [size] bytes are left (the
    position is then at the end of the file), or [size] is 0. *)
Definition fread (size : Z) (fp : FILE) : option (list Z) * FILE :=
  let n := Z.of_nat (length (contents fp)) in
  if size <=? 0 then (None, fp)
  else if (0 <=? fpos fp) && (fpos fp + size <=? n)
  then (Some (take (Z.to_nat size) (drop (Z.to_nat (fpos fp)) (contents fp))),
        File (contents fp) (fpos fp + size))
  else (None, File (contents fp) (Z.max (fpos fp) n)).

(** [fseek(fp, offset, SEEK_SET)]; a negative offset is refused *)
Definition fseek_set (fp : FILE) (offset : Z) : FILE :=
  if 0 <=? offset then File (contents fp) offset else fp.

(** [fseek(fp, offset, SEEK_END)] *)
Definition fseek_end (fp : FILE) (offset : Z) : FILE :=
  let p := Z.of_nat (length (contents fp)) + offset in
  if 0 <=? p then File (contents fp) p else fp.

Definition ftell (fp : FILE) : Z := fpos fp.

(** [fwrite(buf, size, 1, fp)] on a file being written, [out] the bytes
    written so far; the count returned is 0 when [size] is 0.  The
    write itself is taken to succeed. *)
Definition fwrite (buf : list Z) (size : Z) (out : list Z) : Z * list Z :=
  if size <=? 0 then (0, out) else (1, out ++ take (Z.to_nat size) buf).

(** * bmp.h *)

(** The header [bmp.h] is not among the sources at hand.  Its structs are
    taken with the fields the two programs name, and what else it fixes
    (the sizes of its types, its two constants, how the values lie in
    memory) is gathered in [bmp_h], a parameter of [load_bmp] and
    [save_bmp]. *)

Record dib_header_t : Type :=
  DibHeader { file_size : Z; RES : Z; image_offset : Z }.

Record bmi_header_t : Type :=
  BmiHeader { header_size : Z; image_width : Z; image_height : Z;
              num_planes : Z; bits_per_pixel : Z; compression : Z;
              bitmap_size : Z; horiz_res : Z; vert_res : Z;
              num_colors : Z; important_colors : Z }.

Record bmp_header_t : Type :=
  BmpHeader { dib : dib_header_t; bmi : bmi_header_t }.

Definition bmp_palette_entry_t : Type := (Z * Z * Z * Z)%type.

Record bmp_h : Type :=
  BmpH { sizeof_bmp_signature_t : Z;
         sizeof_bmp_header_t : Z;
         sizeof_bmi_header_t : Z;
         sizeof_bmp_palette_entry_t : Z;
         BMPFILESIG : Z;
         BMP96DPI : Z;
         (** the value of a [bmp_signature_t] and of a [bmp_header_t]
             whose bytes are given, and the bytes of a value *)
         signature_of : list Z -> Z;
         header_of : list Z -> bmp_header_t;
         bytes_of_signature : Z -> list Z;
         bytes_of_header : bmp_header_t -> list Z;
         bytes_of_palette : list bmp_palette_entry_t -> list Z }.

(** [HDRBUFSZ] (ega2bmp.c, line 217) *)
Definition HDRBUFSZ (h : bmp_h) : Z :=
  sizeof_bmp_signature_t h + sizeof_bmp_header_t h.

(** the default EGA/VGA 16 colour palette (both files, lines 26-31) *)
Definition ega_pal : list bmp_palette_entry_t :=
  [ (0x00,0x00,0x00,0x00); (0xaa,0x00,0x00,0x00);
    (0x00,0xaa,0x00,0x00); (0xaa,0xaa,0x00,0x00);
    (0x00,0x00,0xaa,0x00); (0xaa,0x00,0xaa,0x00);
    (0x00,0x55,0xaa,0x00); (0xaa,0xaa,0xaa,0x00);
    (0x55,0x55,0x55,0x00); (0xff,0x55,0x55,0x00);
    (0x55,0xff,0x55,0x00); (0xff,0xff,0x55,0x00);
    (0x55,0x55,0xff,0x00); (0xff,0x55,0xff,0x00);
    (0x55,0xff,0xff,0x00); (0xff,0xff,0xff,0x00) ].

Definition u32 (z : Z) : Z := z mod 4294967296.

(** the bytes per line of the BMP file, padded (bmp2ega.c line 339,
    ega2bmp.c line 245): [((w + 3) & (~0x0003)) / 2] *)
Definition stride (w : Z) : Z := u32 (Z.land (w + 3) (Z.lnot 3) / 2).

(** * Functions both files define *)

Module Common.

(** [filesize] (bmp2ega.c 188-195, ega2bmp.c 185-192) *)
Definition filesize (f : FILE) : Z * FILE :=
  let cp := ftell f in
  let f := fseek_end f 0 in
  let szll := ftell f in
  let f := fseek_set f cp in
  (szll, f).

(** [drop_extension] (bmp2ega.c 199-202, ega2bmp.c 196-199); ['.'] is
    46 *)
Definition drop_extension (fn : list Z) : result (list Z) :=
  extension ← strrchr fn 46;
  match extension with
  | Some i => poke fn i 0
  | None => Ok fn
  end.

(** The loop of [filename]:
    [for(...; i >= 0 && path[i] != '/'; i--);] with ['/'] 47; returns
    the last [i]. *)
Fixpoint filename_loop (fuel : nat) (path : list Z) (i : Z) : result Z :=
  if i >=? 0 then
    c ← peek path i;
    if negb (c =? 47) then
      match fuel with
      | O => OutOfFuel
      | S fuel' => filename_loop fuel' path (i - 1)
      end
    else Ok i
  else Ok i.

(** [filename] (bmp2ega.c 207-216, ega2bmp.c 204-213): the memory the
    returned pointer sees; [[0]] is the literal [""] and [None] a [NULL]
    path. *)
Definition filename (path : option (list Z)) : result (list Z) :=
  match path with
  | None => Ok [0]
  | Some p =>
      c ← peek p 0;
      if c =? 0 then Ok [0]
      else
        n ← strlen p;
        i ← filename_loop (Z.to_nat n) p (n - 1);
        if i =? -1 then Ok [0] else Ok (mem_at p (i + 1))
  end.

(** main, lines 53-87 of bmp2ega.c and 52-86 of ega2bmp.c: the names of
    the input and the output file, from the arguments [argv] (strings in
    memory, [argv[0]] the program).  [OUTEXT] is the literal of the
    file, terminator included; [None] is the usage message and
    [return -1].  The few bytes of the names are taken to be
    allotted. *)
Definition file_names (OUTEXT : list Z) (argv : list (list Z))
  : result (option (list Z * list Z)) :=
  let argc := Z.of_nat (length argv) in
  if (argc <? 2) || (argc >? 3) then Ok None
  else
    match argv with
    | _ :: arg :: argv =>
        namelen ← strlen arg;
        fi_name ← strncpy (calloc (namelen + 1)) arg namelen;
        match argv with
        | arg :: _ =>
            namelen ← strlen arg;
            fo_name ← strncpy (calloc (namelen + 1)) arg namelen;
            Ok (Some (fi_name, fo_name))
        | [] =>
            fo_name ← strncpy (calloc (namelen + 5)) fi_name namelen;
            fo_name ← drop_extension fo_name;
            fo_name ← strncat fo_name OUTEXT (namelen + 4);
            Ok (Some (fi_name, fo_name))
        end
    | _ => Ok None
    end.

End Common.

(** * bmp2ega.c: reading the BMP file *)

Module Bmp2egaFile.

(** [".EGA"] *)
Definition OUTEXT : list Z := [46; 69; 71; 65; 0].

(** What [load_bmp] hands back: [rval] 0 with the image and its size,
    or a negative [rval]. *)
Inductive load_result : Type :=
| Loaded (dst : memstream_buf_t) (width height : Z)
| LoadFailed (rval : Z).

(** lines 368-374: the pixels of the line in [buf] go to [data] at the
    offset [px]; [n] pairs are left and [x] is the next. *)
Fixpoint unpack_line (n : nat) (lw : Z) (buf : list Z) (x : Z)
         (data : list Z) (px : Z) : result (list Z * Z) :=
  match n with
  | O => Ok (data, px)
  | S n' =>
      sp ← peek buf x;
      data ← poke data px (Z.land (Z.shiftr sp 4) 15);
      let px := px + 1 in
      '(data, px) ← (if x * 2 + 1 <? lw
                     then data ← poke data px (Z.land sp 15);
                          Ok (data, px + 1)
                     else Ok (data, px));
      unpack_line n' lw buf (x + 1) data px
  end.

(** lines 359-378: [n] lines are left to read; [None] is [rval = -3] *)
Fixpoint read_lines (n : nat) (lw : Z) (flip : bool) (fp : FILE)
         (data : list Z) (px : Z) : result (option (list Z)) :=
  match n with
  | O => Ok (Some data)
  | S n' =>
      let '(buf, fp) := fread (stride lw) fp in
      match buf with
      | None => Ok None
      | Some buf =>
          '(data, px) ← unpack_line (Z.to_nat ((lw + 1) / 2)) lw buf 0
                          data px;
          let px := if negb flip then px - lw * 2 else px in
          read_lines n' lw flip fp data px
      end
  end.

(** [load_bmp] (lines 265-388) as [main] calls it: the four pointers are
    not [NULL], so [rval = -1] is left out; [file] is what [fopen]
    finds, [None] when the file cannot be opened.  The image is
    allotted [lw * lh] bytes, a product of two [uint16_t] in [int]:
    beyond [INT_MAX] [calloc] returns [NULL] and [rval] is -5 (lines
    342-345, see [alloc]).  The header and the line buffer, which are
    small, are taken to be allotted. *)
Definition load_bmp (h : bmp_h) (file : option (list Z))
  : result load_result :=
  match file with
  | None => Ok (LoadFailed (-2))
  | Some bytes =>
      let fp := File bytes 0 in
      let '(sig, fp) := fread (sizeof_bmp_signature_t h) fp in
      match sig with
      | None => Ok (LoadFailed (-3))
      | Some sig =>
          if negb (BMPFILESIG h =? signature_of h sig)
          then Ok (LoadFailed (-4))
          else
            let '(bmp, fp) := fread (sizeof_bmp_header_t h) fp in
            match bmp with
            | None => Ok (LoadFailed (-3))
            | Some bmp =>
                let bmp := header_of h bmp in
                if negb (1 =? num_planes (bmi bmp))
                   || negb (sizeof_bmi_header_t h =? header_size (bmi bmp))
                   || negb (0 =? RES (dib bmp))
                then Ok (LoadFailed (-6))
                else if negb (4 =? bits_per_pixel (bmi bmp))
                        || negb (16 =? num_colors (bmi bmp))
                        || negb (0 =? compression (bmi bmp))
                then Ok (LoadFailed (-7))
                else
                  let fp := fseek_set fp (image_offset (dib bmp)) in
                  let flip := image_height (bmi bmp) <? 0 in
                  let image_height := Z.abs (image_height (bmi bmp)) in
                  let lw := u16 (image_width (bmi bmp)) in
                  let lh := u16 image_height in
                  if lw * lh >? INT_MAX then Ok (LoadFailed (-5))
                  else
                    let dst := Memstream (lw * lh) 0 (calloc (lw * lh)) in
                    let px := if flip then 0 else len dst - lw in
                    r ← read_lines (Z.to_nat lh) lw flip fp (data dst) px;
                    match r with
                    | None => Ok (LoadFailed (-3))
                    | Some data =>
                        Ok (Loaded (Memstream (lw * lh) 0 data) lw lh)
                    end
            end
      end
  end.

(** main, lines 89-168: from the BMP file to the bytes of the EGA file;
    [None] when [load_bmp] fails ("Unable to read BMP image"). *)
Definition convert (h : bmp_h) (file : option (list Z))
  : result (option (list Z)) :=
  r ← load_bmp h file;
  match r with
  | LoadFailed _ => Ok None
  | Loaded img width height =>
      out ← Bmp2ega.main img width height; Ok (Some out)
  end.

End Bmp2egaFile.

(** * ega2bmp.c: reading the EGA file, writing the BMP file *)

Module Ega2bmpFile.

(** [".BMP"] *)
Definition OUTEXT : list Z := [46; 66; 77; 80; 0].

(** main, lines 88-111: the bytes of the input file, [None] when it
    cannot be opened or read ([fread] of an empty file returns 0); the
    buffer of the size of the file is taken to be allotted *)
Definition read_file (file : option (list Z)) : option (list Z) :=
  match file with
  | None => None
  | Some bytes =>
      let fi := File bytes 0 in
      let '(fsz, fi) := Common.filesize fi in
      fst (fread fsz fi)
  end.

(** lines 309-316: the pixels at offset [px] of [src] go to the line
    buffer, two to a byte *)
Fixpoint pack_line (n : nat) (width : Z) (src : list Z) (px : Z)
         (buf : list Z) (x : Z) : result (list Z * Z) :=
  match n with
  | O => Ok (buf, px)
  | S n' =>
      sp ← peek src px;
      let px := px + 1 in
      let sp := u8 (Z.shiftl sp 4) in
      '(sp, px) ← (if x * 2 + 1 <? width
                   then q ← peek src px;
                        Ok (Z.lor sp (Z.land q 15), px + 1)
                   else Ok (sp, px));
      buf ← poke buf x sp;
      pack_line n' width src px buf (x + 1)
  end.

(** lines 305-323: [n] lines are left; returns [rval] and the file *)
Fixpoint write_lines (n : nat) (width : Z) (src : list Z) (px : Z)
         (buf : list Z) (fp : list Z) : result (Z * list Z) :=
  match n with
  | O => Ok (0, fp)
  | S n' =>
      buf ← memset (Z.to_nat (stride width)) buf 0 0;
      '(buf, px) ← pack_line (Z.to_nat ((width + 1) / 2)) width src px buf 0;
      let '(nr, fp) := fwrite buf (stride width) fp in
      if negb (1 =? nr) then Ok (-4, fp)
      else write_lines n' width src (px - width * 2) buf fp
  end.

(** The header [save_bmp] sets up (lines 264-280); [RES] stays as
    [calloc] left it. *)
Definition bmp_header (h : bmp_h) (width height : Z) : bmp_header_t :=
  let bmp_img_sz := u32 (stride width * height) in
  let palsz := sizeof_bmp_palette_entry_t h * 16 in
  let image_offset := HDRBUFSZ h + palsz in
  BmpHeader
    (DibHeader (image_offset + bmp_img_sz) 0 image_offset)
    (BmiHeader (sizeof_bmi_header_t h) width height 1 4 0 bmp_img_sz
               (BMP96DPI h) (BMP96DPI h) 16 0).

(** [save_bmp] (lines 226-329) as [main] calls it: no pointer is
    [NULL], so [rval = -1] is left out; [fopen] and [calloc] are taken
    to succeed.  Returns [rval] and the bytes of the file written. *)
Definition save_bmp (h : bmp_h) (src : memstream_buf_t) (width height : Z)
           (pal : list bmp_palette_entry_t) : result (Z * list Z) :=
  let fp := [] in
  let bmp := bmp_header h width height in
  let palsz := sizeof_bmp_palette_entry_t h * 16 in
  (* the signature and the header lie at offset [stride + 2] of [buf] *)
  let buf := calloc (stride width + 2)
             ++ bytes_of_signature h (BMPFILESIG h) ++ bytes_of_header h bmp in
  let '(nr, fp) := fwrite (mem_at buf (stride width + 2)) (HDRBUFSZ h) fp in
  if negb (1 =? nr) then Ok (-4, fp)
  else
    let '(nr, fp) := fwrite (bytes_of_palette h pal) palsz fp in
    if negb (1 =? nr) then Ok (-4, fp)
    else
      let px := len src - width in
      write_lines (Z.to_nat height) width (data src) px buf fp.

(** main, lines 113-169: from the bytes of the EGA file to [rval] and
    the bytes of the BMP file *)
Definition convert (h : bmp_h) (file : list Z) : result (Z * list Z) :=
  '(width, height, img) ← Ega2bmp.main file;
  save_bmp h (Memstream (width * height) 0 img) width height ega_pal.

End Ega2bmpFile.

(** ** What the theorems take [bmp.h] to give *)

(** a header whose fields are within the range [save_bmp] stores *)
Definition header_fits (b : bmp_header_t) : Prop :=
  0 <= file_size (dib b) < 2147483648 /\
  RES (dib b) = 0 /\
  0 <= image_offset (dib b) < 32768 /\
  0 <= header_size (bmi b) < 32768 /\
  0 <= image_width (bmi b) < 65536 /\
  0 <= image_height (bmi b) < 65536 /\
  num_planes (bmi b) = 1 /\
  bits_per_pixel (bmi b) = 4 /\
  compression (bmi b) = 0 /\
  0 <= bitmap_size (bmi b) < 2147483648 /\
  0 <= horiz_res (bmi b) < 32768 /\
  0 <= vert_res (bmi b) < 32768 /\
  num_colors (bmi b) = 16 /\
  important_colors (bmi b) = 0.

(** The sizes are positive and small, the signature and such a header
    read back from their bytes as they were written, and the bytes of a
    value are as many as the size of its type. *)
Definition bmp_h_ok (h : bmp_h) : Prop :=
  0 < sizeof_bmp_signature_t h /\
  0 < sizeof_bmp_header_t h /\
  0 < sizeof_bmp_palette_entry_t h /\
  HDRBUFSZ h + sizeof_bmp_palette_entry_t h * 16 < 32768 /\
  0 <= sizeof_bmi_header_t h < 32768 /\
  0 <= BMP96DPI h < 32768 /\
  Z.of_nat (length (bytes_of_signature h (BMPFILESIG h)))
  = sizeof_bmp_signature_t h /\
  signature_of h (bytes_of_signature h (BMPFILESIG h)) = BMPFILESIG h /\
  (forall b, Z.of_nat (length (bytes_of_header h b)) = sizeof_bmp_header_t h) /\
  (forall b, header_fits b -> header_of h (bytes_of_header h b) = b) /\
  (forall pal, Z.of_nat (length (bytes_of_palette h pal))
               = sizeof_bmp_palette_entry_t h * Z.of_nat (length pal)).

(** ** The layout of Windows' BITMAPFILEHEADER and BITMAPINFOHEADER *)

(** [n] bytes, least significant first *)
Fixpoint le_bytes (n : nat) (v : Z) : list Z :=
  match n with
  | O => []
  | S n' => v mod 256 :: le_bytes n' (v / 256)
  end.

Fixpoint le_value (bytes : list Z) : Z :=
  match bytes with
  | [] => 0
  | b :: bytes' => b + 256 * le_value bytes'
  end.

(** an [int32_t] from its four bytes *)
Definition le_int32 (bytes : list Z) : Z :=
  let v := le_value bytes in
  if v <? 2147483648 then v else v - 4294967296.

(** the field of [n] bytes at offset [i] *)
Definition field (bytes : list Z) (i n : nat) : list Z :=
  take n (drop i bytes).

Definition windows_bmp_h : bmp_h :=
  BmpH 2 52 40 4 19778 3780
    le_value
    (fun b =>
       BmpHeader
         (DibHeader (le_value (field b 0 4)) (le_value (field b 4 4))
                    (le_value (field b 8 4)))
         (BmiHeader (le_value (field b 12 4)) (le_int32 (field b 16 4))
                    (le_int32 (field b 20 4)) (le_value (field b 24 2))
                    (le_value (field b 26 2)) (le_value (field b 28 4))
                    (le_value (field b 32 4)) (le_int32 (field b 36 4))
                    (le_int32 (field b 40 4)) (le_value (field b 44 4))
                    (le_value (field b 48 4))))
    (le_bytes 2)
    (fun b =>
       le_bytes 4 (file_size (dib b)) ++ le_bytes 4 (RES (dib b))
       ++ le_bytes 4 (image_offset (dib b))
       ++ le_bytes 4 (header_size (bmi b)) ++ le_bytes 4 (image_width (bmi b))
       ++ le_bytes 4 (image_height (bmi b)) ++ le_bytes 2 (num_planes (bmi b))
       ++ le_bytes 2 (bits_per_pixel (bmi b))
       ++ le_bytes 4 (compression (bmi b)) ++ le_bytes 4 (bitmap_size (bmi b))
       ++ le_bytes 4 (horiz_res (bmi b)) ++ le_bytes 4 (vert_res (bmi b))
       ++ le_bytes 4 (num_colors (bmi b))
       ++ le_bytes 4 (important_colors (bmi b)))
    (fun pal => concat (map (fun '(a, b, c, d) => [a; b; c; d]) pal)).

(** ** The lines of a BMP file *)

(** A line of pixels, two to a byte, the last one alone in its byte when
    their number is odd. *)
Fixpoint pack_row (pixels : list Z) : list Z :=
  match pixels with
  | l :: r :: rest => Z.lor (u8 (Z.shiftl l 4)) (Z.land r 15) :: pack_row rest
  | [l] => [u8 (Z.shiftl l 4)]
  | [] => []
  end.

(** The line of a BMP file for a line of [w] pixels: padded with zeros
    to [stride w] bytes. *)
Definition bmp_line (w : Z) (pixels : list Z) : list Z :=
  pack_row pixels
  ++ replicate (Z.to_nat (stride w) - length (pack_row pixels)) 0.

(** The lines of an image as they follow one another in a BMP file: the
    last line of the buffer first. *)
Definition bmp_lines (w : Z) (rows : list (list Z)) : list Z :=
  concat (map (bmp_line w) (rev rows)).

(** An outcome that is a result with the property [P], or an access
    outside a buffer: not a typed error, not a loop cut short. *)
Definition ok_or_out {A : Type} (P : A -> Prop) (r : result A) : Prop :=
  match r with
  | Ok a => P a
  | OutOfBounds => True
  | _ => False
  end.

(** What the decoding loop keeps: the stream [s], but for its position,
    which is [p] or more, and an image of [n] pixels. *)
Definition decoder_keeps (n : nat) (s : memstream_buf_t) (p : Z)
           (st : Ega2bmp.state) : Prop :=
  len (Ega2bmp.src st) = len s /\ data (Ega2bmp.src st) = data s /\
  p <= pos (Ega2bmp.src st) /\
  length (Ega2bmp.img st) = n /\ Forall is_pixel (Ega2bmp.img st).

(** What the encoder keeps of its output stream once the size prefix
    [hdr] is written: the position is past the prefix and inside the
    buffer, the prefix is in place, and the buffer holds bytes. *)
Definition stream_ok (hdr : list Z) (d : memstream_buf_t) : Prop :=
  4 <= pos d <= Z.of_nat (length (data d)) /\
  take 4 (data d) = hdr /\
  Forall is_byte (data d).

(** The bytes the encoding of a line of [n] bytes can take beyond [n]:
    four for each 256 bytes and one for each 128 of the rest. *)
Definition slack (n : Z) : Z := 4 * (n / 256) + (n mod 256 + 127) / 128.

(** The lines of pixels in the first [k] lines of [stride lw] bytes of
    [bytes]: the first [lw] nibbles of each. *)
Definition bmp_rows (lw : Z) (k : nat) (bytes : list Z) : list (list Z) :=
  map (fun l => take (Z.to_nat lw) (unpack l))
      (lines (Z.to_nat (stride lw)) k bytes).

(** Where [load_bmp] reads the lines from: the offset of the header,
    or, [fseek] refusing a negative one, right after the header. *)
Definition lines_offset (h : bmp_h) (bmp : bmp_header_t) : Z :=
  if 0 <=? image_offset (dib bmp) then image_offset (dib bmp)
  else sizeof_bmp_signature_t h + sizeof_bmp_header_t h.

(** The header of a file, as [load_bmp] reads it. *)
Definition header_read (h : bmp_h) (bytes : list Z) : bmp_header_t :=
  header_of h (take (Z.to_nat (sizeof_bmp_header_t h))
                 (drop (Z.to_nat (sizeof_bmp_signature_t h)) bytes)).

(** What makes [load_bmp] take a file: the signature and the header are
    there, the header is that of an uncompressed image of one plane, 4
    bits per pixel and 16 colours, the size of the image is within
    [int], and the file holds all the lines. *)
Definition loadable (h : bmp_h) (bytes : list Z) : Prop :=
  let bmp := header_read h bytes in
  let lw := u16 (image_width (bmi bmp)) in
  let lh := u16 (Z.abs (image_height (bmi bmp))) in
  0 < sizeof_bmp_signature_t h /\ 0 < sizeof_bmp_header_t h /\
  sizeof_bmp_signature_t h + sizeof_bmp_header_t h
  <= Z.of_nat (length bytes) /\
  signature_of h (take (Z.to_nat (sizeof_bmp_signature_t h)) bytes)
  = BMPFILESIG h /\
  num_planes (bmi bmp) = 1 /\
  header_size (bmi bmp) = sizeof_bmi_header_t h /\
  RES (dib bmp) = 0 /\
  bits_per_pixel (bmi bmp) = 4 /\
  num_colors (bmi bmp) = 16 /\
  compression (bmi bmp) = 0 /\
  lw * lh <= 2147483647 /\
  (lh = 0 \/
   (1 <= lw /\
    lines_offset h bmp + lh * stride lw <= Z.of_nat (length bytes))).

(** The image [load_bmp] makes of a loadable file: the lines of the
    file from the last line of the image up, or from the first line
    down for a negative height. *)
Definition loaded_image (h : bmp_h) (bytes : list Z) : list Z :=
  let bmp := header_read h bytes in
  let lw := u16 (image_width (bmi bmp)) in
  let lh := u16 (Z.abs (image_height (bmi bmp))) in
  let rows := bmp_rows lw (Z.to_nat lh)
                (drop (Z.to_nat (lines_offset h bmp)) bytes) in
  concat (if image_height (bmi bmp) <? 0 then rows else rev rows).

(** ** Two BMP files in the Windows layout *)

(** 10 by 1 pixels, 1 to 10: the line 12 34 56 78 9A and a byte of
    padding after the 118 bytes of signature, header and palette *)
Definition bmp_10_by_1 : list Z :=
  [66; 77; 124; 0; 0; 0; 0; 0; 0; 0; 118; 0; 0; 0; 40; 0; 0; 0; 10;
   0; 0; 0; 1; 0; 0; 0; 1; 0; 4; 0; 0; 0; 0; 0; 6; 0; 0; 0; 196; 14;
   0; 0; 196; 14; 0; 0; 16; 0; 0; 0; 0; 0; 0; 0; 0; 0; 0; 0; 170; 0;
   0; 0; 0; 170; 0; 0; 170; 170; 0; 0; 0; 0; 170; 0; 170; 0; 170; 0;
   0; 85; 170; 0; 170; 170; 170; 0; 85; 85; 85; 0; 255; 85; 85; 0;
   85; 255; 85; 0; 255; 255; 85; 0; 85; 85; 255; 0; 255; 85; 255; 0;
   85; 255; 255; 0; 255; 255; 255; 0; 18; 52; 86; 120; 154; 0].


(** The stream [d] in a buffer longer by [junk]. *)
Definition extend (d : memstream_buf_t) (junk : list Z) : memstream_buf_t :=
  Memstream (len d) (pos d) (data d ++ junk).

(** * Properties *)

(** ** Lemmas on the run finder *)

Section FindRun.

Import Bmp2ega.

Lemma run_length_replicate v n l :
  run_length v (replicate n v ++ l) = (n + run_length v l)%nat.
Proof.
  induction n as [|n IH]; simpl; [reflexivity|].
  rewrite Z.eqb_refl, IH. reflexivity.
Qed.

Lemma run_length_split v l :
  exists post, l = replicate (run_length v l) v ++ post /\ head post <> Some v.
Proof.
  induction l as [|x l IH]; simpl.
  - exists []. split; [reflexivity|discriminate].
  - destruct (Z.eqb_spec x v) as [->|Hne].
    + destruct IH as (post & Hl & Hp). exists post. split; [|exact Hp].
      simpl. f_equal. exact Hl.
    + exists (x :: l). split; [reflexivity|]. simpl. congruence.
Qed.

Lemma starts_run3_app l k :
  (3 <= length l)%nat -> starts_run3 (l ++ k) = starts_run3 l.
Proof.
  destruct l as [|a [|b [|c l]]]; simpl; intros; try lia; try reflexivity.
Qed.

Lemma first_run_step a t :
  starts_run3 (a :: t) = false ->
  first_run (a :: t) = shift_run 1 (first_run t).
Proof.
  intros H. change (first_run (a :: t)) with
    (if starts_run3 (a :: t) then (Z.of_nat (S (run_length a t)), 0)
     else let '(n, p) := first_run t in (n, p + 1)).
  rewrite H. destruct (first_run t). reflexivity.
Qed.

Lemma first_run_replicate3 v n l :
  (3 <= n)%nat -> head l <> Some v ->
  first_run (replicate n v ++ l) = (Z.of_nat n, 0).
Proof.
  intros Hn Hl. destruct n as [|[|[|n]]]; try lia.
  change (replicate (S (S (S n))) v ++ l)
    with (v :: (replicate (S (S n)) v ++ l)).
  change (first_run (v :: (replicate (S (S n)) v ++ l))) with
    (if starts_run3 (v :: (replicate (S (S n)) v ++ l))
     then (Z.of_nat (S (run_length v (replicate (S (S n)) v ++ l))), 0)
     else let '(n, p) := first_run (replicate (S (S n)) v ++ l) in (n, p + 1)).
  replace (starts_run3 (v :: replicate (S (S n)) v ++ l)) with true
    by (simpl; rewrite Z.eqb_refl; reflexivity).
  rewrite run_length_replicate.
  replace (run_length v l) with O; [do 2 f_equal; lia|].
  destruct l as [|x l]; simpl in *; [reflexivity|].
  destruct (Z.eqb_spec x v); [congruence|reflexivity].
Qed.

Lemma first_run_short v n x l :
  (1 <= n <= 2)%nat -> x <> v ->
  first_run (replicate n v ++ x :: l)
  = shift_run (Z.of_nat n) (first_run (x :: l)).
Proof.
  intros Hn Hx.
  assert (Hs : forall k, starts_run3 (v :: x :: k) = false).
  { intros k. destruct k; simpl; [reflexivity|].
    destruct (Z.eqb_spec v x); [congruence|reflexivity]. }
  assert (H1 : first_run (v :: x :: l) = shift_run 1 (first_run (x :: l))).
  { apply first_run_step, Hs. }
  destruct n as [|[|[|n]]]; try lia.
  - exact H1.
  - change (replicate 2 v ++ x :: l) with (v :: v :: x :: l).
    rewrite first_run_step.
    + rewrite H1. unfold shift_run. simpl. f_equal. lia.
    + simpl. destruct (Z.eqb_spec v x); [congruence|].
      rewrite andb_false_r. reflexivity.
Qed.

Lemma first_run_end v n :
  (1 <= n <= 2)%nat -> first_run (replicate n v) = (0, Z.of_nat n).
Proof.
  intros Hn. destruct n as [|[|[|n]]]; try lia; reflexivity.
Qed.

(** The loop computes [first_run] of what is left of the slice, the
    current streak included. *)
Lemma find_run_loop_first_run rest : forall lc lp count,
  (1 <= count)%nat ->
  find_run_loop (length rest) rest lc lp (Z.of_nat count)
                (lp + Z.of_nat count)
  = Ok (shift_run lp (first_run (replicate count lc ++ rest))).
Proof.
  induction rest as [|cc rest IH]; intros lc lp count Hc.
  - simpl. rewrite app_nil_r.
    destruct (Z.gtb_spec 3 (Z.of_nat count)) as [Hlt|Hge].
    + rewrite first_run_end by lia. unfold shift_run. simpl.
      do 2 f_equal. lia.
    + replace (replicate count lc) with (replicate count lc ++ [])
        by apply app_nil_r.
      rewrite first_run_replicate3 by (simpl; first [lia|discriminate]).
      reflexivity.
  - simpl. destruct (Z.eqb_spec lc cc) as [->|Hne]; simpl.
    + replace (Z.of_nat count + 1) with (Z.of_nat (S count)) by lia.
      replace (lp + Z.of_nat count + 1) with (lp + Z.of_nat (S count)) by lia.
      rewrite IH by lia. do 2 f_equal.
      rewrite (cons_middle cc), app_assoc. f_equal.
      clear. induction count; simpl; [reflexivity|]. f_equal. assumption.
    + destruct (Z.leb_spec 3 (Z.of_nat count)) as [Hge|Hlt].
      * rewrite first_run_replicate3 by (simpl; first [lia|congruence]).
        reflexivity.
      * specialize (IH cc (lp + Z.of_nat count) 1%nat ltac:(lia)).
        change (Z.of_nat 1) with 1 in IH. rewrite IH.
        rewrite first_run_short by first [lia|congruence].
        unfold shift_run. simpl fst. simpl snd.
        change (replicate 1 cc ++ rest) with (cc :: rest).
        f_equal. f_equal. lia.
Qed.

Lemma find_run_first_run (s : list Z) :
  (1 <= length s <= 255)%nat ->
  find_run s (Z.of_nat (length s)) = Ok (first_run s).
Proof.
  intros Hlen. destruct s as [|lc rest]; simpl in Hlen; [lia|].
  unfold find_run, u8. rewrite Z.mod_small by (simpl length; lia).
  replace (Z.to_nat (Z.of_nat (length (lc :: rest)) - 1)) with (length rest)
    by (simpl length; lia).
  pose proof (find_run_loop_first_run rest lc 0 1%nat ltac:(lia)) as H.
  change (0 + Z.of_nat 1) with 1 in H. change (Z.of_nat 1) with 1 in H.
  rewrite H. unfold shift_run. destruct (first_run _) as [n p]. simpl.
  do 2 f_equal. lia.
Qed.

(** The loop reads at most [n] bytes. *)
Lemma find_run_loop_take n : forall buf buf' lc lp count pos,
  take n buf = take n buf' ->
  find_run_loop n buf lc lp count pos = find_run_loop n buf' lc lp count pos.
Proof.
  induction n as [|n IH]; intros buf buf' lc lp count pos H;
    [reflexivity|].
  destruct buf as [|c buf], buf' as [|c' buf']; simpl in H; try discriminate;
    [reflexivity|].
  injection H as -> H. simpl.
  destruct (negb _); [destruct (3 <=? count)|]; auto.
Qed.

End FindRun.

(** ** The run finder and the first run of three *)

Section FirstRun.

Import Bmp2ega.

Lemma starts_run3_run_length a t :
  starts_run3 (a :: t) = true -> (2 <= run_length a t)%nat.
Proof.
  destruct t as [|b [|c t]]; simpl; try discriminate.
  intros H. apply andb_true_iff in H as [Hab Hbc].
  apply Z.eqb_eq in Hab, Hbc. subst.
  rewrite !Z.eqb_refl. lia.
Qed.

Lemma replicate_split2 {A} (n : nat) (v : A) :
  (2 <= n)%nat -> replicate n v = [v; v] ++ replicate (n - 2) v.
Proof.
  intros H. destruct n as [|[|n]]; try lia. simpl.
  rewrite Nat.sub_0_r. reflexivity.
Qed.

(** [first_run] returns what the words say: nothing when no three equal
    bytes follow one another, and otherwise the maximal run that starts
    at the leftmost such triple. *)
Lemma first_run_char (s : list Z) :
  exists n p : nat,
    first_run s = (Z.of_nat n, Z.of_nat p) /\
    ((has_run3 s = false /\ n = 0%nat /\ p = length s) \/
     ((3 <= n)%nat /\
      exists pre v post,
        s = pre ++ replicate n v ++ post /\
        length pre = p /\
        has_run3 (pre ++ [v; v]) = false /\
        head post <> Some v)).
Proof.
  induction s as [|a t IH].
  - exists 0%nat, 0%nat. split; [reflexivity|]. left. auto.
  - destruct (starts_run3 (a :: t)) eqn:Hs.
    + exists (S (run_length a t)), 0%nat. split.
      * change (first_run (a :: t)) with
          (if starts_run3 (a :: t)
           then (Z.of_nat (S (run_length a t)), 0)
           else let '(n, p) := first_run t in (n, p + 1)).
        rewrite Hs. reflexivity.
      * right. pose proof (starts_run3_run_length _ _ Hs) as Hrl.
        split; [lia|].
        destruct (run_length_split a t) as (post & Ht & Hpost).
        exists [], a, post. repeat split; try assumption.
        simpl. f_equal. exact Ht.
    + destruct IH as (n & p & Hfr & Hcase).
      exists n, (S p). split.
      * rewrite first_run_step by exact Hs. rewrite Hfr.
        unfold shift_run. simpl fst. simpl snd. f_equal. lia.
      * destruct Hcase as [(Hno & -> & ->)|(Hn & pre & v & post & Ht & Hp & Hno & Hpost)].
        -- left. repeat split; try reflexivity.
           change (has_run3 (a :: t)) with (starts_run3 (a :: t) || has_run3 t).
           rewrite Hs, Hno. reflexivity.
        -- right. split; [exact Hn|].
           exists (a :: pre), v, post. repeat split.
           ++ simpl. f_equal. exact Ht.
           ++ simpl. f_equal. exact Hp.
           ++ change (has_run3 ((a :: pre) ++ [v; v])) with
                (starts_run3 ((a :: pre) ++ [v; v]) || has_run3 (pre ++ [v; v])).
              rewrite Hno, orb_false_r.
              rewrite <- Hs, Ht, (replicate_split2 n v) by lia.
              rewrite <- (starts_run3_app ((a :: pre) ++ [v; v])
                            (replicate (n - 2) v ++ post)).
              ** f_equal. simpl. rewrite <- !app_assoc. reflexivity.
              ** simpl. rewrite length_app. simpl. lia.
           ++ exact Hpost.
Qed.

(** C4, as the claim words it, fails on slices of more than 255 bytes:
    the length is passed as a [uint8_t].  Of a slice of 300 equal bytes
    the finder returns a run of 44, not of 300; of a slice of 256 bytes
    without a run it returns position 1, not 256. *)
Lemma find_run_long_slice_counterexample :
  find_run (replicate 300 7) 300 = Ok (44, 0) /\
  first_run (replicate 300 7) = (300, 0) /\
  find_run (concat (replicate 128 [1; 2])) 256 = Ok (0, 1) /\
  first_run (concat (replicate 128 [1; 2])) = (0, 256).
Proof. repeat split; vm_compute; reflexivity. Qed.

(** C4, amended.  For a slice of 1 to 255 bytes (the range of the
    [uint8_t] length), [find_run] returns the length [n] and the offset
    [p] of the leftmost run of three or more equal bytes: no three equal
    bytes start before [p], the run is closed by a different byte or by
    the end of the slice, and nothing after it is looked at; without
    such a run it returns length 0 and the length of the slice. *)
Theorem find_run_leftmost_run (s : list Z) :
  (1 <= length s <= 255)%nat ->
  exists n p : nat,
    find_run s (Z.of_nat (length s)) = Ok (Z.of_nat n, Z.of_nat p) /\
    ((has_run3 s = false /\ n = 0%nat /\ p = length s) \/
     ((3 <= n)%nat /\
      exists pre v post,
        s = pre ++ replicate n v ++ post /\
        length pre = p /\
        has_run3 (pre ++ [v; v]) = false /\
        head post <> Some v)).
Proof.
  intros Hlen. destruct (first_run_char s) as (n & p & Hfr & Hcase).
  exists n, p. split; [|exact Hcase].
  rewrite find_run_first_run by exact Hlen. rewrite Hfr. reflexivity.
Qed.

Lemma find_run_leftmost_run_witness :
  exists n p : nat,
    find_run [5; 5; 7; 7; 7; 7; 2; 9; 9; 9; 9; 9] 12
    = Ok (Z.of_nat n, Z.of_nat p) /\
    ((has_run3 [5; 5; 7; 7; 7; 7; 2; 9; 9; 9; 9; 9] = false /\
      n = 0%nat /\ p = 12%nat) \/
     ((3 <= n)%nat /\
      exists pre v post,
        [5; 5; 7; 7; 7; 7; 2; 9; 9; 9; 9; 9] = pre ++ replicate n v ++ post /\
        length pre = p /\
        has_run3 (pre ++ [v; v]) = false /\
        head post <> Some v)).
Proof.
  apply (find_run_leftmost_run [5; 5; 7; 7; 7; 7; 2; 9; 9; 9; 9; 9]).
  simpl. lia.
Defined.

(** C10. The slice length of [find_run] is a [uint8_t]: called with a
    remaining row length above 255 it works on that length modulo 256,
    and its result is fixed by the first [rem mod 256] bytes alone: the
    first run among them, or [(0, 1)] when [rem mod 256] is 0. *)
Theorem find_run_length_mod_256 (buf buf' : list Z) (rem : Z) :
  255 < rem ->
  buf <> [] -> buf' <> [] ->
  take (Z.to_nat (rem mod 256)) buf = take (Z.to_nat (rem mod 256)) buf' ->
  find_run buf rem = find_run buf (rem mod 256) /\
  find_run buf rem = find_run buf' rem /\
  (rem mod 256 = 0 -> find_run buf rem = Ok (0, 1)) /\
  (1 <= rem mod 256 <= Z.of_nat (length buf) ->
   find_run buf rem = Ok (first_run (take (Z.to_nat (rem mod 256)) buf))).
Proof.
  intros Hrem Hb Hb' Htake.
  assert (Hm : 0 <= rem mod 256 < 256) by (apply Z.mod_pos_bound; lia).
  destruct buf as [|lc buf]; [congruence|].
  destruct buf' as [|lc' buf']; [congruence|].
  repeat split.
  - unfold find_run, u8. rewrite Z.mod_mod by lia. reflexivity.
  - unfold find_run, u8.
    destruct (Z.to_nat (rem mod 256)) as [|k] eqn:Hk.
    + replace (Z.to_nat (rem mod 256 - 1)) with 0%nat by lia. reflexivity.
    + simpl in Htake. injection Htake as -> Htake.
      replace (Z.to_nat (rem mod 256 - 1)) with k by lia.
      apply find_run_loop_take. exact Htake.
  - intros H0. unfold find_run, u8. rewrite H0. reflexivity.
  - intros Hin.
    set (k := Z.to_nat (rem mod 256)).
    assert (Hk : (1 <= k <= 255)%nat) by (unfold k; lia).
    assert (Hlk : length (take k (lc :: buf)) = k).
    { rewrite length_take. unfold k. lia. }
    pose proof (find_run_first_run (take k (lc :: buf)) ltac:(lia)) as Hfr.
    rewrite Hlk in Hfr. rewrite <- Hfr.
    unfold find_run, u8.
    rewrite (Z.mod_small (Z.of_nat k)) by lia.
    replace (Z.to_nat (rem mod 256 - 1)) with (k - 1)%nat by (unfold k; lia).
    replace (Z.to_nat (Z.of_nat k - 1)) with (k - 1)%nat by lia.
    destruct k as [|k]; [lia|]. simpl.
    rewrite Nat.sub_0_r. apply find_run_loop_take.
    rewrite take_take. f_equal. lia.
Qed.

Lemma find_run_length_mod_256_witness :
  find_run (replicate 300 7) 300 = find_run (replicate 300 7) (300 mod 256) /\
  find_run (replicate 300 7) 300
  = find_run (replicate 44 7 ++ replicate 256 8) 300 /\
  (300 mod 256 = 0 -> find_run (replicate 300 7) 300 = Ok (0, 1)) /\
  (1 <= 300 mod 256 <= Z.of_nat (length (replicate 300 7 : list Z)) ->
   find_run (replicate 300 7) 300
   = Ok (first_run (take (Z.to_nat (300 mod 256)) (replicate 300 7)))).
Proof.
  apply (find_run_length_mod_256 (replicate 300 7)
           (replicate 44 7 ++ replicate 256 8) 300).
  - lia.
  - discriminate.
  - discriminate.
  - vm_compute. reflexivity.
Defined.

End FirstRun.

(** ** Buffer accesses *)

Section Buffers.

Lemma peek_lookup (buf : list Z) (i : nat) (b : Z) :
  buf !! i = Some b -> peek buf (Z.of_nat i) = Ok b.
Proof.
  intros H. unfold peek.
  destruct (Z.leb_spec 0 (Z.of_nat i)); [|lia].
  rewrite Nat2Z.id, H. reflexivity.
Qed.

Lemma peek_app (a b : list Z) (i : Z) (v : Z) :
  i = Z.of_nat (length a) ->
  peek (a ++ v :: b) i = Ok v.
Proof.
  intros ->. apply peek_lookup. apply list_lookup_middle. reflexivity.
Qed.

Lemma poke_app (a b : list Z) (i : Z) (old v : Z) :
  i = Z.of_nat (length a) ->
  poke (a ++ old :: b) i v = Ok (a ++ u8 v :: b).
Proof.
  intros ->. unfold poke. rewrite length_app. simpl length.
  destruct (Z.leb_spec 0 (Z.of_nat (length a))); [|lia].
  destruct (Z.ltb_spec (Z.of_nat (length a))
              (Z.of_nat (length a + S (length b)))); [|lia].
  simpl. f_equal. rewrite Nat2Z.id.
  rewrite insert_app_r_alt by lia. rewrite Nat.sub_diag. reflexivity.
Qed.

Lemma poke_out (buf : list Z) (i v : Z) :
  i < 0 \/ Z.of_nat (length buf) <= i -> poke buf i v = OutOfBounds.
Proof.
  intros H. unfold poke.
  destruct (Z.leb_spec 0 i); destruct (Z.ltb_spec i (Z.of_nat (length buf)));
    simpl; first [reflexivity|lia].
Qed.

Lemma u8_byte (b : Z) : is_byte b -> u8 b = b.
Proof. intros H. apply Z.mod_small. exact H. Qed.

Lemma u8_is_byte (b : Z) : is_byte (u8 b).
Proof. apply Z.mod_pos_bound. lia. Qed.

End Buffers.

(** ** Nibbles *)

Section Nibbles.

Lemma is_pixel_in (p : Z) : is_pixel p -> In p pixels16.
Proof.
  intros H. unfold pixels16. apply in_map_iff. exists (Z.to_nat p).
  split; [unfold is_pixel in H; lia|]. apply in_seq.
  unfold is_pixel in H. lia.
Qed.

Lemma nibbles_table :
  forallb (fun p => forallb (nibbles_ok p) pixels16) pixels16 = true.
Proof. vm_compute. reflexivity. Qed.

Lemma pack_unpack_byte (p q : Z) :
  is_pixel p -> is_pixel q ->
  let b := Z.lor (u8 (Z.shiftl p 4)) (Z.land q 15) in
  b = 16 * p + q /\ unpack_byte b = [p; q].
Proof.
  intros Hp Hq b.
  pose proof nibbles_table as T.
  rewrite forallb_forall in T. specialize (T p (is_pixel_in p Hp)).
  rewrite forallb_forall in T. specialize (T q (is_pixel_in q Hq)).
  unfold nibbles_ok in T. fold b in T.
  apply andb_true_iff in T as [T Hr]. apply andb_true_iff in T as [Hb Hl].
  apply Z.eqb_eq in Hb, Hl, Hr.
  split; [exact Hb|]. unfold unpack_byte. rewrite Hl, Hr. reflexivity.
Qed.

Lemma unpack_app (a b : list Z) : unpack (a ++ b) = unpack a ++ unpack b.
Proof. unfold unpack. rewrite map_app, concat_app. reflexivity. Qed.

Lemma unpack_length (a : list Z) : length (unpack a) = (2 * length a)%nat.
Proof.
  induction a as [|x a IH]; [reflexivity|].
  change (unpack (x :: a)) with (unpack_byte x ++ unpack a).
  rewrite length_app, IH. simpl. lia.
Qed.

(** Induction two pixels at a time. *)
Lemma pairs_ind (P : list Z -> Prop) :
  P [] ->
  (forall p q l, P l -> P (p :: q :: l)) ->
  forall l, Nat.Even (length l) -> P l.
Proof.
  intros H0 H2 l. remember (length l) as n eqn:Hn.
  revert l Hn. induction n as [n IH] using lt_wf_ind.
  intros l Hn He. destruct l as [|p [|q l]].
  - exact H0.
  - simpl in Hn. subst n. destruct He as [k Hk]. lia.
  - apply H2. apply (IH (length l)).
    + simpl in Hn. lia.
    + reflexivity.
    + simpl in Hn. subst n. destruct He as [k Hk].
      exists (k - 1)%nat. lia.
Qed.

Lemma unpack_pack (pixels : list Z) :
  Nat.Even (length pixels) -> Forall is_pixel pixels ->
  unpack (pack pixels) = pixels.
Proof.
  revert pixels.
  apply (pairs_ind (fun l => Forall is_pixel l -> unpack (pack l) = l)).
  - reflexivity.
  - intros p q l IH Hpx. inversion Hpx as [|? ? Hp Hpx']. subst.
    inversion Hpx' as [|? ? Hq Hl]. subst.
    change (pack (p :: q :: l))
      with (Z.lor (u8 (Z.shiftl p 4)) (Z.land q 15) :: pack l).
    change (unpack (?b :: ?r)) with (unpack_byte b ++ unpack r).
    destruct (pack_unpack_byte p q Hp Hq) as [_ ->].
    rewrite IH by exact Hl. reflexivity.
Qed.

Lemma pack_length (pixels : list Z) :
  Nat.Even (length pixels) -> (2 * length (pack pixels) = length pixels)%nat.
Proof.
  revert pixels.
  apply (pairs_ind
           (fun l => (2 * length (pack l) = length l)%nat)).
  - reflexivity.
  - intros p q l IH.
    change (pack (p :: q :: l))
      with (Z.lor (u8 (Z.shiftl p 4)) (Z.land q 15) :: pack l).
    simpl length. lia.
Qed.

Lemma pack_bytes (pixels : list Z) :
  Forall is_pixel pixels -> Forall is_byte (pack pixels).
Proof.
  revert pixels. fix IH 1. intros [|p [|q l]] H; try constructor.
  - inversion H as [|? ? Hp H']. subst. inversion H' as [|? ? Hq Hl]. subst.
    destruct (pack_unpack_byte p q Hp Hq) as [-> _].
    unfold is_pixel in *. unfold is_byte. lia.
  - apply IH. inversion H as [|? ? Hp H']. subst.
    inversion H' as [|? ? Hq Hl]. exact Hl.
Qed.

End Nibbles.

(** ** The packer of bmp2ega.c works in place *)

Section PackInPlace.

Import Bmp2ega.

(** [pk] is what has been packed, [mid] the pixels already read that
    have not been overwritten, [rest] the pixels still to read. *)
Lemma pack_loop_inplace (n : nat) : forall pk mid rest : list Z,
  length mid = length pk ->
  (2 * n <= length rest)%nat ->
  Forall is_pixel rest ->
  pack_loop n (pk ++ mid ++ rest)
            (Z.of_nat (length pk + length mid)) (Z.of_nat (length pk))
  = Ok (pk ++ pack (take (2 * n) rest) ++ drop n (mid ++ rest)).
Proof.
  induction n as [|n IH]; intros pk mid rest Hmid Hlen Hpx.
  - reflexivity.
  - destruct rest as [|p [|q rest]]; simpl in Hlen; try lia.
    inversion Hpx as [|? ? Hp Hpx']. subst.
    inversion Hpx' as [|? ? Hq Hrest]. subst.
    destruct (pack_unpack_byte p q Hp Hq) as [Hb _].
    set (b := Z.lor (u8 (Z.shiftl p 4)) (Z.land q 15)) in *.
    assert (Hbb : u8 b = b).
    { apply u8_byte. unfold is_byte, is_pixel in *. lia. }
    assert (Htl : exists old mid',
               mid ++ p :: q :: rest = old :: mid' ++ rest /\
               length mid' = S (length mid)).
    { destruct mid as [|m mid].
      - exists p, [q]. split; reflexivity.
      - exists m, (mid ++ [p; q]). split.
        + simpl. rewrite <- app_assoc. reflexivity.
        + rewrite length_app. simpl. lia. }
    destruct Htl as (old & mid' & Htl & Hmid').
    cbn [pack_loop].
    rewrite (app_assoc pk mid (p :: q :: rest)).
    rewrite (peek_app (pk ++ mid) (q :: rest)
               (Z.of_nat (length pk + length mid)) p)
      by (rewrite length_app; reflexivity).
    cbn [mbind result_bind].
    replace ((pk ++ mid) ++ p :: q :: rest)
      with ((pk ++ mid ++ [p]) ++ q :: rest)
      by (rewrite <- !app_assoc; reflexivity).
    rewrite (peek_app (pk ++ mid ++ [p]) rest
               (Z.of_nat (length pk + length mid) + 1) q)
      by (rewrite !length_app; simpl; lia).
    cbn [mbind result_bind]. fold b.
    replace ((pk ++ mid ++ [p]) ++ q :: rest)
      with (pk ++ old :: mid' ++ rest)
      by (rewrite <- Htl, <- !app_assoc; reflexivity).
    rewrite (poke_app pk (mid' ++ rest) (Z.of_nat (length pk)) old b)
      by reflexivity.
    cbn [mbind result_bind]. rewrite Hbb.
    replace (pk ++ b :: mid' ++ rest) with ((pk ++ [b]) ++ mid' ++ rest)
      by (rewrite <- app_assoc; reflexivity).
    replace (Z.of_nat (length pk + length mid) + 2)
      with (Z.of_nat (length (pk ++ [b]) + length mid'))
      by (rewrite length_app; simpl; lia).
    replace (Z.of_nat (length pk) + 1) with (Z.of_nat (length (pk ++ [b])))
      by (rewrite length_app; simpl; lia).
    rewrite IH.
    + f_equal. rewrite <- app_assoc. f_equal.
      replace (2 * S n)%nat with (S (S (2 * n))) by lia.
      change (take (S (S (2 * n))) (p :: q :: rest))
        with (p :: q :: take (2 * n) rest).
      change (pack (p :: q :: take (2 * n) rest))
        with (b :: pack (take (2 * n) rest)).
      simpl. f_equal. f_equal. rewrite Htl. reflexivity.
    + rewrite length_app. simpl. lia.
    + lia.
    + exact Hrest.
Qed.

Lemma pack_pixels_inplace (pixels : list Z) :
  Nat.Even (length pixels) -> Forall is_pixel pixels ->
  pack_pixels (loaded pixels)
  = Ok (pack pixels ++ drop (length pixels / 2) pixels).
Proof.
  intros [k Hk] Hpx. unfold pack_pixels, loaded. cbn [len data].
  replace (Z.to_nat ((Z.of_nat (length pixels) + 1) / 2)) with k.
  2:{ rewrite Hk. rewrite Nat2Z.inj_mul. change (Z.of_nat 2) with 2.
      replace (2 * Z.of_nat k + 1) with (1 + Z.of_nat k * 2) by lia.
      rewrite Z.div_add by lia. change (1 / 2) with 0. lia. }
  pose proof (pack_loop_inplace k [] [] pixels eq_refl ltac:(lia) Hpx) as H.
  cbn [app length Nat.add] in H. change (Z.of_nat 0) with 0 in H.
  rewrite H. f_equal.
  replace (length pixels / 2)%nat with k.
  2:{ rewrite Hk. rewrite Nat.mul_comm, Nat.div_mul by lia. reflexivity. }
  rewrite take_ge by lia. reflexivity.
Qed.

End PackInPlace.

(** ** The size prefix *)

Section Header.

Lemma poke16_front (a : list Z) (x y : Z) (rest : list Z) (i v : Z) :
  i = Z.of_nat (length a) ->
  poke16 (a ++ x :: y :: rest) i v
  = Ok (a ++ u16 v mod 256 :: (u16 v / 256) mod 256 :: rest).
Proof.
  intros Hi. unfold poke16.
  rewrite (poke_app a (y :: rest) i x (u16 v)) by exact Hi.
  cbn [mbind result_bind].
  replace (a ++ u8 (u16 v) :: y :: rest)
    with ((a ++ [u8 (u16 v)]) ++ y :: rest)
    by (rewrite <- app_assoc; reflexivity).
  rewrite (poke_app (a ++ [u8 (u16 v)]) rest (i + 1) y (u16 v / 256))
    by (rewrite length_app; simpl; lia).
  rewrite <- app_assoc. reflexivity.
Qed.

Lemma peek16_front (a : list Z) (x y : Z) (rest : list Z) (i : Z) :
  i = Z.of_nat (length a) ->
  peek16 (a ++ x :: y :: rest) i = Ok (x + 256 * y).
Proof.
  intros Hi. unfold peek16.
  rewrite (peek_app a (y :: rest) i x) by exact Hi.
  cbn [mbind result_bind].
  replace (a ++ x :: y :: rest) with ((a ++ [x]) ++ y :: rest)
    by (rewrite <- app_assoc; reflexivity).
  rewrite (peek_app (a ++ [x]) rest (i + 1) y)
    by (rewrite length_app; simpl; lia).
  reflexivity.
Qed.

Lemma u16_bytes (v : Z) :
  u16 v mod 256 + 256 * ((u16 v / 256) mod 256) = u16 v.
Proof.
  unfold u16.
  assert (H : 0 <= v mod 65536 < 65536) by (apply Z.mod_pos_bound; lia).
  Z.to_euclidean_division_equations. lia.
Qed.

Lemma u16_bias (w : Z) : 0 <= w < 65536 -> u16 (u16 (w - 1) + 1) = w.
Proof.
  intros H. unfold u16.
  Z.to_euclidean_division_equations. lia.
Qed.

Ltac rew_front H :=
  let E := fresh in
  pose proof H as E; cbn [app length] in E; rewrite E; clear E.

(** C8, amended.  The encoder writes [width - 1] and [height - 1] as
    two 16-bit fields, least significant byte first, at the start of a
    stream of four bytes or more, and the decoder reads the two fields
    and adds 1: it gets [width] and [height] back for every value of
    the [uint16_t] the programs keep them in, 0 to 65535. *)
Theorem header_bias_roundtrip (width height : Z) (dst : memstream_buf_t) :
  0 <= width < 65536 ->
  0 <= height < 65536 ->
  (4 <= length (data dst))%nat ->
  exists d,
    Bmp2ega.write_header width height dst = Ok d /\
    pos d = pos dst + 4 /\
    take 4 (data d)
    = [u16 (width - 1) mod 256; (u16 (width - 1) / 256) mod 256;
       u16 (height - 1) mod 256; (u16 (height - 1) / 256) mod 256] /\
    drop 4 (data d) = drop 4 (data dst) /\
    peek16 (data d) 0 = Ok (u16 (width - 1)) /\
    peek16 (data d) 2 = Ok (u16 (height - 1)) /\
    forall file,
      take 4 file = take 4 (data d) ->
      Ega2bmp.read_header file = Ok (width, height).
Proof.
  intros Hw Hh Hlen. destruct dst as [l p buf]. cbn [data pos] in *.
  destruct buf as [|b0 [|b1 [|b2 [|b3 rest]]]]; simpl in Hlen; try lia.
  set (w0 := u16 (width - 1) mod 256).
  set (w1 := (u16 (width - 1) / 256) mod 256).
  set (h0 := u16 (height - 1) mod 256).
  set (h1 := (u16 (height - 1) / 256) mod 256).
  assert (Hrd : forall file,
             take 4 file = [w0; w1; h0; h1] ->
             Ega2bmp.read_header file = Ok (width, height)).
  { intros file Hf.
    destruct file as [|f0 [|f1 [|f2 [|f3 frest]]]]; simpl in Hf;
      try discriminate.
    injection Hf as -> -> -> ->.
    unfold Ega2bmp.read_header.
    rew_front (peek16_front [] w0 w1 (h0 :: h1 :: frest) 0 eq_refl).
    cbn [mbind result_bind].
    rew_front (peek16_front [w0; w1] h0 h1 frest 2 eq_refl).
    cbn [mbind result_bind].
    unfold w0, w1, h0, h1. rewrite !u16_bytes, !u16_bias by assumption.
    reflexivity. }
  exists (Memstream l (p + 4) (w0 :: w1 :: h0 :: h1 :: rest)).
  unfold Bmp2ega.write_header. cbn [data pos len].
  rew_front (poke16_front [] b0 b1 (b2 :: b3 :: rest) 0 (width - 1) eq_refl).
  cbn [mbind result_bind app]. fold w0 w1.
  rew_front (poke16_front [w0; w1] b2 b3 rest 2 (height - 1) eq_refl).
  cbn [mbind result_bind app]. fold h0 h1.
  repeat split.
  - rew_front (peek16_front [] w0 w1 (h0 :: h1 :: rest) 0 eq_refl).
    unfold w0, w1. rewrite u16_bytes. reflexivity.
  - rew_front (peek16_front [w0; w1] h0 h1 rest 2 eq_refl).
    unfold h0, h1. rewrite u16_bytes. reflexivity.
  - exact Hrd.
Qed.

(** The instance of the specification: 320 by 200 is stored as 319 and
    199, bytes 63 1 199 0. *)
Lemma header_bias_roundtrip_witness :
  exists d,
    Bmp2ega.write_header 320 200 (Memstream 64000 0 (calloc 64000)) = Ok d /\
    pos d = 0 + 4 /\
    take 4 (data d) = [63; 1; 199; 0] /\
    drop 4 (data d) = drop 4 (calloc 64000) /\
    peek16 (data d) 0 = Ok 319 /\
    peek16 (data d) 2 = Ok 199 /\
    forall file,
      take 4 file = take 4 (data d) ->
      Ega2bmp.read_header file = Ok (320, 200).
Proof.
  apply (header_bias_roundtrip 320 200 (Memstream 64000 0 (calloc 64000))).
  - lia.
  - lia.
  - apply Nat.leb_le. vm_compute. reflexivity.
Defined.

(** A stored field of 65535 is read back as 0: the sum wraps in the
    [uint16_t] it is kept in. *)
Lemma read_header_wraps :
  Ega2bmp.read_header [255; 255; 255; 255] = Ok (0, 0).
Proof. reflexivity. Qed.

(** C8, as the claim words it, fails at the top of the range 1..65536
    the specification gives: 65536 is no value of the [uint16_t] the
    two programs keep the sizes in.  Its field is written FF FF, as
    that of 0 is, and read back as 0.  And the prefix needs four bytes
    of buffer: the one allotted for an image of 2 by 1 pixels has two,
    and the encoder writes past its end. *)
Lemma header_bias_65536_counterexample :
  Bmp2ega.write_header 65536 65536 (Memstream 4 0 [0; 0; 0; 0])
  = Ok (Memstream 4 4 [255; 255; 255; 255]) /\
  Ega2bmp.read_header [255; 255; 255; 255] = Ok (0, 0) /\
  Ega2bmp.read_header [255; 255; 255; 255] <> Ok (65536, 65536) /\
  Bmp2ega.write_header 2 1 (Memstream (2 * 1) 0 (calloc (2 * 1)))
  = OutOfBounds /\
  Bmp2ega.main (Bmp2ega.loaded [1; 2]) 2 1 = OutOfBounds.
Proof.
  split; [reflexivity|]. split; [reflexivity|].
  split; [discriminate|]. split; reflexivity.
Qed.

End Header.

(** ** Writing to the output stream *)

Section Output.

Import Bmp2ega.

Lemma put_append (b : Z) (d : memstream_buf_t) :
  room d 1 -> put b d = Ok (append d [u8 b]).
Proof.
  intros [H0 H1]. unfold put, poke.
  destruct (Z.leb_spec 0 (pos d)); [|lia].
  destruct (Z.ltb_spec (pos d) (Z.of_nat (length (data d)))); [|lia].
  cbn [andb mbind result_bind]. unfold append. f_equal. f_equal.
  rewrite insert_take_drop by lia. simpl.
  rewrite Nat.add_1_r. reflexivity.
Qed.

Lemma append_length (d : memstream_buf_t) (bs : list Z) :
  room d (length bs) -> length (data (append d bs)) = length (data d).
Proof.
  intros [H0 H1]. unfold append. cbn [data].
  rewrite !length_app, length_take, length_drop. lia.
Qed.

Lemma room_le (d : memstream_buf_t) (n m : nat) :
  room d n -> (m <= n)%nat -> room d m.
Proof. intros [H0 H1] H. split; lia. Qed.

Lemma append_room (d : memstream_buf_t) (bs : list Z) (n m : nat) :
  room d n -> (length bs + m <= n)%nat -> room (append d bs) m.
Proof.
  intros [H0 H1] Hle.
  assert (Hr : room d (length bs)) by (split; lia).
  unfold room. rewrite (append_length d bs Hr).
  unfold append. cbn [pos]. lia.
Qed.

Lemma append_append (d : memstream_buf_t) (a b : list Z) :
  room d (length a) -> append (append d a) b = append d (a ++ b).
Proof.
  intros [H0 H1]. unfold append. cbn [len pos data].
  f_equal.
  - rewrite length_app. lia.
  - set (n := Z.to_nat (pos d)).
    replace (Z.to_nat (pos d + Z.of_nat (length a))) with (n + length a)%nat
      by lia.
    assert (Hn : length (take n (data d)) = n)
      by (apply length_take_le; lia).
    rewrite (app_assoc (take n (data d)) a).
    assert (Hna : length (take n (data d) ++ a) = (n + length a)%nat)
      by (rewrite length_app, Hn; reflexivity).
    rewrite take_app_length' by (symmetry; exact Hna).
    rewrite drop_app_add' by (first [exact Hna|symmetry; exact Hna]).
    rewrite drop_drop, length_app, <- !app_assoc.
    do 4 f_equal. lia.
Qed.

Lemma append_nil (d : memstream_buf_t) : append d [] = d.
Proof.
  destruct d as [l p buf]. unfold append. cbn [len pos data length app].
  f_equal; [lia|]. rewrite Nat.add_0_r. apply take_drop.
Qed.

Lemma written_append (d : memstream_buf_t) (bs : list Z) :
  room d (length bs) -> written (append d bs) = written d ++ bs.
Proof.
  intros [H0 H1]. unfold written, append. cbn [pos data].
  replace (Z.to_nat (pos d + Z.of_nat (length bs)))
    with (Z.to_nat (pos d) + length bs)%nat by lia.
  rewrite app_assoc. apply take_app_length'.
  rewrite length_app, length_take_le by lia. reflexivity.
Qed.

Lemma mem_at_cons (img : list Z) (p b : Z) (t : list Z) :
  mem_at img p = b :: t ->
  peek img p = Ok b /\ mem_at img (p + 1) = t.
Proof.
  unfold mem_at, peek. destruct (Z.leb_spec 0 p) as [Hp|Hp]; [|discriminate].
  intros H. destruct (Z.leb_spec 0 (p + 1)); [|lia].
  assert (Hl : img !! Z.to_nat p = Some b).
  { pose proof (lookup_drop img (Z.to_nat p) 0) as E.
    rewrite H, Nat.add_0_r in E. symmetry. exact E. }
  rewrite Hl. split; [reflexivity|].
  replace (Z.to_nat (p + 1)) with (S (Z.to_nat p)) by lia.
  rewrite (drop_S img b (Z.to_nat p) Hl) in H. congruence.
Qed.

Lemma copy_bytes_append (n : nat) : forall img st bytes rest,
  mem_at img (src st) = bytes ++ rest ->
  length bytes = n ->
  Forall is_byte bytes ->
  room (dst st) n ->
  copy_bytes n img st
  = Ok (State (src st + Z.of_nat n) (append (dst st) bytes)).
Proof.
  induction n as [|n IH]; intros img st bytes rest Hm Hl Hb Hr.
  - destruct bytes; [|discriminate]. simpl. rewrite append_nil.
    destruct st. cbn [src dst]. do 2 f_equal. lia.
  - destruct bytes as [|b bytes]; [discriminate|].
    simpl in Hm. apply mem_at_cons in Hm as [Hpk Hm].
    inversion Hb as [|? ? Hb0 Hb']. subst.
    cbn [copy_bytes]. rewrite Hpk. cbn [mbind result_bind].
    rewrite put_append by (destruct Hr; split; lia).
    cbn [mbind result_bind]. rewrite u8_byte by exact Hb0.
    rewrite (IH img _ bytes rest); cbn [src dst].
    + f_equal. f_equal; [lia|].
      rewrite append_append by (destruct Hr; split; simpl; lia).
      reflexivity.
    + exact Hm.
    + simpl in Hl. lia.
    + exact Hb'.
    + apply (append_room _ _ (S n)); [exact Hr|simpl; lia].
Qed.

End Output.

(** ** Control bytes *)

Section ControlBytes.

Lemma is_byte_in (c : Z) : is_byte c -> In c bytes256.
Proof.
  intros H. unfold bytes256. apply in_map_iff. exists (Z.to_nat c).
  unfold is_byte in H. split; [lia|]. apply in_seq. lia.
Qed.

Lemma control_table : forallb control_ok bytes256 = true.
Proof. vm_compute. reflexivity. Qed.

Lemma control_byte (c : Z) :
  is_byte c ->
  Z.testbit c 7 = (c >=? 128) /\
  Z.land c 127 = (if c >=? 128 then c - 128 else c).
Proof.
  intros Hc. pose proof control_table as T.
  rewrite forallb_forall in T. specialize (T c (is_byte_in c Hc)).
  unfold control_ok in T. apply andb_true_iff in T as [T1 T2].
  apply eqb_prop in T1. apply Z.eqb_eq in T2. split; assumption.
Qed.

Lemma control_repeat (c : Z) :
  128 <= c < 256 -> Z.testbit c 7 = true /\ Z.land c 127 = c - 128.
Proof.
  intros Hc. destruct (control_byte c) as [H1 H2]; [unfold is_byte; lia|].
  destruct (Z.geb_spec c 128); [|lia]. split; assumption.
Qed.

Lemma control_literal (c : Z) :
  0 <= c < 128 -> Z.testbit c 7 = false /\ Z.land c 127 = c.
Proof.
  intros Hc. destruct (control_byte c) as [H1 H2]; [unfold is_byte; lia|].
  destruct (Z.geb_spec c 128); [lia|]. split; assumption.
Qed.

End ControlBytes.

(** ** Reading a stream as tokens *)

Section Tokens.

Lemma parse_tokens_fuel_cons (fuel : nat) (c : Z) (s : list Z) :
  parse_tokens_fuel (S fuel) (c :: s)
  = if Z.testbit c 7 then
      match s with
      | v :: s'' =>
          ts ← parse_tokens_fuel fuel s'';
          Some (Repeat (Z.to_nat (Z.land c 127 + 3)) v :: ts)
      | [] => None
      end
    else
      if (Z.to_nat (c + 1) <=? length s)%nat then
        ts ← parse_tokens_fuel fuel (drop (Z.to_nat (c + 1)) s);
        Some (Literal (take (Z.to_nat (c + 1)) s) :: ts)
      else None.
Proof. reflexivity. Qed.

Lemma parse_tokens_fuel_irrelevant (f1 : nat) : forall f2 s,
  (length s <= f1)%nat -> (length s <= f2)%nat ->
  parse_tokens_fuel f1 s = parse_tokens_fuel f2 s.
Proof.
  induction f1 as [|f1 IH]; intros f2 s H1 H2.
  - destruct s; [|simpl in H1; lia]. destruct f2; reflexivity.
  - destruct s as [|c s]; [destruct f2; reflexivity|].
    destruct f2 as [|f2]; [simpl in H2; lia|].
    simpl in H1, H2. rewrite !parse_tokens_fuel_cons.
    destruct (Z.testbit c 7).
    + destruct s as [|v s]; [reflexivity|].
      rewrite (IH f2 s) by (simpl in *; lia). reflexivity.
    + destruct (Nat.leb_spec (Z.to_nat (c + 1)) (length s)); [|reflexivity].
      rewrite (IH f2 (drop (Z.to_nat (c + 1)) s))
        by (rewrite length_drop; lia).
      reflexivity.
Qed.

Lemma parse_tokens_repeat (c v : Z) (s : list Z) :
  Z.testbit c 7 = true ->
  parse_tokens (c :: v :: s)
  = (ts ← parse_tokens s; Some (Repeat (Z.to_nat (Z.land c 127 + 3)) v :: ts)).
Proof.
  intros Hc. unfold parse_tokens. cbn [length].
  rewrite parse_tokens_fuel_cons, Hc.
  rewrite (parse_tokens_fuel_irrelevant (S (length s)) (length s) s)
    by lia.
  reflexivity.
Qed.

Lemma parse_tokens_literal (c : Z) (bs s : list Z) :
  Z.testbit c 7 = false ->
  Z.to_nat (c + 1) = length bs ->
  parse_tokens (c :: bs ++ s)
  = (ts ← parse_tokens s; Some (Literal bs :: ts)).
Proof.
  intros Hc Hn. unfold parse_tokens. cbn [length].
  rewrite parse_tokens_fuel_cons, Hc, Hn.
  destruct (Nat.leb_spec (length bs) (length (bs ++ s))) as [_|Hlt];
    [|rewrite length_app in Hlt; lia].
  rewrite drop_app_length, take_app_length.
  rewrite (parse_tokens_fuel_irrelevant (length (bs ++ s)) (length s) s)
    by (rewrite ?length_app; lia).
  reflexivity.
Qed.

Lemma expand_all_cons (t : token) (ts : list token) :
  expand_all (t :: ts) = expand t ++ expand_all ts.
Proof. reflexivity. Qed.

Lemma expand_all_app (ts us : list token) :
  expand_all (ts ++ us) = expand_all ts ++ expand_all us.
Proof. unfold expand_all. rewrite map_app, concat_app. reflexivity. Qed.

End Tokens.

(** ** The token emitters of the encoder *)

Section Emitters.

Import Bmp2ega.

Lemma mem_at_app (img : list Z) (p : Z) (a b : list Z) :
  mem_at img p = a ++ b -> mem_at img (p + Z.of_nat (length a)) = b.
Proof.
  revert p. induction a as [|x a IH]; intros p H.
  - simpl. rewrite Z.add_0_r. exact H.
  - simpl in H. apply mem_at_cons in H as [_ H].
    apply IH in H. rewrite <- H. f_equal. simpl length. lia.
Qed.

Lemma literal_bytes_unfold (fuel : nat) (bs : list Z) :
  literal_bytes (S fuel) bs
  = if Z.of_nat (length bs) >? 128
    then 127 :: take 128 bs ++ literal_bytes fuel (drop 128 bs)
    else (Z.of_nat (length bs) - 1) :: bs.
Proof. reflexivity. Qed.

Lemma run_bytes_unfold (fuel : nat) (rlen v : Z) :
  run_bytes (S fuel) rlen v
  = if rlen >? 130
    then 255 :: v :: run_bytes fuel (rlen - 130) v
    else [u8 (rlen - 3 + 128); v].
Proof. reflexivity. Qed.

(** The literal loop writes [literal_bytes]. *)
Lemma copy_literals_append (fuel : nat) : forall img st lits rest,
  mem_at img (src st) = lits ++ rest ->
  (1 <= length lits <= 128 * fuel)%nat ->
  Forall is_byte lits ->
  room (dst st) (length (literal_bytes fuel lits)) ->
  copy_literals fuel img (Z.of_nat (length lits)) st
  = Ok (State (src st + Z.of_nat (length lits))
              (append (dst st) (literal_bytes fuel lits))).
Proof.
  induction fuel as [|fuel IH]; intros img st lits rest Hm Hl Hb Hr; [lia|].
  cbn [copy_literals]. rewrite literal_bytes_unfold in *.
  destruct (Z.gtb_spec (Z.of_nat (length lits)) 128) as [Hgt|Hle].
  - assert (Ht : length (take 128 lits) = 128%nat)
      by (apply length_take_le; lia).
    set (k := length (literal_bytes fuel (drop 128 lits))) in *.
    assert (Hr' : room (dst st) (S (128 + k))).
    { simpl length in Hr. rewrite length_app, Ht in Hr. exact Hr. }
    assert (R1 : room (append (dst st) [127]) 128)
      by (apply (append_room _ _ _ _ Hr'); simpl; lia).
    assert (R2 : room (append (dst st) (127 :: take 128 lits)) k)
      by (apply (append_room _ _ _ _ Hr'); simpl; rewrite Ht; lia).
    assert (Hm2 : mem_at img (src st + 128) = drop 128 lits ++ rest).
    { pose proof (mem_at_app img (src st) (take 128 lits)
                    (drop 128 lits ++ rest)) as E.
      rewrite app_assoc, take_drop, Ht in E. exact (E Hm). }
    rewrite put_append by (apply (room_le _ _ _ Hr'); lia).
    cbn [mbind result_bind]. change (u8 127) with 127.
    rewrite (copy_bytes_append 128 img _ (take 128 lits)
               (drop 128 lits ++ rest));
      cbn [src dst with_dst];
      [|rewrite app_assoc, take_drop; exact Hm|exact Ht
       |apply Forall_take; exact Hb|exact R1].
    cbn [mbind result_bind].
    rewrite append_append by (apply (room_le _ _ _ Hr'); simpl; lia).
    cbn [app].
    replace (Z.of_nat (length lits) - 128)
      with (Z.of_nat (length (drop 128 lits)))
      by (rewrite length_drop; lia).
    rewrite (IH img _ (drop 128 lits) rest); cbn [src dst].
    + f_equal. f_equal; [rewrite length_drop; lia|].
      rewrite append_append
        by (apply (room_le _ _ _ Hr'); simpl; rewrite Ht; lia).
      reflexivity.
    + exact Hm2.
    + rewrite length_drop. lia.
    + apply Forall_drop. exact Hb.
    + exact R2.
  - assert (Hr' : room (dst st) (S (length lits))) by exact Hr.
    rewrite put_append by (apply (room_le _ _ _ Hr'); lia).
    cbn [mbind result_bind].
    rewrite (u8_byte (Z.of_nat (length lits) - 1)) by (unfold is_byte; lia).
    rewrite Nat2Z.id.
    rewrite (copy_bytes_append (length lits) img _ lits rest);
      cbn [src dst with_dst];
      [|exact Hm|reflexivity|exact Hb
       |apply (append_room _ _ _ _ Hr'); simpl; lia].
    f_equal. f_equal.
    rewrite append_append by (apply (room_le _ _ _ Hr'); simpl; lia).
    reflexivity.
Qed.

(** The run loop writes [run_bytes]. *)
Lemma encode_run_append (fuel : nat) : forall img st rlen v,
  peek img (src st) = Ok v ->
  is_byte v ->
  (1 <= fuel)%nat -> rlen <= 130 * Z.of_nat fuel ->
  room (dst st) (length (run_bytes fuel rlen v)) ->
  encode_run fuel img rlen st
  = Ok (with_dst st (append (dst st) (run_bytes fuel rlen v))).
Proof.
  induction fuel as [|fuel IH]; intros img st rlen v Hpk Hv Hf Hl Hr; [lia|].
  cbn [encode_run]. rewrite run_bytes_unfold in *.
  destruct (Z.gtb_spec rlen 130) as [Hgt|Hle].
  - set (k := length (run_bytes fuel (rlen - 130) v)) in *.
    assert (Hr' : room (dst st) (S (S k))) by exact Hr.
    rewrite put_append by (apply (room_le _ _ _ Hr'); lia).
    cbn [mbind result_bind]. rewrite Hpk. cbn [mbind result_bind].
    change (u8 (127 + 128)) with 255.
    rewrite put_append by (apply (append_room _ _ _ _ Hr'); simpl; lia).
    cbn [mbind result_bind]. rewrite (u8_byte v) by exact Hv.
    rewrite append_append by (apply (room_le _ _ _ Hr'); simpl; lia).
    cbn [app].
    rewrite (IH img _ (rlen - 130) v); cbn [src dst with_dst];
      [|exact Hpk|exact Hv|lia|lia
       |apply (append_room _ _ _ _ Hr'); simpl; lia].
    f_equal. unfold with_dst. cbn [src dst]. f_equal.
    rewrite append_append by (apply (room_le _ _ _ Hr'); simpl; lia).
    reflexivity.
  - assert (Hr' : room (dst st) 2) by exact Hr.
    rewrite put_append by (apply (room_le _ _ _ Hr'); lia).
    cbn [mbind result_bind]. rewrite Hpk. cbn [mbind result_bind].
    rewrite put_append by (apply (append_room _ _ _ _ Hr'); simpl; lia).
    cbn [mbind result_bind]. rewrite (u8_byte v) by exact Hv.
    rewrite append_append by (apply (room_le _ _ _ Hr'); simpl; lia).
    reflexivity.
Qed.

End Emitters.

(** ** The tokens the emitters write *)

Section Splitting.

Import Bmp2ega.

Lemma cdiv_step (a b : Z) :
  0 < b -> b < a -> cdiv a b = 1 + cdiv (a - b) b.
Proof.
  intros Hb Ha. unfold cdiv.
  replace (a + b - 1) with ((a - b + b - 1) + 1 * b) by lia.
  rewrite Z.div_add by lia. lia.
Qed.

Lemma cdiv_one (a b : Z) : 1 <= a <= b -> cdiv a b = 1.
Proof.
  intros H. unfold cdiv.
  replace (a + b - 1) with ((a - 1) + 1 * b) by lia.
  rewrite Z.div_add by lia. rewrite Z.div_small by lia. reflexivity.
Qed.

Lemma literal_bytes_length (fuel : nat) : forall lits,
  (1 <= length lits <= 128 * fuel)%nat ->
  Z.of_nat (length (literal_bytes fuel lits))
  = Z.of_nat (length lits) + cdiv (Z.of_nat (length lits)) 128.
Proof.
  induction fuel as [|fuel IH]; intros lits Hl; [lia|].
  rewrite literal_bytes_unfold.
  destruct (Z.gtb_spec (Z.of_nat (length lits)) 128) as [Hgt|Hle].
  - simpl length. rewrite length_app, length_take_le by lia.
    rewrite Nat2Z.inj_succ, Nat2Z.inj_add, IH by (rewrite length_drop; lia).
    rewrite length_drop, (cdiv_step (Z.of_nat (length lits)) 128) by lia.
    replace (Z.of_nat (length lits - 128)) with (Z.of_nat (length lits) - 128)
      by lia.
    lia.
  - simpl length. rewrite cdiv_one by lia. lia.
Qed.

Lemma run_bytes_length (fuel : nat) : forall rlen v,
  1 <= rlen <= 130 * Z.of_nat fuel ->
  Z.of_nat (length (run_bytes fuel rlen v)) = 2 * cdiv rlen 130.
Proof.
  induction fuel as [|fuel IH]; intros rlen v Hl; [lia|].
  rewrite run_bytes_unfold.
  destruct (Z.gtb_spec rlen 130) as [Hgt|Hle].
  - simpl length. rewrite !Nat2Z.inj_succ, IH by lia.
    rewrite (cdiv_step rlen 130) by lia. lia.
  - rewrite cdiv_one by lia. reflexivity.
Qed.

Lemma literal_bytes_tokens (fuel : nat) : forall lits tail tts,
  (1 <= length lits <= 128 * fuel)%nat ->
  parse_tokens tail = Some tts ->
  exists ts,
    parse_tokens (literal_bytes fuel lits ++ tail) = Some (ts ++ tts) /\
    Z.of_nat (length ts) = cdiv (Z.of_nat (length lits)) 128 /\
    Forall (fun t => exists bs,
                t = Literal bs /\ (1 <= length bs <= 128)%nat) ts /\
    expand_all ts = lits.
Proof.
  induction fuel as [|fuel IH]; intros lits tail tts Hl Ht; [lia|].
  rewrite literal_bytes_unfold.
  destruct (Z.gtb_spec (Z.of_nat (length lits)) 128) as [Hgt|Hle].
  - assert (Hk : length (take 128 lits) = 128%nat)
      by (apply length_take_le; lia).
    destruct (IH (drop 128 lits) tail tts) as (ts & Hp & Hn & Hf & He);
      [rewrite length_drop; lia|exact Ht|].
    exists (Literal (take 128 lits) :: ts).
    repeat split.
    + cbn [app]. rewrite <- app_assoc.
      rewrite parse_tokens_literal by (rewrite ?Hk; reflexivity).
      rewrite Hp. reflexivity.
    + simpl length. rewrite Nat2Z.inj_succ, Hn.
      rewrite (cdiv_step (Z.of_nat (length lits)) 128) by lia.
      rewrite length_drop.
      replace (Z.of_nat (length lits - 128))
        with (Z.of_nat (length lits) - 128) by lia.
      lia.
    + constructor; [|exact Hf]. exists (take 128 lits). split; [reflexivity|lia].
    + rewrite expand_all_cons, He. apply take_drop.
  - exists [Literal lits]. repeat split.
    + cbn [app].
      destruct (control_literal (Z.of_nat (length lits) - 1)) as [Hc _];
        [lia|].
      rewrite parse_tokens_literal by (first [exact Hc|lia]).
      rewrite Ht. reflexivity.
    + rewrite cdiv_one by lia. reflexivity.
    + constructor; [|constructor]. exists lits. split; [reflexivity|lia].
    + unfold expand_all. simpl. apply app_nil_r.
Qed.

Lemma run_bytes_tokens (fuel : nat) : forall rlen v tail tts,
  3 <= rlen <= 130 * Z.of_nat fuel ->
  rlen mod 130 <> 1 -> rlen mod 130 <> 2 ->
  parse_tokens tail = Some tts ->
  exists ts,
    parse_tokens (run_bytes fuel rlen v ++ tail) = Some (ts ++ tts) /\
    Z.of_nat (length ts) = cdiv rlen 130 /\
    Forall (fun t => exists n, t = Repeat n v /\ (3 <= n <= 130)%nat) ts /\
    expand_all ts = replicate (Z.to_nat rlen) v.
Proof.
  induction fuel as [|fuel IH]; intros rlen v tail tts Hl H1 H2 Ht; [lia|].
  rewrite run_bytes_unfold.
  destruct (Z.gtb_spec rlen 130) as [Hgt|Hle].
  - assert (Hm : (rlen - 130) mod 130 = rlen mod 130).
    { replace rlen with ((rlen - 130) + 1 * 130) at 2 by lia.
      rewrite Z.mod_add by lia. reflexivity. }
    assert (Hr : 3 <= rlen - 130).
    { destruct (Z.eq_dec (rlen - 130) 1) as [E|E];
        [rewrite E in Hm; change (1 mod 130) with 1 in Hm; lia|].
      destruct (Z.eq_dec (rlen - 130) 2) as [E'|E'];
        [rewrite E' in Hm; change (2 mod 130) with 2 in Hm; lia|].
      lia. }
    destruct (IH (rlen - 130) v tail tts) as (ts & Hp & Hn & Hf & He);
      [lia|rewrite Hm; exact H1|rewrite Hm; exact H2|exact Ht|].
    exists (Repeat 130 v :: ts). repeat split.
    + cbn [app]. rewrite parse_tokens_repeat by reflexivity.
      rewrite Hp. reflexivity.
    + simpl length. rewrite Nat2Z.inj_succ, Hn.
      rewrite (cdiv_step rlen 130) by lia. lia.
    + constructor; [|exact Hf]. exists 130%nat. split; [reflexivity|lia].
    + rewrite expand_all_cons, He. cbn [expand].
      rewrite <- replicate_add. f_equal. lia.
  - destruct (control_repeat (rlen - 3 + 128)) as [Hc Hland]; [lia|].
    rewrite u8_byte by (unfold is_byte; lia).
    exists [Repeat (Z.to_nat rlen) v]. repeat split.
    + cbn [app]. rewrite parse_tokens_repeat by exact Hc.
      rewrite Ht, Hland. cbn [mbind option_bind]. do 3 f_equal. lia.
    + rewrite cdiv_one by lia. reflexivity.
    + constructor; [|constructor]. exists (Z.to_nat rlen).
      split; [reflexivity|lia].
    + unfold expand_all. simpl. apply app_nil_r.
Qed.

Lemma row300_table : forallb row300_ok bytes256 = true.
Proof. vm_compute. reflexivity. Qed.

Lemma encode_row_300 (v : Z) :
  is_byte v ->
  encode_row (replicate 300 v) = Ok [169; v; 0; v; 255; v; 250; v].
Proof.
  intros Hv. pose proof row300_table as T.
  rewrite forallb_forall in T. specialize (T v (is_byte_in v Hv)).
  unfold row300_ok in T. destruct (encode_row (replicate 300 v));
    try discriminate.
  apply bool_decide_eq_true in T. rewrite T. reflexivity.
Qed.

End Splitting.

(** ** Cap splitting and the run threshold *)

Section CapSplitting.

Import Bmp2ega.

(** C5, as the claim words it, fails: a line of 300 equal bytes is not
    written as the two tokens 207 v, 255 v.  The run finder sees
    300 mod 256 = 44 bytes first. *)
Lemma cap_splitting_300_counterexample :
  encode_row (replicate 300 7) = Ok [169; 7; 0; 7; 255; 7; 250; 7] /\
  encode_row (replicate 300 7) <> Ok [207; 7; 255; 7] /\
  Bmp2ega.main (Bmp2ega.loaded (replicate 600 3)) 600 1
  = Ok [87; 2; 0; 0; 169; 51; 0; 51; 255; 51; 250; 51].
Proof.
  assert (H : encode_row (replicate 300 7) = Ok [169; 7; 0; 7; 255; 7; 250; 7])
    by (vm_compute; reflexivity).
  split; [exact H|]. split; [rewrite H; discriminate|].
  vm_compute. reflexivity.
Qed.

(** C5, amended.  A run of [L >= 3] bytes handed to the run emitter,
    whose length leaves a remainder other than 1 or 2 modulo 130, is
    written as ceil(L/130) repeat tokens, each of a length in [3,130],
    that expand to the run; a literal span of [L >= 1] bytes handed to
    the literal emitter in one call is written as ceil(L/128) literal
    tokens, each of at most 128 bytes, that expand to the span; both
    when the output has room for them.  A line of 300 equal bytes [v]
    is written as the four tokens 169 v (a run of 44), 0 v (one literal
    byte), 255 v (a run of 130) and 250 v (a run of 125). *)
Theorem cap_splitting :
  (forall img st L v,
      3 <= L -> L mod 130 <> 1 -> L mod 130 <> 2 ->
      peek img (src st) = Ok v -> is_byte v ->
      room (dst st) (Z.to_nat (2 * cdiv L 130)) ->
      exists out ts,
        encode_run (S (Z.to_nat L)) img L st
        = Ok (with_dst st (append (dst st) out)) /\
        parse_tokens out = Some ts /\
        Z.of_nat (length ts) = cdiv L 130 /\
        Forall (fun t => exists n, t = Repeat n v /\ (3 <= n <= 130)%nat) ts /\
        expand_all ts = replicate (Z.to_nat L) v) /\
  (forall img st lits rest,
      mem_at img (src st) = lits ++ rest ->
      (1 <= length lits)%nat -> Forall is_byte lits ->
      room (dst st)
           (length lits + Z.to_nat (cdiv (Z.of_nat (length lits)) 128)) ->
      exists out ts,
        copy_literals (S (Z.to_nat (Z.of_nat (length lits)))) img
                      (Z.of_nat (length lits)) st
        = Ok (State (src st + Z.of_nat (length lits))
                    (append (dst st) out)) /\
        parse_tokens out = Some ts /\
        Z.of_nat (length ts) = cdiv (Z.of_nat (length lits)) 128 /\
        Forall (fun t => exists bs,
                    t = Literal bs /\ (1 <= length bs <= 128)%nat) ts /\
        expand_all ts = lits) /\
  (forall v, is_byte v ->
      encode_row (replicate 300 v) = Ok [169; v; 0; v; 255; v; 250; v]).
Proof.
  split; [|split].
  - intros img st L v HL H1 H2 Hpk Hv Hr.
    set (fuel := S (Z.to_nat L)).
    assert (Hlen : Z.of_nat (length (run_bytes fuel L v)) = 2 * cdiv L 130)
      by (apply run_bytes_length; unfold fuel; lia).
    destruct (run_bytes_tokens fuel L v [] []) as (ts & Hp & Hn & Hf & He);
      [unfold fuel; lia|exact H1|exact H2|reflexivity|].
    exists (run_bytes fuel L v), ts.
    rewrite !app_nil_r in Hp. repeat split; try assumption.
    apply encode_run_append; try assumption.
    + unfold fuel. lia.
    + unfold fuel. lia.
    + replace (length (run_bytes fuel L v))
        with (Z.to_nat (2 * cdiv L 130)) by lia.
      exact Hr.
  - intros img st lits rest Hm Hl Hb Hr.
    rewrite Nat2Z.id.
    set (fuel := S (length lits)).
    assert (Hlen : Z.of_nat (length (literal_bytes fuel lits))
                   = Z.of_nat (length lits)
                     + cdiv (Z.of_nat (length lits)) 128)
      by (apply literal_bytes_length; unfold fuel; lia).
    destruct (literal_bytes_tokens fuel lits [] []) as (ts & Hp & Hn & Hf & He);
      [unfold fuel; lia|reflexivity|].
    exists (literal_bytes fuel lits), ts.
    rewrite !app_nil_r in Hp. repeat split; try assumption.
    apply (copy_literals_append fuel img st lits rest); try assumption.
    + unfold fuel. lia.
    + assert (0 <= cdiv (Z.of_nat (length lits)) 128)
        by (unfold cdiv; apply Z.div_pos; lia).
      replace (length (literal_bytes fuel lits))
        with (length lits + Z.to_nat (cdiv (Z.of_nat (length lits)) 128))%nat
        by lia.
      exact Hr.
  - exact encode_row_300.
Qed.

Lemma cap_splitting_witness :
  (exists out ts,
      encode_run (S (Z.to_nat 200)) (replicate 200 9) 200
                 (State 0 (Memstream 400 0 (calloc 400)))
      = Ok (with_dst (State 0 (Memstream 400 0 (calloc 400)))
                     (append (Memstream 400 0 (calloc 400)) out)) /\
      parse_tokens out = Some ts /\
      Z.of_nat (length ts) = cdiv 200 130 /\
      Forall (fun t => exists n, t = Repeat n 9 /\ (3 <= n <= 130)%nat) ts /\
      expand_all ts = replicate (Z.to_nat 200) 9) /\
  (exists out ts,
      copy_literals (S (Z.to_nat (Z.of_nat (length [1; 2; 3; 4])))) [1; 2; 3; 4]
                    (Z.of_nat (length [1; 2; 3; 4]))
                    (State 0 (Memstream 8 0 (calloc 8)))
      = Ok (State (0 + Z.of_nat (length [1; 2; 3; 4]))
                  (append (Memstream 8 0 (calloc 8)) out)) /\
      parse_tokens out = Some ts /\
      Z.of_nat (length ts) = cdiv (Z.of_nat (length [1; 2; 3; 4])) 128 /\
      Forall (fun t => exists bs,
                  t = Literal bs /\ (1 <= length bs <= 128)%nat) ts /\
      expand_all ts = [1; 2; 3; 4]) /\
  encode_row (replicate 300 17) = Ok [169; 17; 0; 17; 255; 17; 250; 17].
Proof.
  destruct cap_splitting as (Hrun & Hlit & Hrow).
  split; [|split].
  - apply (Hrun (replicate 200 9) (State 0 (Memstream 400 0 (calloc 400)))
             200 9).
    + lia.
    + vm_compute. discriminate.
    + vm_compute. discriminate.
    + reflexivity.
    + unfold is_byte. lia.
    + unfold room. vm_compute. split; discriminate.
  - apply (Hlit [1; 2; 3; 4] (State 0 (Memstream 8 0 (calloc 8)))
             [1; 2; 3; 4] []).
    + reflexivity.
    + simpl. lia.
    + repeat constructor; unfold is_byte; lia.
    + unfold room. vm_compute. split; discriminate.
  - apply Hrow. unfold is_byte. lia.
Defined.

(** C6, as the claim words it, fails: in the line 5 5 5 7 7 9 9 9 9 the
    bytes before the run of 9 are not all written as literals. *)
Lemma run_threshold_counterexample :
  ~ exists lits,
      parsed (encode_row [5; 5; 5; 7; 7; 9; 9; 9; 9])
      = Some (lits ++ [Repeat 4 9]) /\
      forallb is_literal lits = true.
Proof.
  intros (lits & Hp & Hl).
  assert (H : parsed (encode_row [5; 5; 5; 7; 7; 9; 9; 9; 9])
              = Some ([Repeat 3 5; Literal [7; 7]] ++ [Repeat 4 9]))
    by (vm_compute; reflexivity).
  rewrite H in Hp. injection Hp as Hp.
  change ([Repeat 3 5; Literal [7; 7]] ++ [Repeat 4 9] = lits ++ [Repeat 4 9])
    in Hp.
  apply app_inj_tail in Hp as [<- _]. discriminate Hl.
Qed.

(** C6, amended.  The line 5 5 5 7 7 9 9 9 9 is written as a repeat
    token for 5 5 5, a literal token for 7 7 and a repeat token for
    9 9 9 9; the line 5 5 7 7, which has no run of three, is written as
    one literal token that covers it.  The same bytes come out of
    [main] for the 18 by 1 image of the first line and for the 8 by 2
    image of twice the second. *)
Theorem run_threshold :
  encode_row [5; 5; 5; 7; 7; 9; 9; 9; 9] = Ok [128; 5; 1; 7; 7; 129; 9] /\
  parsed (encode_row [5; 5; 5; 7; 7; 9; 9; 9; 9])
  = Some [Repeat 3 5; Literal [7; 7]; Repeat 4 9] /\
  encode_row [5; 5; 7; 7] = Ok [3; 5; 5; 7; 7] /\
  parsed (encode_row [5; 5; 7; 7]) = Some [Literal [5; 5; 7; 7]] /\
  Bmp2ega.main (Bmp2ega.loaded (unpack [5; 5; 5; 7; 7; 9; 9; 9; 9])) 18 1
  = Ok [17; 0; 0; 0; 128; 5; 1; 7; 7; 129; 9] /\
  Bmp2ega.main (Bmp2ega.loaded (unpack [5; 5; 7; 7; 5; 5; 7; 7])) 8 2
  = Ok [7; 0; 1; 0; 3; 5; 5; 7; 7; 3; 5; 5; 7; 7].
Proof. repeat split; vm_compute; reflexivity. Qed.

End CapSplitting.

(** ** The stores of the decoder *)

Section Stores.

Import Ega2bmp.

Lemma in_image_b_true (img : list Z) (d : Z) (n : nat) :
  in_image img d n -> in_image_b img d n = true.
Proof.
  unfold in_image, in_image_b. intros [H0 H1].
  destruct (Z.leb_spec 0 d); [|lia].
  destruct (Z.leb_spec (d + Z.of_nat n) (Z.of_nat (length img))); [|lia].
  reflexivity.
Qed.

Lemma in_image_b_false (img : list Z) (d : Z) (n : nat) :
  ~ in_image img d n -> in_image_b img d n = false.
Proof.
  unfold in_image, in_image_b. intros H.
  destruct (Z.leb_spec 0 d); [|reflexivity].
  destruct (Z.leb_spec (d + Z.of_nat n) (Z.of_nat (length img)));
    [|reflexivity].
  exfalso. apply H. split; assumption.
Qed.

Lemma in_image_cases (img : list Z) (d : Z) (n : nat) :
  in_image img d n \/ ~ in_image img d n.
Proof. unfold in_image. lia. Qed.

Lemma splice_length (img : list Z) (d : Z) (px : list Z) :
  in_image img d (length px) -> length (splice img d px) = length img.
Proof.
  intros H. exact (append_length (Memstream 0 d img) px H).
Qed.

Lemma splice_splice (img : list Z) (d : Z) (a b : list Z) :
  in_image img d (length a) ->
  splice (splice img d a) (d + Z.of_nat (length a)) b
  = splice img d (a ++ b).
Proof.
  intros H.
  exact (f_equal data (append_append (Memstream 0 d img) a b H)).
Qed.

Lemma splice_nil (img : list Z) (d : Z) : splice img d [] = img.
Proof. exact (f_equal data (append_nil (Memstream 0 d img))). Qed.

Lemma in_image_splice (img : list Z) (d : Z) (px : list Z) (n m : nat) :
  in_image img d n -> (length px + m <= n)%nat ->
  in_image (splice img d px) (d + Z.of_nat (length px)) m.
Proof.
  intros H Hle. exact (append_room (Memstream 0 d img) px n m H Hle).
Qed.

Lemma in_image_le (img : list Z) (d : Z) (n m : nat) :
  in_image img d n -> (m <= n)%nat -> in_image img d m.
Proof. intros [H0 H1] H. split; lia. Qed.

Lemma nibble_u8 (a : Z) : u8 (Z.land a 15) = Z.land a 15.
Proof.
  apply u8_byte. unfold is_byte. change 15 with (Z.ones 4).
  rewrite Z.land_ones by lia.
  pose proof (Z.mod_pos_bound a (2 ^ 4) ltac:(lia)). lia.
Qed.

Lemma store_pair_ok (tv : Z) (st : state) :
  in_image (img st) (dst st) 2 ->
  store_pair tv st
  = Ok (State (src st) (dst st + 2) (x st + 2)
              (splice (img st) (dst st) (unpack_byte tv))).
Proof.
  intros [H0 H1]. unfold store_pair.
  set (d := Z.to_nat (dst st)).
  assert (Hsplit : img st = take d (img st)
                            ++ drop d (img st)) by (symmetry; apply take_drop).
  destruct (drop d (img st)) as [|o1 [|o2 post]] eqn:Hd;
    try (apply (f_equal length) in Hd; rewrite length_drop in Hd;
         simpl in Hd; lia).
  assert (Hpre : length (take d (img st)) = d)
    by (apply length_take_le; lia).
  rewrite Hsplit at 1.
  rewrite (poke_app (take d (img st)) (o2 :: post) (dst st) o1) by lia.
  cbn [mbind result_bind].
  replace (take d (img st) ++ u8 (Z.land (tv ≫ 4) 15) :: o2 :: post)
    with ((take d (img st) ++ [u8 (Z.land (tv ≫ 4) 15)]) ++ o2 :: post)
    by (rewrite <- app_assoc; reflexivity).
  rewrite (poke_app _ post (dst st + 1) o2)
    by (rewrite length_app, Hpre; simpl; lia).
  cbn [mbind result_bind]. rewrite !nibble_u8.
  f_equal. f_equal. unfold splice, unpack_byte. fold d.
  rewrite <- app_assoc. cbn [app length]. do 3 f_equal.
  replace (d + 2)%nat with (S (S d)) by lia.
  pose proof (drop_drop (img st) 2 d) as E. rewrite Hd in E.
  replace (d + 2)%nat with (S (S d)) in E by lia.
  rewrite <- E. reflexivity.
Qed.

Lemma store_pair_out (tv : Z) (st : state) :
  ~ in_image (img st) (dst st) 2 -> store_pair tv st = OutOfBounds.
Proof.
  intros H. unfold store_pair, in_image in *.
  destruct (poke (img st) (dst st) _) as [i| | | |] eqn:Hp;
    try reflexivity.
  - unfold poke in Hp.
    destruct (Z.leb_spec 0 (dst st));
      destruct (Z.ltb_spec (dst st) (Z.of_nat (length (img st))));
      try discriminate.
    injection Hp as <-. cbn [mbind result_bind].
    rewrite poke_out; [reflexivity|]. rewrite length_insert. lia.
  - unfold poke in Hp. destruct (_ && _); discriminate.
  - unfold poke in Hp. destruct (_ && _); discriminate.
  - unfold poke in Hp. destruct (_ && _); discriminate.
Qed.

Lemma repeat_loop_ok (n : nat) (tv : Z) : forall st,
  in_image (img st) (dst st) (2 * n) ->
  repeat_loop n tv st
  = Ok (State (src st) (dst st + Z.of_nat (2 * n)) (x st + Z.of_nat (2 * n))
              (splice (img st) (dst st) (unpack (replicate n tv)))).
Proof.
  induction n as [|n IH]; intros st Hin.
  - simpl. rewrite splice_nil. destruct st. cbn. do 2 f_equal; lia.
  - cbn [repeat_loop].
    rewrite store_pair_ok by (apply (in_image_le _ _ _ _ Hin); lia).
    cbn [mbind result_bind]. rewrite IH; cbn [src dst x img].
    + f_equal. f_equal; try lia.
      change (dst st + 2) with (dst st + Z.of_nat (length (unpack_byte tv))).
      rewrite splice_splice by (apply (in_image_le _ _ _ _ Hin); simpl; lia).
      reflexivity.
    + change (dst st + 2) with (dst st + Z.of_nat (length (unpack_byte tv))).
      apply (in_image_splice _ _ _ _ _ Hin). simpl. lia.
Qed.

Lemma repeat_loop_out (n : nat) (tv : Z) : forall st,
  (1 <= n)%nat ->
  ~ in_image (img st) (dst st) (2 * n) ->
  repeat_loop n tv st = OutOfBounds.
Proof.
  induction n as [|n IH]; intros st Hn Hout; [lia|].
  cbn [repeat_loop].
  destruct (in_image_cases (img st) (dst st) 2) as [Hin|Hno].
  - rewrite store_pair_ok by exact Hin. cbn [mbind result_bind].
    apply IH; cbn [src dst x img].
    + destruct n; [|lia]. exfalso. apply Hout. exact Hin.
    + intros [H0 H1]. apply Hout.
      change (dst st + 2) with (dst st + Z.of_nat (length (unpack_byte tv)))
        in H1.
      rewrite splice_length in H1 by exact Hin.
      destruct Hin. split; simpl length in *; lia.
  - rewrite store_pair_out by exact Hno. reflexivity.
Qed.

Lemma get_ok (st : state) (b : Z) (rest : list Z) :
  mem_at (data (src st)) (pos (src st)) = b :: rest ->
  get st
  = Ok (b, State (Memstream (len (src st)) (pos (src st) + 1) (data (src st)))
                 (dst st) (x st) (img st)).
Proof.
  intros H. apply mem_at_cons in H as [Hpk _]. unfold get.
  rewrite Hpk. reflexivity.
Qed.

Lemma get_out (st : state) :
  mem_at (data (src st)) (pos (src st)) = [] -> get st = OutOfBounds.
Proof.
  unfold mem_at, get, peek. destruct (0 <=? pos (src st)); [|reflexivity].
  intros H. apply drop_nil_inv in H.
  rewrite (lookup_ge_None_2 _ _ H). reflexivity.
Qed.

Lemma literal_loop_ok (n : nat) : forall st bytes rest,
  mem_at (data (src st)) (pos (src st)) = bytes ++ rest ->
  length bytes = n ->
  in_image (img st) (dst st) (2 * n) ->
  literal_loop n st
  = Ok (State (Memstream (len (src st)) (pos (src st) + Z.of_nat n)
                 (data (src st)))
              (dst st + Z.of_nat (2 * n)) (x st + Z.of_nat (2 * n))
              (splice (img st) (dst st) (unpack bytes))).
Proof.
  induction n as [|n IH]; intros st bytes rest Hm Hl Hin.
  - destruct bytes; [|discriminate]. simpl. rewrite splice_nil.
    destruct st as [[l p d] ds xs im]. cbn. do 3 f_equal; lia.
  - destruct bytes as [|b bytes]; [discriminate|].
    cbn [literal_loop]. simpl in Hm.
    rewrite (get_ok st b (bytes ++ rest) Hm). cbn [mbind result_bind].
    rewrite store_pair_ok
      by (cbn [img dst]; apply (in_image_le _ _ _ _ Hin); lia).
    cbn [mbind result_bind src dst x img].
    apply mem_at_cons in Hm as [_ Hm].
    rewrite (IH _ bytes rest); cbn [src dst x img len pos data].
    + f_equal. f_equal; try (f_equal; lia); try lia.
      change (dst st + 2) with (dst st + Z.of_nat (length (unpack_byte b))).
      rewrite splice_splice by (apply (in_image_le _ _ _ _ Hin); simpl; lia).
      reflexivity.
    + exact Hm.
    + simpl in Hl. lia.
    + change (dst st + 2) with (dst st + Z.of_nat (length (unpack_byte b))).
      apply (in_image_splice _ _ _ _ _ Hin). simpl. lia.
Qed.

Lemma literal_loop_out (n : nat) : forall st bytes rest,
  mem_at (data (src st)) (pos (src st)) = bytes ++ rest ->
  length bytes = n -> (1 <= n)%nat ->
  ~ in_image (img st) (dst st) (2 * n) ->
  literal_loop n st = OutOfBounds.
Proof.
  induction n as [|n IH]; intros st bytes rest Hm Hl Hn Hout; [lia|].
  destruct bytes as [|b bytes]; [discriminate|].
  cbn [literal_loop]. simpl in Hm.
  rewrite (get_ok st b (bytes ++ rest) Hm). cbn [mbind result_bind].
  apply mem_at_cons in Hm as [_ Hm].
  destruct (in_image_cases (img st) (dst st) 2) as [Hin|Hno].
  - rewrite store_pair_ok by (cbn [img dst]; exact Hin).
    cbn [mbind result_bind src dst x img].
    apply (IH _ bytes rest); cbn [src dst x img len pos data].
    + exact Hm.
    + simpl in Hl. lia.
    + destruct n; [|lia]. exfalso. apply Hout. exact Hin.
    + intros [H0 H1]. apply Hout.
      change (dst st + 2) with (dst st + Z.of_nat (length (unpack_byte b)))
        in H1.
      rewrite splice_length in H1 by exact Hin.
      destruct Hin. split; simpl length in *; lia.
  - rewrite store_pair_out by (cbn [img dst]; exact Hno). reflexivity.
Qed.

(** A literal token that asks for more bytes than the stream has left
    ends in a read past the stream, or in a store outside the image
    before that. *)
Lemma literal_loop_short (n : nat) : forall st,
  (length (mem_at (data (src st)) (pos (src st))) < n)%nat ->
  literal_loop n st = OutOfBounds.
Proof.
  induction n as [|n IH]; intros st Hlt; [lia|].
  cbn [literal_loop].
  destruct (mem_at (data (src st)) (pos (src st))) as [|b rest] eqn:Hm.
  - rewrite get_out by exact Hm. reflexivity.
  - rewrite (get_ok st b rest Hm). cbn [mbind result_bind].
    apply mem_at_cons in Hm as [_ Hm].
    destruct (in_image_cases (img st) (dst st) 2) as [Hin|Hno].
    + rewrite store_pair_ok by (cbn [img dst]; exact Hin).
      cbn [mbind result_bind]. apply IH. cbn [src data pos].
      rewrite Hm. simpl in Hlt. lia.
    + rewrite store_pair_out by (cbn [img dst]; exact Hno). reflexivity.
Qed.

End Stores.

(** ** Packing and unpacking *)

Section PackUnpack.

Import Bmp2ega.

(** C9. For an even number of pixels in [0,15], the encoder's in-place
    packing loop leaves the packed bytes (left pixel in the high nibble,
    right pixel in the low nibble) at the front of the buffer;
    unpacking them gives the pixels back, and so does the decoder's
    literal loop, which stores the two nibbles of each packed byte it
    reads. *)
Theorem unpack_pack_pixels (pixels : list Z) :
  Nat.Even (length pixels) -> Forall is_pixel pixels ->
  exists packed,
    pack_pixels (loaded pixels) = Ok packed /\
    take (length pixels / 2) packed = pack pixels /\
    unpack (take (length pixels / 2) packed) = pixels /\
    forall (st : Ega2bmp.state) (rest : list Z),
      mem_at (data (Ega2bmp.src st)) (pos (Ega2bmp.src st))
      = take (length pixels / 2) packed ++ rest ->
      in_image (Ega2bmp.img st) (Ega2bmp.dst st) (length pixels) ->
      Ega2bmp.literal_loop (length pixels / 2) st
      = Ok (Ega2bmp.State
              (Memstream (len (Ega2bmp.src st))
                 (pos (Ega2bmp.src st) + Z.of_nat (length pixels / 2))
                 (data (Ega2bmp.src st)))
              (Ega2bmp.dst st + Z.of_nat (length pixels))
              (Ega2bmp.x st + Z.of_nat (length pixels))
              (splice (Ega2bmp.img st) (Ega2bmp.dst st) pixels)).
Proof.
  intros He Hpx. exists (pack pixels ++ drop (length pixels / 2) pixels).
  split; [apply pack_pixels_inplace; assumption|].
  assert (Hl : length (pack pixels) = (length pixels / 2)%nat).
  { pose proof (pack_length pixels He) as H. rewrite <- H.
    rewrite Nat.mul_comm, Nat.div_mul by lia. reflexivity. }
  assert (Ht : take (length pixels / 2)
                 (pack pixels ++ drop (length pixels / 2) pixels)
               = pack pixels).
  { rewrite <- Hl. apply take_app_length. }
  assert (H2 : (2 * (length pixels / 2) = length pixels)%nat).
  { rewrite <- Hl. apply pack_length. exact He. }
  split; [exact Ht|]. rewrite Ht.
  split; [apply unpack_pack; assumption|].
  intros st rest Hm Hin.
  rewrite (literal_loop_ok (length pixels / 2) st (pack pixels) rest Hm Hl)
    by (rewrite H2; exact Hin).
  rewrite H2, unpack_pack by assumption. reflexivity.
Qed.

Lemma unpack_pack_pixels_witness :
  exists packed,
    pack_pixels (loaded [1; 2; 15; 0; 9; 9]) = Ok packed /\
    take (length [1; 2; 15; 0; 9; 9] / 2) packed = pack [1; 2; 15; 0; 9; 9] /\
    unpack (take (length [1; 2; 15; 0; 9; 9] / 2) packed)
    = [1; 2; 15; 0; 9; 9] /\
    Ega2bmp.literal_loop 3
      (Ega2bmp.State (Memstream 3 0 [18; 240; 153]) 0 0 (calloc 6))
    = Ok (Ega2bmp.State (Memstream 3 3 [18; 240; 153]) 6 6
            [1; 2; 15; 0; 9; 9]).
Proof.
  destruct (unpack_pack_pixels [1; 2; 15; 0; 9; 9])
    as (packed & H1 & H2 & H3 & H4).
  - exists 3%nat. reflexivity.
  - repeat constructor; unfold is_pixel; lia.
  - exists packed. split; [exact H1|]. split; [exact H2|].
    split; [exact H3|].
    apply (H4 (Ega2bmp.State (Memstream 3 0 [18; 240; 153]) 0 0 (calloc 6))
              []).
    + rewrite H2. reflexivity.
    + unfold in_image. simpl. lia.
Defined.

End PackUnpack.

(** ** The decoding loop, token by token *)

Section DecodeLoop.

Import Ega2bmp.

Lemma parse_tokens_cons_inv (c : Z) (rest : list Z) (t : token)
      (ts : list token) :
  parse_tokens (c :: rest) = Some (t :: ts) ->
  (Z.testbit c 7 = true /\
   exists v s,
     rest = v :: s /\
     t = Repeat (Z.to_nat (Z.land c 127 + 3)) v /\
     parse_tokens s = Some ts) \/
  (Z.testbit c 7 = false /\
   (Z.to_nat (c + 1) <= length rest)%nat /\
   t = Literal (take (Z.to_nat (c + 1)) rest) /\
   parse_tokens (drop (Z.to_nat (c + 1)) rest) = Some ts).
Proof.
  unfold parse_tokens. cbn [length]. rewrite parse_tokens_fuel_cons.
  destruct (Z.testbit c 7).
  - intros H. left. split; [reflexivity|].
    destruct rest as [|v s]; [discriminate|].
    rewrite (parse_tokens_fuel_irrelevant (length (v :: s)) (length s) s)
      in H by (simpl; lia).
    destruct (parse_tokens_fuel (length s) s) as [ts'|] eqn:E;
      [|discriminate].
    cbn in H. injection H as <- <-. exists v, s. auto.
  - intros H. right. split; [reflexivity|].
    destruct (Nat.leb_spec (Z.to_nat (c + 1)) (length rest)) as [Hle|];
      [|discriminate].
    split; [exact Hle|].
    rewrite (parse_tokens_fuel_irrelevant (length rest)
               (length (drop (Z.to_nat (c + 1)) rest))) in H
      by (rewrite ?length_drop; lia).
    destruct (parse_tokens_fuel _ (drop _ rest)) as [ts'|] eqn:E;
      [|discriminate].
    cbn in H. injection H as <- <-. auto.
Qed.

Lemma parse_tokens_nil_inv (s : list Z) :
  parse_tokens s = Some [] -> s = [].
Proof.
  destruct s as [|c rest]; [reflexivity|].
  unfold parse_tokens. cbn [length]. rewrite parse_tokens_fuel_cons.
  destruct (Z.testbit c 7).
  - destruct rest; [discriminate|].
    destruct (parse_tokens_fuel _ _); discriminate.
  - destruct (_ <=? _)%nat; [|discriminate].
    destruct (parse_tokens_fuel _ _); discriminate.
Qed.

Lemma mem_at_elem (buf : list Z) (p c : Z) (rest : list Z) :
  mem_at buf p = c :: rest -> c ∈ buf.
Proof.
  intros H. apply mem_at_cons in H as [H _]. unfold peek in H.
  destruct (0 <=? p); [|discriminate].
  destruct (buf !! Z.to_nat p) as [b|] eqn:Hb; [|discriminate].
  injection H as ->. apply list_elem_of_lookup. eauto.
Qed.

Lemma mem_at_length (buf : list Z) (p : Z) :
  0 <= p ->
  Z.of_nat (length (mem_at buf p)) = Z.max 0 (Z.of_nat (length buf) - p).
Proof.
  intros Hp. unfold mem_at. destruct (Z.leb_spec 0 p); [|lia].
  rewrite length_drop. lia.
Qed.

Lemma decode_token_repeat (width : Z) (st : state) (c v : Z) (s : list Z) :
  128 <= c < 256 ->
  mem_at (data (src st)) (pos (src st)) = c :: v :: s ->
  decode_token width st
  = match lay_token width (Repeat (Z.to_nat (Z.land c 127 + 3)) v)
                    (dst st, x st, img st) with
    | Some (d, x', i) =>
        Ok (State (Memstream (len (src st)) (pos (src st) + 2)
                     (data (src st))) d x' i)
    | None => OutOfBounds
    end.
Proof.
  intros Hc Hm. destruct (control_repeat c Hc) as [_ Hland].
  unfold decode_token. rewrite (get_ok st c (v :: s) Hm).
  cbn [mbind result_bind].
  destruct (Z.geb_spec c 128); [|lia].
  rewrite Hland. rewrite u8_byte by (unfold is_byte; lia).
  apply mem_at_cons in Hm as [_ Hm].
  rewrite (get_ok _ v s) by (cbn [src data pos]; exact Hm).
  cbn [mbind result_bind src len pos data dst x img].
  set (n := Z.to_nat (c - 128 + 3)).
  unfold lay_token. cbn [expand].
  rewrite unpack_length, length_replicate.
  destruct (in_image_cases (img st) (dst st) (2 * n)) as [Hin|Hno].
  - rewrite in_image_b_true by exact Hin.
    rewrite repeat_loop_ok by (cbn [img dst]; exact Hin).
    cbn [mbind result_bind src dst x img].
    replace (pos (src st) + 1 + 1) with (pos (src st) + 2) by lia.
    destruct (x st + Z.of_nat (2 * n) >=? width); reflexivity.
  - rewrite in_image_b_false by exact Hno.
    rewrite repeat_loop_out; [reflexivity|unfold n; lia|exact Hno].
Qed.

Lemma decode_token_literal (width : Z) (st : state) (c : Z)
      (bytes rest : list Z) :
  0 <= c < 128 ->
  length bytes = Z.to_nat (c + 1) ->
  mem_at (data (src st)) (pos (src st)) = c :: bytes ++ rest ->
  decode_token width st
  = match lay_token width (Literal bytes) (dst st, x st, img st) with
    | Some (d, x', i) =>
        Ok (State (Memstream (len (src st))
                     (pos (src st) + (1 + Z.of_nat (length bytes)))
                     (data (src st))) d x' i)
    | None => OutOfBounds
    end.
Proof.
  intros Hc Hl Hm.
  unfold decode_token. rewrite (get_ok st c (bytes ++ rest) Hm).
  cbn [mbind result_bind].
  destruct (Z.geb_spec c 128); [lia|].
  rewrite u8_byte by (unfold is_byte; lia).
  apply mem_at_cons in Hm as [_ Hm].
  unfold lay_token. cbn [expand]. rewrite unpack_length.
  rewrite <- Hl.
  destruct (in_image_cases (img st) (dst st) (2 * length bytes))
    as [Hin|Hno].
  - rewrite in_image_b_true by exact Hin.
    rewrite (literal_loop_ok (length bytes) _ bytes rest);
      cbn [src data pos len dst x img];
      [|exact Hm|reflexivity|exact Hin].
    cbn [mbind result_bind src dst x img].
    replace (pos (src st) + 1 + Z.of_nat (length bytes))
      with (pos (src st) + (1 + Z.of_nat (length bytes))) by lia.
    destruct (x st + Z.of_nat (2 * length bytes) >=? width); reflexivity.
  - rewrite in_image_b_false by exact Hno.
    rewrite (literal_loop_out (length bytes) _ bytes rest);
      cbn [src data pos len dst x img];
      [reflexivity|exact Hm|reflexivity|lia|exact Hno].
Qed.

(** One turn of the loop does to the image what [lay_token] says of the
    token at the read position, and leaves the read position at the
    next token. *)
Lemma decode_token_lay (width : Z) (st : state) (t : token)
      (ts : list token) :
  Forall is_byte (data (src st)) ->
  parse_tokens (mem_at (data (src st)) (pos (src st))) = Some (t :: ts) ->
  decode_token width st
  = match lay_token width t (dst st, x st, img st) with
    | Some (d, x', i) =>
        Ok (State (Memstream (len (src st)) (pos (src st) + token_size t)
                     (data (src st))) d x' i)
    | None => OutOfBounds
    end /\
  parse_tokens (mem_at (data (src st)) (pos (src st) + token_size t))
  = Some ts /\
  1 < token_size t
    <= Z.of_nat (length (mem_at (data (src st)) (pos (src st)))).
Proof.
  intros Hb Hp.
  destruct (mem_at (data (src st)) (pos (src st))) as [|c rest] eqn:Hm;
    [discriminate|].
  assert (Hc : is_byte c).
  { rewrite Forall_forall in Hb. apply Hb. eapply mem_at_elem. exact Hm. }
  destruct (control_byte c Hc) as [Htb _].
  apply parse_tokens_cons_inv in Hp
    as [(Hbit & v & s & -> & -> & Hts)|(Hbit & Hle & -> & Hts)].
  - rewrite Hbit in Htb. symmetry in Htb. apply Z.geb_le in Htb.
    split; [|split].
    + apply (decode_token_repeat width st c v s); [unfold is_byte in Hc; lia|].
      exact Hm.
    + cbn [token_size].
      pose proof (mem_at_app _ _ [c; v] s Hm) as E. exact (eq_trans (f_equal parse_tokens E) Hts).
    + cbn [token_size]. simpl length. lia.
  - rewrite Hbit in Htb. symmetry in Htb.
    assert (Hlt : c < 128).
    { destruct (Z.geb_spec c 128); [discriminate|lia]. }
    rewrite <- (take_drop (Z.to_nat (c + 1)) rest) in Hm.
    assert (Hn : length (take (Z.to_nat (c + 1)) rest) = Z.to_nat (c + 1))
      by (apply length_take_le; exact Hle).
    split; [|split].
    + apply (decode_token_literal width st c _
               (drop (Z.to_nat (c + 1)) rest));
        [unfold is_byte in Hc; lia|exact Hn|exact Hm].
    + cbn [token_size].
      pose proof (mem_at_app _ _ (c :: take (Z.to_nat (c + 1)) rest)
                    (drop (Z.to_nat (c + 1)) rest) Hm) as E.
      simpl length in E.
      replace (pos (src st) + (1 + Z.of_nat (length (take (Z.to_nat (c + 1)) rest))))
        with (pos (src st) + Z.of_nat (S (length (take (Z.to_nat (c + 1)) rest))))
        by lia.
      rewrite E. exact Hts.
    + cbn [token_size]. rewrite Hn. simpl length.
      unfold is_byte in Hc. lia.
Qed.

End DecodeLoop.

(** ** The decoding loop, to the end of the stream *)

Section DecodeStream.

Import Ega2bmp.

Lemma decode_loop_unfold (fuel : nat) (width : Z) (st : state) :
  decode_loop fuel width st
  = if pos (src st) <? len (src st) then
      match fuel with
      | O => OutOfFuel
      | S fuel' => st ← decode_token width st; decode_loop fuel' width st
      end
    else Ok st.
Proof. destruct fuel; reflexivity. Qed.

Lemma decode_loop_lay (width : Z) (ts : list token) : forall fuel st,
  Forall is_byte (data (src st)) ->
  len (src st) = Z.of_nat (length (data (src st))) ->
  0 <= pos (src st) <= len (src st) ->
  parse_tokens (mem_at (data (src st)) (pos (src st))) = Some ts ->
  (length (mem_at (data (src st)) (pos (src st))) <= fuel)%nat ->
  decode_loop fuel width st
  = finished (src st) (lay width ts (dst st, x st, img st)).
Proof.
  induction ts as [|t ts IH]; intros fuel st Hb Hlen Hpos Hp Hf.
  - apply parse_tokens_nil_inv in Hp.
    pose proof (mem_at_length (data (src st)) (pos (src st)) ltac:(lia))
      as Hl.
    rewrite Hp in Hl. simpl length in Hl.
    rewrite decode_loop_unfold.
    destruct (Z.ltb_spec (pos (src st)) (len (src st))); [lia|].
    destruct st as [[l p d] ds xs im]. cbn in *.
    replace p with l by lia. reflexivity.
  - destruct (decode_token_lay width st t ts Hb Hp) as (Htok & Hrest & Hsz).
    pose proof (mem_at_length (data (src st)) (pos (src st)) ltac:(lia))
      as Hl.
    rewrite decode_loop_unfold.
    destruct (Z.ltb_spec (pos (src st)) (len (src st))); [|lia].
    destruct fuel as [|fuel]; [lia|].
    rewrite Htok. cbn [lay].
    destruct (lay_token width t (dst st, x st, img st)) as [[[d x'] i]|];
      [|reflexivity].
    cbn [mbind result_bind option_bind].
    rewrite IH; cbn [src dst x img len pos data]; try assumption.
    + reflexivity.
    + lia.
    + pose proof (mem_at_length (data (src st))
                    (pos (src st) + token_size t) ltac:(lia)) as Hl'.
      lia.
Qed.

Lemma peek_no_err (buf : list Z) (i : Z) : no_err (peek buf i).
Proof.
  intros e. unfold peek. destruct (0 <=? i); [|discriminate].
  destruct (buf !! Z.to_nat i); discriminate.
Qed.

Lemma poke_no_err (buf : list Z) (i b : Z) : no_err (poke buf i b).
Proof. intros e. unfold poke. destruct (_ && _); discriminate. Qed.

Lemma bind_no_err {A B : Type} (m : result A) (k : A -> result B) :
  no_err m -> (forall a, no_err (k a)) -> no_err (m ≫= k).
Proof.
  intros Hm Hk e. destruct m as [a|e'| | |]; cbn.
  - apply Hk.
  - exfalso. exact (Hm e' eq_refl).
  - discriminate.
  - discriminate.
  - discriminate.
Qed.

Lemma ok_no_err {A : Type} (a : A) : no_err (Ok a).
Proof. intros e. discriminate. Qed.

Lemma get_no_err (st : state) : no_err (get st).
Proof.
  unfold get. apply bind_no_err; [apply peek_no_err|].
  intros b. apply ok_no_err.
Qed.

Lemma store_pair_no_err (tv : Z) (st : state) : no_err (store_pair tv st).
Proof.
  unfold store_pair. apply bind_no_err; [apply poke_no_err|]. intros i.
  apply bind_no_err; [apply poke_no_err|]. intros i'. apply ok_no_err.
Qed.

Lemma repeat_loop_no_err (n : nat) (tv : Z) : forall st,
  no_err (repeat_loop n tv st).
Proof.
  induction n as [|n IH]; intros st; [apply ok_no_err|].
  cbn [repeat_loop]. apply bind_no_err; [apply store_pair_no_err|exact IH].
Qed.

Lemma literal_loop_no_err (n : nat) : forall st, no_err (literal_loop n st).
Proof.
  induction n as [|n IH]; intros st; [apply ok_no_err|].
  cbn [literal_loop]. apply bind_no_err; [apply get_no_err|].
  intros [tv st']. apply bind_no_err; [apply store_pair_no_err|exact IH].
Qed.

Lemma decode_token_no_err (width : Z) (st : state) :
  no_err (decode_token width st).
Proof.
  unfold decode_token. apply bind_no_err; [apply get_no_err|].
  intros [tc st']. apply bind_no_err.
  - destruct (tc >=? 128).
    + apply bind_no_err; [apply get_no_err|]. intros [tv st''].
      apply repeat_loop_no_err.
    + apply literal_loop_no_err.
  - intros st''. destruct (x st'' >=? width); apply ok_no_err.
Qed.

Lemma decode_loop_no_err (fuel : nat) (width : Z) : forall st,
  no_err (decode_loop fuel width st).
Proof.
  induction fuel as [|fuel IH]; intros st; rewrite decode_loop_unfold;
    destruct (pos (src st) <? len (src st)); try apply ok_no_err.
  - intros e. discriminate.
  - apply bind_no_err; [apply decode_token_no_err|exact IH].
Qed.

Lemma main_no_err (file : list Z) : no_err (main file).
Proof.
  unfold main. apply bind_no_err.
  - unfold read_header, peek16.
    repeat (apply bind_no_err; [try apply peek_no_err|intros ?]);
      apply ok_no_err.
  - intros [w h]. apply bind_no_err.
    + unfold alloc. destruct (_ >? _); intros e; discriminate.
    + intros img. apply bind_no_err; [apply decode_loop_no_err|].
      intros st. apply ok_no_err.
Qed.

(** C2. When the stream from the read position on is a sequence of
    tokens (a control byte with the high bit set and a value byte, for
    the value repeated (code & 0x7F) + 3 times; or a control byte and
    the next code + 1 bytes, as they are), the loop reads them one after
    the other until the stream is used up, and stores what each token
    stands for, two pixels per byte, at the write pointer. *)
Theorem decode_loop_tokens (width : Z) (st : state) (ts : list token) :
  Forall is_byte (data (src st)) ->
  len (src st) = Z.of_nat (length (data (src st))) ->
  0 <= pos (src st) <= len (src st) ->
  parse_tokens (mem_at (data (src st)) (pos (src st))) = Some ts ->
  decode_loop (length (data (src st))) width st
  = finished (src st) (lay width ts (dst st, x st, img st)).
Proof.
  intros Hb Hlen Hpos Hp. apply decode_loop_lay; try assumption.
  pose proof (mem_at_length (data (src st)) (pos (src st)) ltac:(lia)). lia.
Qed.

Lemma decode_loop_tokens_witness :
  decode_loop (length [3; 0; 1; 0; 129; 18; 1; 52; 86])
              4 (State (Memstream 9 4 [3; 0; 1; 0; 129; 18; 1; 52; 86])
                       8 0 (calloc 16))
  = finished (Memstream 9 4 [3; 0; 1; 0; 129; 18; 1; 52; 86])
             (lay 4 [Repeat 4 18; Literal [52; 86]] (8, 0, calloc 16)).
Proof.
  apply (decode_loop_tokens 4
           (State (Memstream 9 4 [3; 0; 1; 0; 129; 18; 1; 52; 86])
                  8 0 (calloc 16))
           [Repeat 4 18; Literal [52; 86]]).
  - repeat constructor; unfold is_byte; simpl; lia.
  - reflexivity.
  - simpl. lia.
  - reflexivity.
Defined.

End DecodeStream.

(** ** Malformed streams *)

Section Malformed.

Import Ega2bmp.

(** C3, as the claim words it, fails.  A literal token of three bytes
    in a line of two packed bytes is stored in full, over the line
    above, and the decoder ends without an error; a stream that stops
    after a repeat control byte makes it read past the stream. *)
Lemma malformed_input_counterexample :
  main [3; 0; 1; 0; 1; 18; 52; 2; 86; 120; 154]
  = Ok (4, 2, [5; 6; 7; 8; 9; 10; 3; 4]) /\
  main [3; 0; 1; 0; 1; 18; 52; 2; 86; 120; 154] <> Err CorruptStream /\
  main [3; 0; 1; 0; 1; 18; 52; 128] = OutOfBounds /\
  main [3; 0; 1; 0; 1; 18; 52; 128] <> Err UnexpectedEof.
Proof.
  repeat split; try (vm_compute; reflexivity); vm_compute; discriminate.
Qed.

(** C3, amended.  The decoder has no error results: it never ends in
    [UnexpectedEof], [CorruptStream] or [SizeMismatch].  A stream that
    ends right after a repeat control byte makes it read the value byte
    past the end of the input.  In a literal token with fewer bytes
    than its control byte declares the bytes that are there are read
    and stored and the next read is past the end of the input, unless
    one of their stores is outside the image.  A token, repeat or
    literal, that is longer than what is left of the line is stored in
    full, past the end of the line, when that is inside the image; the
    column is then set to 0 and the write pointer moved back two
    lines. *)
Theorem decoder_has_no_error_results :
  (forall file e, main file <> Err e) /\
  (forall fuel width st c,
      mem_at (data (src st)) (pos (src st)) = [c] ->
      128 <= c < 256 ->
      pos (src st) < len (src st) ->
      decode_loop (S fuel) width st = OutOfBounds /\
      exists st1, get st = Ok (c, st1) /\ get st1 = OutOfBounds) /\
  (forall fuel width st c rest,
      mem_at (data (src st)) (pos (src st)) = c :: rest ->
      0 <= c < 128 ->
      Z.of_nat (length rest) < c + 1 ->
      pos (src st) < len (src st) ->
      decode_loop (S fuel) width st = OutOfBounds /\
      exists st1,
        get st = Ok (c, st1) /\
        ((exists st2, literal_loop (length rest) st1 = Ok st2 /\
                      get st2 = OutOfBounds) \/
         (literal_loop (length rest) st1 = OutOfBounds /\
          ~ in_image (img st) (dst st) (2 * length rest)))) /\
  (forall width st c v rest,
      mem_at (data (src st)) (pos (src st)) = c :: v :: rest ->
      128 <= c < 256 ->
      width - x st < 2 * (Z.land c 127 + 3) ->
      in_image (img st) (dst st) (2 * Z.to_nat (Z.land c 127 + 3)) ->
      decode_token width st
      = Ok (State (Memstream (len (src st)) (pos (src st) + 2)
                     (data (src st)))
                  (dst st + 2 * (Z.land c 127 + 3) - 2 * width)
                  0
                  (splice (img st) (dst st)
                     (unpack (replicate (Z.to_nat (Z.land c 127 + 3)) v))))) /\
  (forall width st c bytes rest,
      mem_at (data (src st)) (pos (src st)) = c :: bytes ++ rest ->
      0 <= c < 128 ->
      Z.of_nat (length bytes) = c + 1 ->
      width - x st < 2 * (c + 1) ->
      in_image (img st) (dst st) (2 * length bytes) ->
      decode_token width st
      = Ok (State (Memstream (len (src st)) (pos (src st) + 1 + (c + 1))
                     (data (src st)))
                  (dst st + 2 * (c + 1) - 2 * width)
                  0
                  (splice (img st) (dst st) (unpack bytes)))).
Proof.
  split; [|split; [|split; [|split]]].
  - intros file e. apply main_no_err.
  - intros fuel width st c Hm Hc Hpos.
    pose proof (get_ok st c [] Hm) as Hg.
    apply mem_at_cons in Hm as [_ Hm].
    assert (Hg1 : get (State (Memstream (len (src st)) (pos (src st) + 1)
                               (data (src st)))
                             (dst st) (x st) (img st)) = OutOfBounds)
      by (apply get_out; cbn [src data pos]; exact Hm).
    split; [|eexists; split; [exact Hg|exact Hg1]].
    rewrite decode_loop_unfold.
    destruct (Z.ltb_spec (pos (src st)) (len (src st))); [|lia].
    unfold decode_token. rewrite Hg. cbn [mbind result_bind].
    destruct (Z.geb_spec c 128); [|lia].
    rewrite Hg1. reflexivity.
  - intros fuel width st c rest Hm Hc Hlen Hpos.
    pose proof (get_ok st c rest Hm) as Hg.
    apply mem_at_cons in Hm as [_ Hm].
    set (st1 := State (Memstream (len (src st)) (pos (src st) + 1)
                         (data (src st)))
                      (dst st) (x st) (img st)) in *.
    split.
    + rewrite decode_loop_unfold.
      destruct (Z.ltb_spec (pos (src st)) (len (src st))); [|lia].
      unfold decode_token. rewrite Hg. cbn [mbind result_bind].
      destruct (Z.geb_spec c 128); [lia|].
      rewrite u8_byte by (unfold is_byte; lia).
      rewrite literal_loop_short; [reflexivity|].
      fold st1. unfold st1. cbn [src data pos]. rewrite Hm. lia.
    + exists st1. split; [exact Hg|].
      assert (Hend : forall st2,
                 src st2 = Memstream (len (src st))
                             (pos (src st) + 1 + Z.of_nat (length rest))
                             (data (src st)) ->
                 get st2 = OutOfBounds).
      { intros st2 E. apply get_out. rewrite E. cbn [data pos].
        apply (mem_at_app _ _ rest []). rewrite app_nil_r. exact Hm. }
      destruct (in_image_cases (img st) (dst st) (2 * length rest))
        as [Hin|Hout].
      * left.
        assert (Hm1 : mem_at (data (src st1)) (pos (src st1)) = rest ++ [])
          by (rewrite app_nil_r; exact Hm).
        rewrite (literal_loop_ok (length rest) st1 rest [] Hm1 eq_refl Hin).
        eexists. split; [reflexivity|]. apply Hend. reflexivity.
      * destruct rest as [|b rest].
        -- left. exists st1. split; [reflexivity|].
           apply get_out. unfold st1. cbn [src data pos]. exact Hm.
        -- right. split; [|exact Hout].
           apply (literal_loop_out (length (b :: rest)) st1 (b :: rest) []);
             [rewrite app_nil_r; exact Hm|reflexivity|simpl; lia|exact Hout].
  - intros width st c v rest Hm Hc Hover Hin.
    rewrite (decode_token_repeat width st c v rest Hc Hm).
    assert (H0 : 0 <= Z.land c 127) by (apply Z.land_nonneg; lia).
    unfold lay_token. cbn [expand]. rewrite unpack_length, length_replicate.
    rewrite in_image_b_true by exact Hin.
    destruct (Z.geb_spec
                (x st + Z.of_nat (2 * Z.to_nat (Z.land c 127 + 3))) width);
      [|lia].
    do 2 f_equal. lia.
  - intros width st c bytes rest Hm Hc Hlen Hover Hin.
    rewrite (decode_token_literal width st c bytes rest Hc ltac:(lia) Hm).
    unfold lay_token. cbn [expand]. rewrite unpack_length.
    rewrite in_image_b_true by exact Hin.
    destruct (Z.geb_spec (x st + Z.of_nat (2 * length bytes)) width); [|lia].
    f_equal. f_equal; [f_equal; lia|lia].
Qed.

Lemma decoder_has_no_error_results_witness :
  main [3; 0; 1; 0; 1; 18; 52; 2; 86; 120; 154] <> Err CorruptStream /\
  decode_loop 1 4 (State (Memstream 8 7 [3; 0; 1; 0; 1; 18; 52; 128])
                         0 0 [0; 0; 0; 0; 1; 2; 3; 4])
  = OutOfBounds /\
  decode_loop 1 4 (State (Memstream 9 7 [3; 0; 1; 0; 1; 18; 52; 1; 86])
                         0 0 [0; 0; 0; 0; 1; 2; 3; 4])
  = OutOfBounds /\
  decode_token 4 (State (Memstream 9 7 [3; 0; 1; 0; 1; 18; 52; 129; 86])
                        0 0 [0; 0; 0; 0; 1; 2; 3; 4])
  = Ok (State (Memstream 9 (7 + 2) [3; 0; 1; 0; 1; 18; 52; 129; 86])
              (0 + 2 * (Z.land 129 127 + 3) - 2 * 4)
              0
              (splice [0; 0; 0; 0; 1; 2; 3; 4] 0
                 (unpack (replicate (Z.to_nat (Z.land 129 127 + 3)) 86)))) /\
  decode_token 4 (State (Memstream 11 7
                           [3; 0; 1; 0; 1; 18; 52; 2; 86; 120; 154])
                        0 0 [0; 0; 0; 0; 1; 2; 3; 4])
  = Ok (State (Memstream 11 (7 + 1 + (2 + 1))
                 [3; 0; 1; 0; 1; 18; 52; 2; 86; 120; 154])
              (0 + 2 * (2 + 1) - 2 * 4)
              0
              (splice [0; 0; 0; 0; 1; 2; 3; 4] 0 (unpack [86; 120; 154]))).
Proof.
  destruct decoder_has_no_error_results as (Hne & Hrep & Hlit & Hover & Hovl).
  split; [|split; [|split; [|split]]].
  - apply Hne.
  - apply (Hrep 0%nat 4
             (State (Memstream 8 7 [3; 0; 1; 0; 1; 18; 52; 128])
                    0 0 [0; 0; 0; 0; 1; 2; 3; 4]) 128).
    + reflexivity.
    + lia.
    + simpl. lia.
  - apply (Hlit 0%nat 4
             (State (Memstream 9 7 [3; 0; 1; 0; 1; 18; 52; 1; 86])
                    0 0 [0; 0; 0; 0; 1; 2; 3; 4]) 1 [86]).
    + reflexivity.
    + lia.
    + simpl. lia.
    + simpl. lia.
  - apply (Hover 4
             (State (Memstream 9 7 [3; 0; 1; 0; 1; 18; 52; 129; 86])
                    0 0 [0; 0; 0; 0; 1; 2; 3; 4]) 129 86 []).
    + reflexivity.
    + lia.
    + apply Z.ltb_lt. reflexivity.
    + split; apply Z.leb_le; reflexivity.
  - apply (Hovl 4
             (State (Memstream 11 7
                       [3; 0; 1; 0; 1; 18; 52; 2; 86; 120; 154])
                    0 0 [0; 0; 0; 0; 1; 2; 3; 4])
             2 [86; 120; 154] []).
    + reflexivity.
    + lia.
    + reflexivity.
    + simpl. lia.
    + unfold in_image. simpl. lia.
Defined.

End Malformed.

(** ** Runs of 131 and 132 bytes *)

Section LongRuns.

(** C1 does not hold of the code.  For a run of 131 bytes the run loop
    of the encoder leaves [rlen = 1] after its first token and writes
    the control byte (1 - 3) + 0x80 = 126, which is a literal token of
    127 bytes.  On the 262 by 1 image of pixels 0 the decoder then
    reads past the stream; on the 262 by 3 image [image_cba] every
    access is inside its buffer and the decoded image differs from the
    one encoded (pixel 257 is 1, and comes back as 2).  An 8 by 1 image
    does not fit the output buffer of [width * height] bytes. *)
Theorem roundtrip_fails_on_run_of_131 :
  Bmp2ega.main (Bmp2ega.loaded (replicate 262 0)) 262 1
  = Ok [5; 1; 0; 0; 255; 0; 126; 0] /\
  Ega2bmp.main [5; 1; 0; 0; 255; 0; 126; 0] = OutOfBounds /\
  (out ← Bmp2ega.main (Bmp2ega.loaded image_cba) 262 3;
   '(w, h, img') ← Ega2bmp.main out;
   Ok (w, h, bool_decide (img' = image_cba), img' !! 257%nat))
  = Ok (262, 3, false, Some 2) /\
  image_cba !! 257%nat = Some 1 /\
  Bmp2ega.main (Bmp2ega.loaded [0; 5; 0; 5; 0; 7; 0; 7]) 8 1 = OutOfBounds.
Proof. repeat split; vm_compute; reflexivity. Qed.

(** C7 does not hold of the code, for the same reason.  The line of 131
    bytes 0 is written as 255 0 126 0: read as tokens, that is a run of
    130 and a literal token of 127 bytes, which does not end with the
    line (the bytes do not even read as tokens on their own).  Followed
    by the encoding of [line_c], the literal token takes the value byte
    0 and 126 bytes of the next line's encoding, and what the tokens
    expand to is not the two lines. *)
Theorem line_of_131_crosses_boundary :
  encode_row line_b = Ok [255; 0; 126; 0] /\
  parse_tokens [255; 0; 126; 0] = None /\
  (c ← encode_row line_c;
   Ok (match parse_tokens ([255; 0; 126; 0] ++ c) with
       | Some (Repeat 130 0 :: Literal lit :: ts) =>
           Some (length lit, take 2 lit,
                 length (expand_all (Repeat 130 0 :: Literal lit :: ts)),
                 bool_decide (expand_all (Repeat 130 0 :: Literal lit :: ts)
                              = line_b ++ line_c))
       | _ => None
       end))
  = Ok (Some (127%nat, [0; 127], 262%nat, false)) /\
  (out ← Bmp2ega.main (Bmp2ega.loaded (unpack (line_c ++ line_b))) 262 2;
   Ega2bmp.main out)
  = OutOfBounds.
Proof. repeat split; vm_compute; reflexivity. Qed.

End LongRuns.

(** ** What the run finder returns to the encoder *)

Section RunResults.

Import Bmp2ega.

Lemma find_run_window (buf : list Z) (len : Z) (n : nat) :
  (1 <= n)%nat -> u8 len <= Z.of_nat n ->
  find_run buf len = find_run (take n buf) len.
Proof.
  intros Hn Hlen. destruct n as [|n]; [lia|].
  destruct buf as [|lc rest]; [reflexivity|].
  cbn [take]. unfold find_run.
  apply find_run_loop_take. rewrite take_take. f_equal. lia.
Qed.

Lemma find_run_zero (buf : list Z) (len : Z) :
  buf <> [] -> u8 len = 0 -> find_run buf len = Ok (0, 1).
Proof.
  intros Hb H0. destruct buf as [|lc rest]; [congruence|].
  unfold find_run. rewrite H0. reflexivity.
Qed.

Lemma run_length_take_le (v : Z) (k : nat) : forall t,
  (run_length v (take k t) <= run_length v t)%nat.
Proof.
  induction k as [|k IH]; intros t; [simpl; lia|].
  destruct t as [|a t]; [simpl; lia|].
  simpl. destruct (a =? v); [|lia]. specialize (IH t). lia.
Qed.

Lemma has_run_take (n k : nat) : forall l,
  has_run n (take k l) = true -> has_run n l = true.
Proof.
  induction k as [|k IH]; intros l H; [discriminate|].
  destruct l as [|a t]; [discriminate|].
  cbn [take has_run] in *. apply orb_true_iff in H as [H|H].
  - apply Nat.leb_le in H. pose proof (run_length_take_le a k t).
    apply orb_true_iff. left. apply Nat.leb_le. lia.
  - apply orb_true_iff. right. apply IH. exact H.
Qed.

Lemma has_run_drop (n k : nat) : forall l,
  has_run n (drop k l) = true -> has_run n l = true.
Proof.
  induction k as [|k IH]; intros l H; [exact H|].
  destruct l as [|a t]; [discriminate|].
  cbn [drop] in H. cbn [has_run]. apply orb_true_iff. right.
  apply IH. exact H.
Qed.

Lemma has_run_le (n m : nat) : forall l,
  (n <= m)%nat -> has_run m l = true -> has_run n l = true.
Proof.
  induction l as [|a t IH]; intros Hle H; [discriminate|].
  cbn [has_run] in *. apply orb_true_iff in H as [H|H].
  - apply Nat.leb_le in H. apply orb_true_iff. left.
    apply Nat.leb_le. lia.
  - apply orb_true_iff. right. apply IH; assumption.
Qed.

Lemma first_run_has_run : forall (s : list Z) (n : nat) (p : Z),
  first_run s = (Z.of_nat n, p) -> (1 <= n)%nat -> has_run n s = true.
Proof.
  induction s as [|a t IH]; intros n p H Hn.
  - simpl in H. injection H as H _. lia.
  - destruct (starts_run3 (a :: t)) eqn:Hs.
    + change (first_run (a :: t)) with
        (if starts_run3 (a :: t)
         then (Z.of_nat (S (run_length a t)), 0)
         else let '(n, p) := first_run t in (n, p + 1)) in H.
      rewrite Hs in H. injection H as H _.
      apply Nat2Z.inj in H. subst n.
      cbn [has_run]. rewrite Nat.leb_refl. reflexivity.
    + rewrite first_run_step in H by exact Hs.
      destruct (first_run t) as [n' p'] eqn:Hfr.
      unfold shift_run in H. cbn [fst snd] in H. injection H as -> _.
      cbn [has_run]. rewrite (IH n p' eq_refl Hn). apply orb_true_r.
Qed.

(** The finder, called on what is left of a line, moves forward, and
    a run it returns is a run of the line. *)
Lemma find_run_result (row : list Z) :
  row <> [] ->
  exists len rpos : nat,
    find_run row (Z.of_nat (length row)) = Ok (Z.of_nat len, Z.of_nat rpos) /\
    (1 <= rpos + len <= length row)%nat /\
    ((len = 0)%nat \/
     ((3 <= len)%nat /\
      has_run len row = true /\
      exists v, take len (drop rpos row) = replicate len v)).
Proof.
  intros Hne.
  assert (Hlen : (1 <= length row)%nat)
    by (destruct row; [congruence|simpl; lia]).
  set (k := Z.to_nat (u8 (Z.of_nat (length row)))).
  assert (Hk : Z.of_nat k = u8 (Z.of_nat (length row)) /\ (k <= 255)%nat
               /\ (k <= length row)%nat).
  { unfold k, u8.
    pose proof (Z.mod_pos_bound (Z.of_nat (length row)) 256 ltac:(lia)).
    pose proof (Z.mod_le (Z.of_nat (length row)) 256 ltac:(lia) ltac:(lia)).
    lia. }
  destruct Hk as (Hku & Hk255 & Hkl).
  destruct k as [|k'] eqn:Ek.
  - exists 0%nat, 1%nat. split; [|split; [lia|left; reflexivity]].
    apply find_run_zero; [exact Hne|lia].
  - rewrite <- Ek in *.
    assert (Hfr : find_run row (Z.of_nat (length row))
                  = Ok (first_run (take k row))).
    { rewrite (find_run_window row _ k) by lia.
      assert (Hlk : length (take k row) = k) by (apply length_take_le; lia).
      rewrite <- (find_run_first_run (take k row)) by lia.
      rewrite Hlk. unfold find_run. rewrite Hku.
      unfold u8. rewrite Z.mod_mod by lia. reflexivity. }
    destruct (first_run_char (take k row)) as (n & p & Hfrc & Hcase).
    exists n, p. rewrite Hfr, Hfrc. split; [reflexivity|].
    assert (Hlk : length (take k row) = k) by (apply length_take_le; lia).
    destruct Hcase as [(_ & -> & ->)|(Hn & pre & v & post & Hs & Hp & _ & _)].
    + rewrite Hlk. split; [lia|]. left. reflexivity.
    + assert (Hpn : (p + n <= k)%nat).
      { rewrite <- Hlk, Hs, !length_app, length_replicate. lia. }
      split; [lia|]. right. split; [exact Hn|]. split.
      * apply (has_run_take n k). apply (first_run_has_run _ n (Z.of_nat p)).
        -- exact Hfrc.
        -- lia.
      * exists v.
        assert (E : take n (drop p (take k row)) = replicate n v).
        { rewrite Hs, <- Hp, drop_app_length.
          rewrite take_app_length'; [reflexivity|].
          rewrite length_replicate. reflexivity. }
        rewrite <- E. rewrite !take_drop_commute, take_take.
        f_equal. f_equal. lia.
Qed.

End RunResults.

(** ** The line loop of the encoder *)

Section EncodeLine.

Import Bmp2ega.

Lemma encode_line_unfold (fuel : nat) (img : list Z) (width x : Z)
      (st : state) :
  encode_line fuel img width x st
  = if x <? width then
      match fuel with
      | O => OutOfFuel
      | S fuel' =>
          '(x, st) ← encode_step img width x st;
          encode_line fuel' img width x st
      end
    else Ok st.
Proof. destruct fuel; reflexivity. Qed.

Lemma line_bytes_unfold (fuel : nat) (row : list Z) :
  row <> [] ->
  line_bytes (S fuel) row
  = match find_run row (Z.of_nat (length row)) with
    | Ok (len, rpos) =>
        (if rpos =? 0 then []
         else literal_bytes (S (Z.to_nat rpos)) (take (Z.to_nat rpos) row))
        ++ (if len =? 0 then []
            else run_bytes (S (Z.to_nat len)) len
                           (hd 0 (drop (Z.to_nat rpos) row)))
        ++ line_bytes fuel (drop (Z.to_nat len) (drop (Z.to_nat rpos) row))
    | _ => []
    end.
Proof. destruct row; [congruence|reflexivity]. Qed.

Lemma find_run_line (img : list Z) (p : Z) (row rest : list Z) :
  mem_at img p = row ++ rest -> row <> [] ->
  find_run (mem_at img p) (Z.of_nat (length row))
  = find_run row (Z.of_nat (length row)).
Proof.
  intros Hm Hne. rewrite Hm.
  rewrite (find_run_window (row ++ rest) _ (length row)).
  - rewrite take_app_length. reflexivity.
  - destruct row; [congruence|simpl; lia].
  - unfold u8. apply Z.mod_le; lia.
Qed.

Lemma encode_step_append (img : list Z) (width : Z) (st : state)
      (row rest : list Z) (len rpos : nat) :
  mem_at img (src st) = row ++ rest ->
  row <> [] ->
  Forall is_byte row ->
  find_run row (Z.of_nat (length row)) = Ok (Z.of_nat len, Z.of_nat rpos) ->
  (rpos + len <= length row)%nat ->
  ((len = 0)%nat \/
   ((3 <= len)%nat /\ exists v, take len (drop rpos row) = replicate len v)) ->
  room (dst st) (length (step_bytes row len rpos)) ->
  encode_step img width (width - Z.of_nat (length row)) st
  = Ok (width - Z.of_nat (length row) + Z.of_nat rpos + Z.of_nat len,
        State (src st + Z.of_nat rpos + Z.of_nat len)
              (append (dst st) (step_bytes row len rpos))).
Proof.
  intros Hm Hne Hb Hfr Hle Hrun Hroom.
  unfold encode_step.
  replace (width - (width - Z.of_nat (length row)))
    with (Z.of_nat (length row)) by lia.
  rewrite (find_run_line img (src st) row rest Hm Hne), Hfr.
  cbn [mbind result_bind].
  unfold step_bytes in *.
  set (lits := take rpos row) in *.
  assert (Hlits : length lits = rpos) by (apply length_take_le; lia).
  assert (Hm1 : mem_at img (src st) = lits ++ (drop rpos row ++ rest)).
  { rewrite Hm. unfold lits. rewrite app_assoc, take_drop. reflexivity. }
  (* the literal part *)
  assert (Hlit :
    exists st1,
      (if Z.of_nat rpos =? 0 then Ok (width - Z.of_nat (length row), st)
       else st' ← copy_literals (S (Z.to_nat (Z.of_nat rpos))) img
                     (Z.of_nat rpos) st;
            Ok (width - Z.of_nat (length row) + Z.of_nat rpos, st'))
      = Ok (width - Z.of_nat (length row) + Z.of_nat rpos, st1) /\
      st1 = State (src st + Z.of_nat rpos)
                  (append (dst st)
                     (if Z.of_nat rpos =? 0 then []
                      else literal_bytes (S rpos) lits))).
  { destruct (Z.eqb_spec (Z.of_nat rpos) 0) as [H0|H0].
    - eexists. split; [|reflexivity].
      rewrite append_nil, H0, !Z.add_0_r. destruct st; reflexivity.
    - eexists. split; [|reflexivity].
      rewrite Nat2Z.id. rewrite <- Hlits at 2 3.
      rewrite (copy_literals_append (S rpos) img st lits
                 (drop rpos row ++ rest)).
      + cbn [mbind result_bind]. rewrite Hlits. reflexivity.
      + exact Hm1.
      + lia.
      + apply Forall_take. exact Hb.
      + eapply room_le; [exact Hroom|]. rewrite length_app.
        destruct (Z.of_nat rpos =? 0) eqn:E; [apply Z.eqb_eq in E; lia|].
        lia. }
  destruct Hlit as (st1 & Hlit & Hst1). rewrite Hlit.
  cbn [mbind result_bind].
  destruct (Z.eqb_spec (Z.of_nat len) 0) as [H0|H0].
  - rewrite app_nil_r. subst st1. rewrite H0, !Z.add_0_r. reflexivity.
  - destruct Hrun as [->|(H3 & v & Hv)]; [lia|].
    assert (Hd : drop rpos row = replicate len v ++ drop len (drop rpos row)).
    { rewrite <- Hv. symmetry. apply take_drop. }
    assert (Hhd : hd 0 (drop rpos row) = v).
    { rewrite Hd. destruct len; [lia|]. reflexivity. }
    assert (Hv_byte : is_byte v).
    { rewrite Forall_forall in Hb. apply Hb.
      assert (Hin : v ∈ drop rpos row).
      { rewrite Hd. destruct len; [lia|]. simpl. left. }
      apply list_elem_of_In.
      apply list_elem_of_In in Hin.
      rewrite <- (take_drop rpos row). apply in_or_app. right. exact Hin. }
    assert (Hpk : peek img (src st1) = Ok v).
    { subst st1. cbn [src].
      pose proof (mem_at_app img (src st) lits _ Hm1) as E.
      rewrite Hlits, Hd in E. destruct len; [lia|]. simpl in E.
      apply mem_at_cons in E as [E _]. exact E. }
    rewrite Nat2Z.id, Hhd.
    rewrite (encode_run_append (S len) img st1 (Z.of_nat len) v).
    + cbn [mbind result_bind]. subst st1. unfold with_dst. cbn [src dst].
      rewrite append_append.
      * reflexivity.
      * eapply room_le; [exact Hroom|]. rewrite length_app. lia.
    + exact Hpk.
    + exact Hv_byte.
    + lia.
    + lia.
    + subst st1. cbn [dst].
      apply (append_room _ _ _ _ Hroom).
      rewrite length_app, Hhd. lia.
Qed.

(** The line loop writes [line_bytes]. *)
Lemma encode_line_append (fuel : nat) : forall img width st row rest,
  mem_at img (src st) = row ++ rest ->
  (length row <= fuel)%nat ->
  Forall is_byte row ->
  room (dst st) (length (line_bytes fuel row)) ->
  encode_line fuel img width (width - Z.of_nat (length row)) st
  = Ok (State (src st + Z.of_nat (length row))
              (append (dst st) (line_bytes fuel row))).
Proof.
  assert (Hnil : forall f0 img width st,
             encode_line f0 img width (width - Z.of_nat 0) st
             = Ok (State (src st + Z.of_nat 0)
                         (append (dst st) (line_bytes f0 [])))).
  { intros f0 img width st. rewrite encode_line_unfold.
    destruct (Z.ltb_spec (width - Z.of_nat 0) width); [lia|].
    replace (line_bytes f0 []) with (@nil Z) by (destruct f0; reflexivity).
    rewrite append_nil. destruct st. cbn [src dst]. do 2 f_equal. lia. }
  induction fuel as [|fuel IH]; intros img width st row rest Hm Hl Hb Hr.
  - destruct row; [apply Hnil|simpl in Hl; lia].
  - destruct row as [|r0 row']; [apply Hnil|].
    set (row := r0 :: row') in *.
    assert (Hne : row <> []) by discriminate.
    destruct (find_run_result row Hne)
      as (len & rpos & Hfr & Hprog & Hrun).
    set (next := drop len (drop rpos row)).
    assert (Hlb : line_bytes (S fuel) row
                  = step_bytes row len rpos ++ line_bytes fuel next).
    { rewrite line_bytes_unfold by exact Hne. rewrite Hfr, !Nat2Z.id.
      unfold step_bytes. rewrite <- app_assoc. reflexivity. }
    rewrite Hlb in *. rewrite length_app in Hr.
    rewrite encode_line_unfold.
    destruct (Z.ltb_spec (width - Z.of_nat (length row)) width);
      [|unfold row in *; simpl length in *; lia].
    assert (Hrun' : (len = 0)%nat \/
              ((3 <= len)%nat /\
               exists v, take len (drop rpos row) = replicate len v)).
    { destruct Hrun as [?|(? & _ & ?)]; [left|right]; auto. }
    rewrite (encode_step_append img width st row rest len rpos Hm Hne Hb
               Hfr ltac:(lia) Hrun' ltac:(eapply room_le; [exact Hr|lia])).
    cbn [mbind result_bind].
    assert (Hnl : length next = (length row - rpos - len)%nat).
    { unfold next. rewrite !length_drop. lia. }
    replace (width - Z.of_nat (length row) + Z.of_nat rpos + Z.of_nat len)
      with (width - Z.of_nat (length next)) by lia.
    rewrite (IH img width _ next rest); cbn [src dst].
    + f_equal. f_equal; [lia|].
      rewrite append_append by (eapply room_le; [exact Hr|lia]).
      reflexivity.
    + pose proof (mem_at_app img (src st) (take (rpos + len) row)
                    (next ++ rest)) as E.
      rewrite length_take_le in E by lia.
      replace (src st + Z.of_nat rpos + Z.of_nat len)
        with (src st + Z.of_nat (rpos + len)) by lia.
      apply E. rewrite Hm, app_assoc. f_equal.
      unfold next. rewrite drop_drop. symmetry. apply take_drop.
    + unfold row in *. simpl length in *. lia.
    + unfold next. apply Forall_drop, Forall_drop. exact Hb.
    + apply (append_room _ _ _ _ Hr). lia.
Qed.

End EncodeLine.

(** ** The tokens of a line *)

Section LineTokens.

Import Bmp2ega.

Lemma line_bytes_step (fuel : nat) (row : list Z) (len rpos : nat) :
  row <> [] ->
  find_run row (Z.of_nat (length row)) = Ok (Z.of_nat len, Z.of_nat rpos) ->
  line_bytes (S fuel) row
  = step_bytes row len rpos ++ line_bytes fuel (drop len (drop rpos row)).
Proof.
  intros Hne Hfr. rewrite line_bytes_unfold by exact Hne.
  rewrite Hfr, !Nat2Z.id. unfold step_bytes. rewrite <- app_assoc.
  reflexivity.
Qed.

Lemma has_run_false_drop (n k : nat) (l : list Z) :
  has_run n l = false -> has_run n (drop k l) = false.
Proof.
  intros H. destruct (has_run n (drop k l)) eqn:E; [|reflexivity].
  apply has_run_drop in E. congruence.
Qed.

Lemma step_bytes_tokens (row : list Z) (len rpos : nat)
      (tail : list Z) (tts : list token) :
  (rpos + len <= length row)%nat ->
  ((len = 0)%nat \/
   ((3 <= len <= 130)%nat /\
    exists v, take len (drop rpos row) = replicate len v)) ->
  parse_tokens tail = Some tts ->
  exists ts,
    parse_tokens (step_bytes row len rpos ++ tail) = Some (ts ++ tts) /\
    expand_all ts = take (rpos + len) row /\
    Forall (fun t => expand t <> []) ts.
Proof.
  intros Hle Hrun Ht. unfold step_bytes.
  (* the run, then the literals in front of it *)
  assert (Hr : exists ts2,
             parse_tokens
               ((if Z.of_nat len =? 0 then []
                 else run_bytes (S len) (Z.of_nat len)
                                (hd 0 (drop rpos row))) ++ tail)
             = Some (ts2 ++ tts) /\
             expand_all ts2 = take len (drop rpos row) /\
             Forall (fun t => expand t <> []) ts2).
  { destruct (Z.eqb_spec (Z.of_nat len) 0) as [H0|H0].
    - exists []. replace len with 0%nat by lia. auto.
    - destruct Hrun as [->|(H3 & v & Hv)]; [lia|].
      assert (Hhd : hd 0 (drop rpos row) = v).
      { rewrite <- (take_drop len (drop rpos row)), Hv.
        destruct len; [lia|]. reflexivity. }
      rewrite Hhd.
      destruct (run_bytes_tokens (S len) (Z.of_nat len) v tail tts)
        as (ts2 & Hp & _ & Hf & He); try lia; try exact Ht.
      { destruct (Nat.eq_dec len 130%nat) as [->|];
          [vm_compute; discriminate|].
        rewrite Z.mod_small by lia. lia. }
      { destruct (Nat.eq_dec len 130%nat) as [->|];
          [vm_compute; discriminate|].
        rewrite Z.mod_small by lia. lia. }
      exists ts2. split; [exact Hp|]. split.
      + rewrite He, Nat2Z.id, Hv. reflexivity.
      + eapply Forall_impl; [exact Hf|].
        intros t (n & -> & Hn). simpl. destruct n; [lia|discriminate]. }
  destruct Hr as (ts2 & Hp2 & He2 & Hf2).
  rewrite <- app_assoc.
  destruct (Z.eqb_spec (Z.of_nat rpos) 0) as [H0|H0].
  - exists ts2. replace rpos with 0%nat in * by lia.
    split; [exact Hp2|]. split; [exact He2|exact Hf2].
  - destruct (literal_bytes_tokens (S rpos) (take rpos row) _ _
                ltac:(rewrite length_take_le by lia; lia) Hp2)
      as (ts1 & Hp1 & _ & Hf1 & He1).
    exists (ts1 ++ ts2). rewrite <- app_assoc. split; [exact Hp1|]. split.
    + rewrite expand_all_app, He1, He2.
      rewrite take_take_drop. reflexivity.
    + apply Forall_app. split; [|exact Hf2].
      eapply Forall_impl; [exact Hf1|].
      intros t (bs & -> & Hn). simpl. destruct bs; [simpl in Hn; lia|].
      discriminate.
Qed.

(** Without a run of 131 equal bytes, what the line loop writes reads
    back as tokens that expand to the line. *)
Lemma line_bytes_tokens (fuel : nat) : forall row tail tts,
  (length row <= fuel)%nat ->
  has_run 131 row = false ->
  parse_tokens tail = Some tts ->
  exists ts,
    parse_tokens (line_bytes fuel row ++ tail) = Some (ts ++ tts) /\
    expand_all ts = row /\
    Forall (fun t => expand t <> []) ts.
Proof.
  induction fuel as [|fuel IH]; intros row tail tts Hl Hno Ht.
  - destruct row; [|simpl in Hl; lia]. exists []. auto.
  - destruct row as [|r0 row']; [exists []; auto|].
    set (row := r0 :: row') in *.
    assert (Hne : row <> []) by discriminate.
    destruct (find_run_result row Hne)
      as (len & rpos & Hfr & Hprog & Hrun).
    rewrite (line_bytes_step fuel row len rpos Hne Hfr).
    set (next := drop len (drop rpos row)).
    destruct (IH next tail tts) as (ts3 & Hp3 & He3 & Hf3).
    { unfold next. rewrite !length_drop. unfold row in *.
      simpl length in *. lia. }
    { unfold next. apply has_run_false_drop, has_run_false_drop. exact Hno. }
    { exact Ht. }
    assert (Hrun' : (len = 0)%nat \/
              ((3 <= len <= 130)%nat /\
               exists v, take len (drop rpos row) = replicate len v)).
    { destruct Hrun as [?|(H3 & Hhas & Hv)]; [left; assumption|right].
      split; [|exact Hv]. split; [exact H3|].
      destruct (Nat.le_gt_cases len 130) as [?|Hgt]; [assumption|].
      rewrite (has_run_le 131 len row ltac:(lia) Hhas) in Hno.
      discriminate. }
    destruct (step_bytes_tokens row len rpos _ _ ltac:(lia) Hrun' Hp3)
      as (ts12 & Hp & He & Hf).
    exists (ts12 ++ ts3). rewrite <- !app_assoc. split; [exact Hp|]. split.
    + rewrite expand_all_app, He, He3. unfold next.
      rewrite drop_drop. apply take_drop.
    + apply Forall_app. split; assumption.
Qed.

End LineTokens.

(** ** The lines of an image, last line first *)

Section EncodeLines.

Import Bmp2ega.

Lemma mem_at_app_length (a b : list Z) (p : Z) :
  p = Z.of_nat (length a) -> mem_at (a ++ b) p = b.
Proof.
  intros ->. unfold mem_at. destruct (Z.leb_spec 0 (Z.of_nat (length a)));
    [|lia].
  rewrite Nat2Z.id. apply drop_app_length.
Qed.

Lemma concat_length_uniform (n : nat) (rows : list (list Z)) :
  Forall (fun r => length r = n) rows ->
  length (concat rows) = (length rows * n)%nat.
Proof.
  induction 1 as [|r rows Hr _ IH]; [reflexivity|].
  simpl. rewrite length_app, IH, Hr. reflexivity.
Qed.

Lemma stream_bytes_snoc (rows : list (list Z)) (r : list Z) :
  stream_bytes (rows ++ [r])
  = line_bytes (length r) r ++ stream_bytes rows.
Proof. unfold stream_bytes. rewrite rev_unit. reflexivity. Qed.

(** The loop over the lines writes [stream_bytes]. *)
Lemma encode_lines_append (n : nat) (rows : list (list Z)) :
  forall junk st,
    (1 <= n)%nat ->
    Forall (fun r => length r = n) rows ->
    Forall (Forall is_byte) rows ->
    src st = (Z.of_nat (length rows) - 1) * Z.of_nat n ->
    room (dst st) (length (stream_bytes rows)) ->
    encode_lines (length rows) (concat rows ++ junk) (Z.of_nat n) st
    = Ok (State (- Z.of_nat n) (append (dst st) (stream_bytes rows))).
Proof.
  induction rows as [|r rows IH] using rev_ind;
    intros junk st Hn Hlen Hb Hsrc Hroom.
  - simpl. unfold stream_bytes. simpl. rewrite append_nil.
    destruct st as [s d]. cbn [src dst] in *. f_equal. f_equal.
    simpl in Hsrc. lia.
  - apply Forall_app in Hlen as [Hlen Hr]. apply Forall_app in Hb as [Hb Hrb].
    inversion Hr as [|? ? Hrn _]. subst. inversion Hrb as [|? ? Hrbytes _].
    subst. rewrite stream_bytes_snoc in *. rewrite length_app in Hroom.
    rewrite length_app, Nat.add_1_r in *. cbn [encode_lines].
    rewrite Nat2Z.id.
    assert (Hm : mem_at (concat (rows ++ [r]) ++ junk) (src st)
                 = r ++ junk).
    { rewrite concat_app. simpl. rewrite app_nil_r, <- app_assoc.
      apply mem_at_app_length.
      rewrite (concat_length_uniform (length r) rows Hlen). rewrite Hsrc.
      lia. }
    replace 0 with (Z.of_nat (length r) - Z.of_nat (length r)) at 1 by lia.
    rewrite (encode_line_append (length r) _ _ st r junk Hm (Nat.le_refl _)
               Hrbytes ltac:(eapply room_le; [exact Hroom|lia])).
    cbn [mbind result_bind src dst].
    replace (concat (rows ++ [r]) ++ junk)
      with (concat rows ++ (r ++ junk))
      by (rewrite concat_app; simpl; rewrite app_nil_r, <- app_assoc;
          reflexivity).
    rewrite IH; cbn [src dst]; try assumption.
    + f_equal. f_equal.
      rewrite append_append by (eapply room_le; [exact Hroom|lia]).
      reflexivity.
    + rewrite Hsrc. lia.
    + apply (append_room _ _ _ _ Hroom). lia.
Qed.

Lemma literal_bytes_is_byte (fuel : nat) : forall bs,
  (1 <= length bs)%nat -> Forall is_byte bs ->
  Forall is_byte (literal_bytes fuel bs).
Proof.
  induction fuel as [|fuel IH]; intros bs Hl Hb; [constructor|].
  rewrite literal_bytes_unfold.
  destruct (Z.gtb_spec (Z.of_nat (length bs)) 128).
  - constructor; [unfold is_byte; lia|]. apply Forall_app. split.
    + apply Forall_take. exact Hb.
    + apply IH; [rewrite length_drop; lia|apply Forall_drop; exact Hb].
  - constructor; [unfold is_byte; lia|exact Hb].
Qed.

Lemma run_bytes_is_byte (fuel : nat) : forall rlen v,
  is_byte v -> Forall is_byte (run_bytes fuel rlen v).
Proof.
  induction fuel as [|fuel IH]; intros rlen v Hv; [constructor|].
  rewrite run_bytes_unfold. destruct (rlen >? 130).
  - constructor; [unfold is_byte; lia|]. constructor; [exact Hv|].
    apply IH. exact Hv.
  - constructor; [apply u8_is_byte|]. constructor; [exact Hv|constructor].
Qed.

Lemma step_bytes_is_byte (row : list Z) (len rpos : nat) :
  Forall is_byte row -> (rpos <= length row)%nat ->
  Forall is_byte (step_bytes row len rpos).
Proof.
  intros Hb Hle. unfold step_bytes. apply Forall_app. split.
  - destruct (Z.eqb_spec (Z.of_nat rpos) 0); [constructor|].
    apply literal_bytes_is_byte;
      [rewrite length_take_le by lia; lia|apply Forall_take; exact Hb].
  - destruct (Z.of_nat len =? 0); [constructor|].
    apply run_bytes_is_byte.
    assert (H : Forall is_byte (drop rpos row)) by (apply Forall_drop, Hb).
    destruct (drop rpos row); [unfold is_byte; simpl; lia|].
    inversion H. assumption.
Qed.

Lemma line_bytes_is_byte (fuel : nat) : forall row,
  Forall is_byte row -> Forall is_byte (line_bytes fuel row).
Proof.
  induction fuel as [|fuel IH]; intros row Hb.
  - destruct row; constructor.
  - destruct row as [|r0 row']; [constructor|].
    set (row := r0 :: row') in *.
    assert (Hne : row <> []) by discriminate.
    destruct (find_run_result row Hne) as (len & rpos & Hfr & Hprog & _).
    rewrite (line_bytes_step fuel row len rpos Hne Hfr).
    apply Forall_app. split.
    + apply step_bytes_is_byte; [exact Hb|lia].
    + apply IH. apply Forall_drop, Forall_drop. exact Hb.
Qed.

Lemma stream_bytes_is_byte (rows : list (list Z)) :
  Forall (Forall is_byte) rows -> Forall is_byte (stream_bytes rows).
Proof.
  intros H. unfold stream_bytes. apply Forall_concat, Forall_map.
  apply Forall_rev. eapply Forall_impl; [exact H|].
  intros r Hr. apply line_bytes_is_byte. exact Hr.
Qed.

(** Without a run of 131 equal bytes in a line, the stream reads back
    as the tokens of the lines, last line first. *)
Lemma stream_bytes_tokens (rows : list (list Z)) :
  Forall (fun r => has_run 131 r = false) rows ->
  exists tss,
    parse_tokens (stream_bytes rows) = Some (concat tss) /\
    Forall2 (fun r ts => expand_all ts = r /\
                         Forall (fun t => expand t <> []) ts)
            (rev rows) tss.
Proof.
  induction rows as [|r rows IH] using rev_ind; intros Hno.
  - exists []. split; [reflexivity|constructor].
  - apply Forall_app in Hno as [Hno Hr]. inversion Hr as [|? ? Hrno _].
    subst. destruct (IH Hno) as (tss & Hp & Hf).
    destruct (line_bytes_tokens (length r) r (stream_bytes rows)
                (concat tss) (Nat.le_refl _) Hrno Hp)
      as (ts & Hpt & He & Hne).
    exists (ts :: tss). rewrite stream_bytes_snoc, rev_unit. split.
    + exact Hpt.
    + constructor; [split; assumption|exact Hf].
Qed.

End EncodeLines.

(** ** Laying the lines of a well-formed stream *)

Section LayLines.

Lemma lay_app (width : Z) (a b : list token) : forall s,
  lay width (a ++ b) s = lay width a s ≫= lay width b.
Proof.
  induction a as [|t a IH]; intros s; [reflexivity|].
  cbn [app lay]. destruct (lay_token width t s) as [s'|]; [|reflexivity].
  cbn [mbind option_bind]. apply IH.
Qed.

Lemma expand_all_nonempty (ts : list token) :
  ts <> [] -> Forall (fun t => expand t <> []) ts -> expand_all ts <> [].
Proof.
  intros Hne Hf. destruct ts as [|t ts]; [congruence|].
  inversion Hf as [|? ? Ht _]. subst. rewrite expand_all_cons.
  destruct (expand t); [congruence|discriminate].
Qed.

(** The tokens of one line, laid from column [x] on, fill the line to
    its end; the pointer then moves back to the line before. *)
Lemma lay_line (width : Z) (ts : list token) : forall dst x img,
  ts <> [] ->
  Forall (fun t => expand t <> []) ts ->
  x + 2 * Z.of_nat (length (expand_all ts)) = width ->
  in_image img dst (2 * length (expand_all ts)) ->
  lay width ts (dst, x, img)
  = Some (dst + 2 * Z.of_nat (length (expand_all ts)) - 2 * width, 0,
          splice img dst (unpack (expand_all ts))).
Proof.
  induction ts as [|t ts IH]; intros dst x img Hne Hf Hx Hin; [congruence|].
  apply Forall_cons in Hf as [Ht Hf'].
  rewrite expand_all_cons in *. rewrite length_app in *.
  assert (Hte : (1 <= length (expand t))%nat)
    by (destruct (expand t); [congruence|simpl; lia]).
  cbn [lay]. unfold lay_token. rewrite unpack_length.
  rewrite in_image_b_true by (apply (in_image_le _ _ _ _ Hin); lia).
  destruct ts as [|t' ts].
  - change (expand_all []) with (@nil Z) in *.
    rewrite app_nil_r. cbn [length] in Hx. rewrite Nat.add_0_r in Hx.
    assert (Hc : (x + Z.of_nat (2 * length (expand t)) >=? width) = true)
      by (apply Z.geb_le; lia).
    rewrite Hc. cbn [mbind option_bind lay length].
    rewrite Nat.add_0_r. do 3 f_equal. lia.
  - assert (Hrest : (1 <= length (expand_all (t' :: ts)))%nat).
    { pose proof (expand_all_nonempty (t' :: ts) ltac:(discriminate) Hf').
      destruct (expand_all (t' :: ts)); [congruence|simpl; lia]. }
    assert (Hc : (x + Z.of_nat (2 * length (expand t)) >=? width) = false).
    { destruct (Z.geb_spec (x + Z.of_nat (2 * length (expand t))) width);
        [lia|reflexivity]. }
    rewrite Hc. cbn [mbind option_bind].
    assert (Hdst : dst + Z.of_nat (2 * length (expand t))
                   = dst + Z.of_nat (length (unpack (expand t))))
      by (rewrite unpack_length; reflexivity).
    rewrite IH; try assumption; try discriminate.
    + do 2 f_equal; [f_equal; lia|].
      rewrite Hdst, splice_splice, unpack_app; [reflexivity|].
      rewrite unpack_length. apply (in_image_le _ _ _ _ Hin). lia.
    + lia.
    + rewrite Hdst.
      apply (in_image_splice _ _ _ _ _ Hin). rewrite unpack_length. lia.
Qed.

Lemma splice_blank (a : nat) (px done : list Z) :
  splice (replicate (a + length px) 0 ++ done) (Z.of_nat a) px
  = replicate a 0 ++ px ++ done.
Proof.
  unfold splice. rewrite Nat2Z.id, replicate_add, <- app_assoc.
  rewrite take_app_length' by (rewrite length_replicate; reflexivity).
  f_equal. f_equal.
  rewrite drop_app_add' by (rewrite length_replicate; reflexivity).
  rewrite drop_app_length'; [reflexivity|].
  rewrite length_replicate. reflexivity.
Qed.

(** The lines of a stream, laid one after the other from the last line
    of a blank image up, make the image of the lines in reverse. *)
Lemma lay_lines (w : nat) (rs : list (list Z)) :
  forall (tss : list (list token)) (done : list Z),
    (1 <= w)%nat ->
    Forall2 (fun r ts => expand_all ts = r /\
                         Forall (fun t => expand t <> []) ts) rs tss ->
    Forall (fun r => (2 * length r)%nat = w) rs ->
    lay (Z.of_nat w) (concat tss)
        ((Z.of_nat (length rs) - 1) * Z.of_nat w, 0,
         replicate (length rs * w) 0 ++ done)
    = Some (- Z.of_nat w, 0, concat (map unpack (rev rs)) ++ done).
Proof.
  induction rs as [|r rs IH]; intros tss done Hw H2 Hlen.
  - apply Forall2_nil_inv_l in H2 as ->.
    replace ((Z.of_nat (length (@nil (list Z))) - 1) * Z.of_nat w)
      with (- Z.of_nat w) by (simpl; lia).
    reflexivity.
  - apply Forall2_cons_inv_l in H2 as (ts & tss' & [He Hne] & H2' & ->).
    apply Forall_cons in Hlen as [Hr Hlen']. subst r. subst w.
    cbn [concat]. rewrite lay_app.
    assert (Hts : ts <> []).
    { intros ->. unfold expand_all in Hw. simpl in Hw. lia. }
    rewrite lay_line; try assumption.
    + cbn [mbind option_bind length].
      replace (S (length rs) * (2 * length (expand_all ts)))%nat
        with (length rs * (2 * length (expand_all ts))
              + length (unpack (expand_all ts)))%nat
        by (rewrite unpack_length; lia).
      replace ((Z.of_nat (S (length rs)) - 1)
               * Z.of_nat (2 * length (expand_all ts)))
        with (Z.of_nat (length rs * (2 * length (expand_all ts)))) by lia.
      rewrite splice_blank.
      replace (Z.of_nat (length rs * (2 * length (expand_all ts)))
               + 2 * Z.of_nat (length (expand_all ts))
               - 2 * Z.of_nat (2 * length (expand_all ts)))
        with ((Z.of_nat (length rs) - 1)
              * Z.of_nat (2 * length (expand_all ts))) by lia.
      rewrite (IH tss' (unpack (expand_all ts) ++ done) Hw H2' Hlen').
      do 2 f_equal. cbn [rev]. rewrite map_app, concat_app. simpl.
      rewrite app_nil_r, <- app_assoc. reflexivity.
    + lia.
    + unfold in_image. rewrite length_app, length_replicate. simpl length.
      lia.
Qed.

End LayLines.

(** ** Images without a run of 131 bytes *)

Section RoundTrip.

Lemma lines_length (n k : nat) : forall buf, length (lines n k buf) = k.
Proof. induction k as [|k IH]; intros buf; simpl; [|rewrite IH]; reflexivity. Qed.

Lemma lines_concat (n k : nat) : forall buf,
  length buf = (k * n)%nat -> concat (lines n k buf) = buf.
Proof.
  induction k as [|k IH]; intros buf Hl.
  - destruct buf; [reflexivity|discriminate].
  - cbn [lines concat]. rewrite IH by (rewrite length_drop; lia).
    apply take_drop.
Qed.

Lemma lines_uniform (n k : nat) : forall buf,
  length buf = (k * n)%nat ->
  Forall (fun r => length r = n) (lines n k buf).
Proof.
  induction k as [|k IH]; intros buf Hl; [constructor|].
  cbn [lines]. constructor.
  - apply length_take_le. lia.
  - apply IH. rewrite length_drop. lia.
Qed.

Lemma lines_Forall (P : Z -> Prop) (n k : nat) : forall buf,
  Forall P buf -> Forall (Forall P) (lines n k buf).
Proof.
  induction k as [|k IH]; intros buf H; [constructor|].
  cbn [lines]. constructor; [apply Forall_take, H|].
  apply IH, Forall_drop, H.
Qed.

Lemma unpack_concat (rows : list (list Z)) :
  concat (map unpack rows) = unpack (concat rows).
Proof.
  induction rows as [|r rows IH]; [reflexivity|].
  simpl. rewrite unpack_app, IH. reflexivity.
Qed.

Lemma header_bytes_is_byte (width height : Z) :
  Forall is_byte (header_bytes width height).
Proof.
  unfold header_bytes, is_byte.
  repeat constructor; try (apply Z.mod_pos_bound; lia).
Qed.

(** The size prefix, written and read. *)
Lemma write_header_bytes (width height : Z) (dst : memstream_buf_t) :
  (4 <= length (data dst))%nat ->
  exists d,
    Bmp2ega.write_header width height dst = Ok d /\
    pos d = pos dst + 4 /\
    take 4 (data d) = header_bytes width height /\
    drop 4 (data d) = drop 4 (data dst).
Proof.
  intros Hlen. destruct dst as [l p buf]. cbn [data pos] in *.
  destruct buf as [|b0 [|b1 [|b2 [|b3 rest]]]]; simpl in Hlen; try lia.
  unfold Bmp2ega.write_header. cbn [data pos len].
  pose proof (poke16_front [] b0 b1 (b2 :: b3 :: rest) 0 (width - 1) eq_refl)
    as E0.
  cbn [app] in E0. rewrite E0. cbn [mbind result_bind].
  pose proof (poke16_front [u16 (width - 1) mod 256;
                            (u16 (width - 1) / 256) mod 256]
                b2 b3 rest 2 (height - 1) eq_refl) as E2.
  cbn [app] in E2. rewrite E2. cbn [mbind result_bind].
  eexists. split; [reflexivity|]. cbn [pos data].
  split; [lia|]. split; reflexivity.
Qed.

Lemma read_header_bytes (width height : Z) (rest : list Z) :
  0 <= width < 65536 -> 0 <= height < 65536 ->
  Ega2bmp.read_header (header_bytes width height ++ rest)
  = Ok (width, height).
Proof.
  intros Hw Hh. unfold Ega2bmp.read_header, header_bytes. cbn [app].
  pose proof (peek16_front [] (u16 (width - 1) mod 256)
                ((u16 (width - 1) / 256) mod 256)
                (u16 (height - 1) mod 256
                 :: (u16 (height - 1) / 256) mod 256 :: rest) 0 eq_refl)
    as E0.
  cbn [app] in E0. rewrite E0. cbn [mbind result_bind].
  pose proof (peek16_front [u16 (width - 1) mod 256;
                            (u16 (width - 1) / 256) mod 256]
                (u16 (height - 1) mod 256)
                ((u16 (height - 1) / 256) mod 256) rest 2 eq_refl) as E2.
  cbn [app] in E2. rewrite E2. cbn [mbind result_bind].
  rewrite !u16_bytes, !u16_bias by assumption. reflexivity.
Qed.

(** A product within [int] is allotted, a larger one is not. *)
Lemma alloc_int (n : Z) : n <= 2147483647 -> alloc n = Ok (calloc n).
Proof.
  intros H. unfold alloc, INT_MAX.
  destruct (Z.gtb_spec n 2147483647); [lia|reflexivity].
Qed.

Lemma alloc_beyond (n : Z) : 2147483647 < n -> alloc n = NoMemory.
Proof.
  intros H. unfold alloc, INT_MAX.
  destruct (Z.gtb_spec n 2147483647); [reflexivity|lia].
Qed.

(** The encoder writes the size prefix and the stream of the lines. *)
Lemma bmp2ega_main_stream (pixels : list Z) (width height : Z) :
  2 <= width < 65536 -> width mod 2 = 0 ->
  1 <= height < 65536 ->
  width * height <= 2147483647 ->
  Z.of_nat (length pixels) = width * height ->
  Forall is_pixel pixels ->
  let rows := lines (Z.to_nat (width / 2)) (Z.to_nat height) (pack pixels) in
  4 + Z.of_nat (length (stream_bytes rows)) <= width * height ->
  Bmp2ega.main (Bmp2ega.loaded pixels) width height
  = Ok (header_bytes width height ++ stream_bytes rows) /\
  concat rows = pack pixels /\
  length rows = Z.to_nat height /\
  Forall (fun r => length r = Z.to_nat (width / 2)) rows /\
  Forall (Forall is_byte) rows.
Proof.
  intros Hw Hev Hh Hint Hlen Hpx rows Hcap.
  set (n := Z.to_nat (width / 2)) in *.
  set (h := Z.to_nat height) in *.
  assert (Hwn : width = 2 * Z.of_nat n).
  { unfold n. rewrite Z2Nat.id by (apply Z.div_pos; lia).
    pose proof (Z.div_mod width 2 ltac:(lia)). lia. }
  assert (Hhn : height = Z.of_nat h) by (unfold h; lia).
  assert (Hpl : length pixels = (2 * (h * n))%nat) by nia.
  assert (Hev' : Nat.Even (length pixels)) by (exists (h * n)%nat; exact Hpl).
  assert (Hpk : length (pack pixels) = (h * n)%nat).
  { pose proof (pack_length pixels Hev'). lia. }
  assert (Hrows_concat : concat rows = pack pixels)
    by (apply lines_concat; exact Hpk).
  assert (Hrows_len : length rows = h) by apply lines_length.
  assert (Hrows_uni : Forall (fun r => length r = n) rows)
    by (apply lines_uniform; exact Hpk).
  assert (Hrows_b : Forall (Forall is_byte) rows)
    by (apply lines_Forall, pack_bytes, Hpx).
  split; [|auto].
  unfold Bmp2ega.main. rewrite alloc_int by exact Hint.
  cbn [mbind result_bind].
  set (dst0 := Memstream (width * height) 0 (calloc (width * height))).
  assert (Hc0 : length (data dst0) = Z.to_nat (width * height)).
  { unfold dst0, calloc. cbn [data]. apply length_replicate. }
  destruct (write_header_bytes width height dst0 ltac:(rewrite Hc0; lia))
    as (d1 & Hhdr & Hpos & Htake & Hdrop).
  rewrite Hhdr. cbn [mbind result_bind].
  rewrite pack_pixels_inplace by assumption.
  cbn [mbind result_bind].
  assert (Hd1 : length (data d1) = Z.to_nat (width * height)).
  { rewrite <- (take_drop 4 (data d1)), length_app, Htake, Hdrop.
    rewrite length_drop, Hc0. simpl length. lia. }
  assert (Hroom : room d1 (length (stream_bytes rows))).
  { unfold room. rewrite Hpos, Hd1. unfold dst0. cbn [pos]. lia. }
  rewrite <- Hrows_concat.
  replace (Z.to_nat height) with (length rows) by (rewrite Hrows_len; auto).
  replace (width / 2) with (Z.of_nat n)
    by (unfold n; rewrite Z2Nat.id by (apply Z.div_pos; lia); reflexivity).
  rewrite (encode_lines_append n rows _ _ ltac:(lia) Hrows_uni Hrows_b);
    cbn [Bmp2ega.src Bmp2ega.dst]; [|rewrite Hrows_len; lia|exact Hroom].
  cbn [mbind result_bind Bmp2ega.dst]. f_equal.
  change (take (Z.to_nat (pos (append d1 (stream_bytes rows))))
            (data (append d1 (stream_bytes rows))))
    with (written (append d1 (stream_bytes rows))).
  rewrite written_append by exact Hroom. f_equal.
  unfold written. rewrite Hpos. unfold dst0. cbn [pos]. exact Htake.
Qed.

(** The decoder rebuilds the lines from the prefix and their stream. *)
Lemma ega2bmp_main_lines (rows : list (list Z)) (width height : Z) :
  2 <= width < 65536 -> width mod 2 = 0 ->
  1 <= height < 65536 ->
  width * height <= 2147483647 ->
  length rows = Z.to_nat height ->
  Forall (fun r => length r = Z.to_nat (width / 2)) rows ->
  Forall (Forall is_byte) rows ->
  Forall (fun r => has_run 131 r = false) rows ->
  Ega2bmp.main (header_bytes width height ++ stream_bytes rows)
  = Ok (width, height, unpack (concat rows)).
Proof.
  intros Hw Hev Hh Hint Hrl Huni Hb Hno.
  set (file := header_bytes width height ++ stream_bytes rows).
  set (n := Z.to_nat (width / 2)) in *.
  assert (Hwn : width = 2 * Z.of_nat n).
  { unfold n. rewrite Z2Nat.id by (apply Z.div_pos; lia).
    pose proof (Z.div_mod width 2 ltac:(lia)). lia. }
  unfold Ega2bmp.main.
  (* the header *)
  change (Ega2bmp.read_header file)
    with (Ega2bmp.read_header (header_bytes width height
                               ++ stream_bytes rows)).
  rewrite (read_header_bytes width height (stream_bytes rows))
    by (try assumption; lia).
  cbn [mbind result_bind len pos data].
  rewrite alloc_int by exact Hint. cbn [mbind result_bind].
  (* the stream *)
  destruct (stream_bytes_tokens rows Hno) as (tss & Hparse & Hf2).
  assert (Hfb : Forall is_byte file).
  { apply Forall_app. split;
      [apply header_bytes_is_byte|apply stream_bytes_is_byte, Hb]. }
  assert (Hm : mem_at file (0 + 2 * 2) = stream_bytes rows)
    by (apply mem_at_app_length; reflexivity).
  assert (Hpos : 0 <= 0 + 2 * 2 <= Z.of_nat (length file)).
  { unfold file. rewrite length_app. simpl. lia. }
  pose proof (decode_loop_lay width (concat tss) (length file)
                (Ega2bmp.State (Memstream (Z.of_nat (length file)) (0 + 2 * 2)
                                  file)
                               ((height - 1) * width) 0
                               (calloc (width * height)))
                Hfb eq_refl Hpos
                ltac:(cbn [Ega2bmp.src data pos]; rewrite Hm; exact Hparse)
                ltac:(cbn [Ega2bmp.src data pos]; rewrite Hm; unfold file;
                      rewrite length_app; lia))
    as Hloop.
  cbn [Ega2bmp.src Ega2bmp.dst Ega2bmp.x Ega2bmp.img len pos data] in Hloop.
  rewrite Hloop; clear Hloop.
  (* the image *)
  set (w := Z.to_nat width).
  pose proof (lay_lines w (rev rows) tss [] ltac:(unfold w; lia) Hf2) as Hlay.
  rewrite length_rev, rev_involutive, !app_nil_r in Hlay.
  replace (Z.of_nat w) with width in Hlay by (unfold w; lia).
  replace ((height - 1) * width)
    with ((Z.of_nat (length rows) - 1) * width) by (rewrite Hrl; lia).
  replace (calloc (width * height)) with (replicate (length rows * w) 0).
  2:{ unfold calloc. f_equal. rewrite Hrl. unfold w. nia. }
  rewrite Hlay.
  - cbn [finished mbind result_bind Ega2bmp.img]. rewrite unpack_concat.
    reflexivity.
  - apply Forall_rev. eapply Forall_impl; [exact Huni|].
    intros r Hr. cbn beta in Hr. unfold w. lia.
Qed.

(** X1. Decoding what the encoder wrote gives the image back, for an
    even width, when no line of the packed image has 131 equal bytes in
    a row and the stream fits the [width * height] bytes the encoder
    allots ([width * height] within the range of [int]). *)
Theorem roundtrip_without_long_runs (pixels : list Z) (width height : Z) :
  2 <= width < 65536 -> width mod 2 = 0 ->
  1 <= height < 65536 ->
  width * height <= 2147483647 ->
  Z.of_nat (length pixels) = width * height ->
  Forall is_pixel pixels ->
  let rows := lines (Z.to_nat (width / 2)) (Z.to_nat height) (pack pixels) in
  Forall (fun r => has_run 131 r = false) rows ->
  4 + Z.of_nat (length (stream_bytes rows)) <= width * height ->
  exists out,
    Bmp2ega.main (Bmp2ega.loaded pixels) width height = Ok out /\
    out = header_bytes width height ++ stream_bytes rows /\
    Ega2bmp.main out = Ok (width, height, pixels).
Proof.
  intros Hw Hev Hh Hint Hlen Hpx rows Hno Hcap.
  destruct (bmp2ega_main_stream pixels width height Hw Hev Hh Hint Hlen Hpx
              Hcap)
    as (Henc & Hconcat & Hrl & Huni & Hb).
  fold rows in Henc, Hconcat, Hrl, Huni, Hb.
  exists (header_bytes width height ++ stream_bytes rows).
  split; [exact Henc|]. split; [reflexivity|].
  rewrite (ega2bmp_main_lines rows width height Hw Hev Hh Hint Hrl Huni Hb
             Hno).
  rewrite Hconcat, unpack_pack; [reflexivity| |exact Hpx].
  exists (Z.to_nat (width / 2 * height)).
  pose proof (Z.div_mod width 2 ltac:(lia)). nia.
Qed.

(** An image of 12 by 2 pixels. *)
Lemma roundtrip_without_long_runs_12_by_2 :
  exists out,
    Bmp2ega.main
      (Bmp2ega.loaded [1; 1; 1; 1; 1; 1; 1; 1; 2; 3; 4; 5;
                       0; 0; 0; 0; 0; 0; 0; 0; 0; 0; 0; 0]) 12 2 = Ok out /\
    out = header_bytes 12 2
          ++ stream_bytes
               (lines (Z.to_nat (12 / 2)) (Z.to_nat 2)
                  (pack [1; 1; 1; 1; 1; 1; 1; 1; 2; 3; 4; 5;
                         0; 0; 0; 0; 0; 0; 0; 0; 0; 0; 0; 0])) /\
    Ega2bmp.main out
    = Ok (12, 2, [1; 1; 1; 1; 1; 1; 1; 1; 2; 3; 4; 5;
                  0; 0; 0; 0; 0; 0; 0; 0; 0; 0; 0; 0]).
Proof.
  apply (roundtrip_without_long_runs
           [1; 1; 1; 1; 1; 1; 1; 1; 2; 3; 4; 5;
            0; 0; 0; 0; 0; 0; 0; 0; 0; 0; 0; 0] 12 2).
  - lia.
  - reflexivity.
  - lia.
  - lia.
  - reflexivity.
  - repeat constructor; unfold is_pixel; lia.
  - repeat constructor.
  - vm_compute. discriminate.
Defined.

End RoundTrip.

(** ** Outcomes of the loops, whatever the input *)

Section Outcomes.

Lemma ok_or_out_bind {A B : Type} (P : A -> Prop) (Q : B -> Prop)
      (m : result A) (k : A -> result B) :
  ok_or_out P m -> (forall a, P a -> ok_or_out Q (k a)) ->
  ok_or_out Q (a ← m; k a).
Proof. destruct m; simpl; intros H Hk; auto; contradiction. Qed.

Lemma ok_or_out_impl {A : Type} (P Q : A -> Prop) (m : result A) :
  ok_or_out P m -> (forall a, P a -> Q a) -> ok_or_out Q m.
Proof. destruct m; simpl; auto. Qed.

Lemma peek_ok_or_out (buf : list Z) (i : Z) :
  ok_or_out (fun b => 0 <= i < Z.of_nat (length buf) /\ In b buf) (peek buf i).
Proof.
  unfold peek. destruct (Z.leb_spec 0 i); [|exact I].
  destruct (buf !! Z.to_nat i) as [b|] eqn:E; [|exact I].
  simpl. split.
  - apply lookup_lt_Some in E. lia.
  - apply list_elem_of_In. eapply list_elem_of_lookup_2. exact E.
Qed.

Lemma poke_ok_or_out (buf : list Z) (i b : Z) :
  ok_or_out (fun buf' => 0 <= i < Z.of_nat (length buf) /\
                         buf' = <[Z.to_nat i := u8 b]> buf)
            (poke buf i b).
Proof.
  unfold poke.
  destruct (Z.leb_spec 0 i); destruct (Z.ltb_spec i (Z.of_nat (length buf)));
    simpl; auto.
Qed.

Lemma peek16_ok_or_out (buf : list Z) (i : Z) :
  ok_or_out (fun _ => True) (peek16 buf i).
Proof.
  unfold peek16.
  repeat (eapply ok_or_out_bind; [apply peek_ok_or_out|]; intros ? _).
  exact I.
Qed.

Lemma land_15_pixel (a : Z) : is_pixel (u8 (Z.land a 15)).
Proof.
  unfold is_pixel, u8. change 15 with (Z.ones 4).
  rewrite Z.land_ones by lia.
  pose proof (Z.mod_pos_bound a (2 ^ 4) ltac:(lia)).
  rewrite Z.mod_small; lia.
Qed.

Lemma Forall_insert_pixel (img : list Z) (i : nat) (p : Z) :
  Forall is_pixel img -> is_pixel p -> Forall is_pixel (<[i := p]> img).
Proof. intros H Hp. apply Forall_insert; assumption. Qed.

End Outcomes.

(** ** The decoder on any file *)

Section DecoderAnyFile.

Import Ega2bmp.

Lemma get_keeps (n : nat) (s : memstream_buf_t) (p : Z) (st : state) :
  decoder_keeps n s p st ->
  ok_or_out (fun r => decoder_keeps n s (pos (src st) + 1) (snd r)) (get st).
Proof.
  intros (Hl & Hd & Hp & Hn & Hpx). unfold get.
  eapply ok_or_out_bind; [apply peek_ok_or_out|].
  intros b _. simpl. unfold decoder_keeps. cbn. repeat split; auto; lia.
Qed.

Lemma store_pair_keeps (n : nat) (s : memstream_buf_t) (p : Z) (tv : Z)
      (st : state) :
  decoder_keeps n s p st ->
  ok_or_out (decoder_keeps n s p) (store_pair tv st).
Proof.
  intros (Hl & Hd & Hp & Hn & Hpx). unfold store_pair.
  eapply ok_or_out_bind; [apply poke_ok_or_out|].
  intros i1 (_ & ->).
  eapply ok_or_out_bind; [apply poke_ok_or_out|].
  intros i2 (_ & ->). simpl. unfold decoder_keeps. cbn.
  repeat split; auto.
  - rewrite !length_insert. exact Hn.
  - apply Forall_insert_pixel; [apply Forall_insert_pixel|];
      auto using land_15_pixel.
Qed.

Lemma repeat_loop_keeps (n : nat) (s : memstream_buf_t) (p : Z) (tv : Z)
      (k : nat) : forall st,
  decoder_keeps n s p st ->
  ok_or_out (decoder_keeps n s p) (repeat_loop k tv st).
Proof.
  induction k as [|k IH]; intros st H; [exact H|].
  cbn [repeat_loop].
  eapply ok_or_out_bind; [apply store_pair_keeps, H|]. apply IH.
Qed.

Lemma decoder_keeps_le (n : nat) (s : memstream_buf_t) (p q : Z)
      (st : state) :
  q <= p -> decoder_keeps n s p st -> decoder_keeps n s q st.
Proof. intros Hq (Hl & Hd & Hp & H). repeat split; try apply H; auto; lia. Qed.

Lemma literal_loop_keeps (n : nat) (s : memstream_buf_t) (k : nat) :
  forall p st,
  decoder_keeps n s p st ->
  ok_or_out (decoder_keeps n s p) (literal_loop k st).
Proof.
  induction k as [|k IH]; intros p st H; [exact H|].
  cbn [literal_loop].
  eapply ok_or_out_bind; [apply (get_keeps n s p), H|].
  intros [tv st1] H1. cbn [snd] in H1.
  assert (H1' : decoder_keeps n s p st1).
  { eapply decoder_keeps_le; [|exact H1]. destruct H as (_ & _ & Hp & _). lia. }
  eapply ok_or_out_bind; [apply store_pair_keeps, H1'|]. apply IH.
Qed.

Lemma decode_token_keeps (n : nat) (s : memstream_buf_t) (p : Z) (width : Z)
      (st : state) :
  decoder_keeps n s p st ->
  ok_or_out (decoder_keeps n s (pos (src st) + 1)) (decode_token width st).
Proof.
  intros H. unfold decode_token.
  eapply ok_or_out_bind; [apply (get_keeps n s p), H|].
  intros [tc st1] H1. cbn [snd] in H1.
  eapply ok_or_out_bind with (P := decoder_keeps n s (pos (src st) + 1)).
  - destruct (tc >=? 128).
    + eapply ok_or_out_bind;
        [apply (get_keeps n s (pos (src st) + 1)), H1|].
      intros [tv st2] H2. cbn [snd] in H2.
      apply repeat_loop_keeps.
      eapply decoder_keeps_le; [|exact H2].
      destruct H1 as (_ & _ & Hp & _). lia.
    + apply literal_loop_keeps. exact H1.
  - intros st2 H2. destruct (x st2 >=? width); [|exact H2].
    destruct H2 as (Hl & Hd & Hp & Hn & Hpx).
    simpl. unfold decoder_keeps. cbn. repeat split; auto.
Qed.

Lemma decode_loop_keeps (n : nat) (s : memstream_buf_t) (width : Z)
      (fuel : nat) : forall p st,
  decoder_keeps n s p st ->
  len s - pos (src st) <= Z.of_nat fuel ->
  ok_or_out (decoder_keeps n s p) (decode_loop fuel width st).
Proof.
  induction fuel as [|fuel IH]; intros p st H Hf.
  - cbn [decode_loop]. destruct H as (Hl & Hd & Hp & Hn & Hpx).
    destruct (Z.ltb_spec (pos (src st)) (len (src st))); [lia|].
    simpl. repeat split; auto.
  - cbn [decode_loop].
    destruct (Z.ltb_spec (pos (src st)) (len (src st))); [|exact H].
    eapply ok_or_out_bind; [apply (decode_token_keeps n s p), H|].
    intros st1 H1.
    assert (Hp1 : pos (src st) + 1 <= pos (src st1)) by apply H1.
    eapply ok_or_out_impl.
    + apply (IH (pos (src st) + 1) st1 H1). lia.
    + intros st2 H2. eapply decoder_keeps_le; [|exact H2].
      destruct H as (_ & _ & Hp & _). lia.
Qed.

Lemma read_header_range (file : list Z) :
  ok_or_out (fun r => 0 <= fst r < 65536 /\ 0 <= snd r < 65536)
            (read_header file).
Proof.
  unfold read_header.
  repeat (eapply ok_or_out_bind; [apply peek16_ok_or_out|]; intros ? _).
  simpl. unfold u16. split; apply Z.mod_pos_bound; lia.
Qed.

Lemma ok_or_out_cases {A : Type} (P : A -> Prop) (m : result A) :
  ok_or_out P m -> m = OutOfBounds \/ exists a, m = Ok a /\ P a.
Proof. destruct m; simpl; intros H; eauto; contradiction. Qed.

(** The three ways [main] ends. *)
Lemma decoder_outcome (file : list Z) :
  match main file with
  | Ok (width, height, img) =>
      0 <= width < 65536 /\ 0 <= height < 65536 /\
      width * height <= 2147483647 /\
      Z.of_nat (length img) = width * height /\
      Forall is_pixel img
  | OutOfBounds => True
  | NoMemory =>
      exists width height,
        read_header file = Ok (width, height) /\
        2147483647 < width * height
  | _ => False
  end.
Proof.
  unfold main.
  destruct (ok_or_out_cases _ _ (read_header_range file))
    as [->|([width height] & -> & Hwr & Hhr)]; [exact I|].
  cbn [fst snd] in Hwr, Hhr. cbn [mbind result_bind].
  destruct (Z.le_gt_cases (width * height) 2147483647) as [Hint|Hbig].
  2:{ rewrite alloc_beyond by lia. cbn [mbind result_bind].
      exists width, height. split; [reflexivity|lia]. }
  rewrite alloc_int by exact Hint. cbn [mbind result_bind len pos data].
  set (s := Memstream (Z.of_nat (length file)) (0 + 2 * 2) file).
  set (st0 := State s ((height - 1) * width) 0 (calloc (width * height))).
  assert (Hloop : ok_or_out (decoder_keeps (Z.to_nat (width * height)) s
                               (pos s))
                            (decode_loop (length file) width st0)).
  { apply (decode_loop_keeps (Z.to_nat (width * height)) s width
             (length file) (pos s) st0).
    - unfold decoder_keeps, st0, calloc. cbn.
      repeat split; auto; try lia.
      + apply length_replicate.
      + apply Forall_replicate. unfold is_pixel. lia.
    - unfold st0, s. cbn. lia. }
  destruct (ok_or_out_cases _ _ Hloop)
    as [->|(st & -> & _ & _ & _ & Hn & Hpx)]; [exact I|].
  cbn [mbind result_bind].
  split; [exact Hwr|]. split; [exact Hhr|]. split; [exact Hint|].
  split; [|exact Hpx]. rewrite Hn. nia.
Qed.

(** What [main] returns, when it does. *)
Lemma main_ok_image (file : list Z) (width height : Z) (img : list Z) :
  main file = Ok (width, height, img) ->
  0 <= width < 65536 /\ 0 <= height < 65536 /\
  width * height <= 2147483647 /\
  Z.of_nat (length img) = width * height /\
  Forall is_pixel img.
Proof. intros H. pose proof (decoder_outcome file) as Ho. rewrite H in Ho. exact Ho. Qed.

(** X2. Whatever the bytes of the file, the decoder ends in one of three
    ways.  It returns a width and a height within [uint16_t], their
    product within [int], and an image of width * height pixels, each
    in 0..15; or it goes outside a buffer; or it finds no memory for
    the image, which is what happens whenever the width and the height
    of the header have a product beyond [INT_MAX]. *)
Theorem decoder_image_well_formed (file : list Z) :
  match main file with
  | Ok (width, height, img) =>
      0 <= width < 65536 /\ 0 <= height < 65536 /\
      width * height <= 2147483647 /\
      Z.of_nat (length img) = width * height /\
      Forall is_pixel img
  | OutOfBounds => True
  | NoMemory =>
      exists width height,
        read_header file = Ok (width, height) /\
        2147483647 < width * height
  | _ => False
  end /\
  (forall width height,
     read_header file = Ok (width, height) ->
     2147483647 < width * height ->
     main file = NoMemory).
Proof.
  split; [exact (decoder_outcome file)|].
  intros width height Hr Hbig. unfold main. rewrite Hr.
  cbn [mbind result_bind]. rewrite alloc_beyond by exact Hbig. reflexivity.
Qed.

End DecoderAnyFile.

(** ** The encoder on any image *)

Section EncoderAnyImage.

Import Bmp2ega.

Lemma put_stream_ok (hdr : list Z) (n : nat) (b : Z) (d : memstream_buf_t) :
  stream_ok hdr d -> length (data d) = n ->
  ok_or_out (fun d' => stream_ok hdr d' /\ length (data d') = n) (put b d).
Proof.
  intros (Hp & Hh & Hb) Hn. unfold put.
  eapply ok_or_out_bind; [apply poke_ok_or_out|].
  intros d' (Hi & ->). simpl. unfold stream_ok. cbn [pos data].
  rewrite length_insert. repeat split; auto; try lia.
  - rewrite take_insert_ge by lia. exact Hh.
  - apply Forall_insert; [exact Hb|apply u8_is_byte].
Qed.

Lemma copy_bytes_stream_ok (hdr : list Z) (n : nat) (img : list Z) (k : nat) :
  forall st,
  stream_ok hdr (dst st) -> length (data (dst st)) = n ->
  ok_or_out (fun st' => stream_ok hdr (dst st') /\ length (data (dst st')) = n)
            (copy_bytes k img st).
Proof.
  induction k as [|k IH]; intros st H Hn; [split; assumption|].
  cbn [copy_bytes].
  eapply ok_or_out_bind; [apply peek_ok_or_out|]. intros b _.
  eapply ok_or_out_bind; [apply put_stream_ok; eassumption|].
  intros d [Hd Hdn]. apply IH; assumption.
Qed.

Lemma copy_literals_stream_ok (hdr : list Z) (n : nat) (img : list Z)
      (fuel : nat) : forall clen st,
  (Z.to_nat clen < fuel)%nat ->
  stream_ok hdr (dst st) -> length (data (dst st)) = n ->
  ok_or_out (fun st' => stream_ok hdr (dst st') /\ length (data (dst st')) = n)
            (copy_literals fuel img clen st).
Proof.
  induction fuel as [|fuel IH]; intros clen st Hf H Hn; [lia|].
  cbn [copy_literals]. destruct (Z.gtb_spec clen 128).
  - eapply ok_or_out_bind; [apply put_stream_ok; eassumption|].
    intros d [Hd Hdn].
    eapply ok_or_out_bind;
      [apply (copy_bytes_stream_ok hdr n); assumption|].
    intros st1 [H1 H1n]. apply IH; [lia|assumption|assumption].
  - eapply ok_or_out_bind; [apply put_stream_ok; eassumption|].
    intros d [Hd Hdn]. apply (copy_bytes_stream_ok hdr n); assumption.
Qed.

Lemma encode_run_stream_ok (hdr : list Z) (n : nat) (img : list Z)
      (fuel : nat) : forall rlen st,
  (Z.to_nat rlen < fuel)%nat ->
  stream_ok hdr (dst st) -> length (data (dst st)) = n ->
  ok_or_out (fun st' => stream_ok hdr (dst st') /\ length (data (dst st')) = n)
            (encode_run fuel img rlen st).
Proof.
  induction fuel as [|fuel IH]; intros rlen st Hf H Hn; [lia|].
  cbn [encode_run]. destruct (Z.gtb_spec rlen 130).
  - eapply ok_or_out_bind; [apply put_stream_ok; eassumption|].
    intros d [Hd Hdn].
    eapply ok_or_out_bind; [apply peek_ok_or_out|]. intros v _.
    eapply ok_or_out_bind; [apply put_stream_ok; eassumption|].
    intros d' [Hd' Hdn']. apply IH; [lia|assumption|assumption].
  - eapply ok_or_out_bind; [apply put_stream_ok; eassumption|].
    intros d [Hd Hdn].
    eapply ok_or_out_bind; [apply peek_ok_or_out|]. intros v _.
    eapply ok_or_out_bind; [apply put_stream_ok; eassumption|].
    intros d' [Hd' Hdn']. split; assumption.
Qed.

(** The finder never answers "no run, at offset 0": with a run it
    returns a length of 3 or more, without one an offset of 1 or more. *)
Lemma find_run_loop_advances (n : nat) : forall buf lc lp count pos,
  0 <= lp -> 1 <= count -> 1 <= pos ->
  ok_or_out (fun r => 0 <= snd r /\
                      ((fst r = 0 /\ 1 <= snd r) \/ 3 <= fst r))
            (find_run_loop n buf lc lp count pos).
Proof.
  induction n as [|n IH]; intros buf lc lp count pos Hlp Hc Hp.
  - cbn [find_run_loop]. destruct (Z.gtb_spec 3 count); simpl; lia.
  - cbn [find_run_loop]. destruct buf as [|cc buf]; [exact I|].
    destruct (negb (lc =? cc)).
    + destruct (Z.leb_spec 3 count); [simpl; lia|].
      apply IH; lia.
    + apply IH; lia.
Qed.

Lemma find_run_advances (buf : list Z) (len : Z) :
  ok_or_out (fun r => 0 <= snd r /\
                      ((fst r = 0 /\ 1 <= snd r) \/ 3 <= fst r))
            (find_run buf len).
Proof.
  unfold find_run. destruct buf as [|lc buf]; [exact I|].
  apply find_run_loop_advances; lia.
Qed.

Lemma encode_step_stream_ok (hdr : list Z) (n : nat) (img : list Z)
      (width x : Z) (st : state) :
  stream_ok hdr (dst st) -> length (data (dst st)) = n ->
  ok_or_out (fun r => x + 1 <= fst r /\ stream_ok hdr (dst (snd r)) /\
                      length (data (dst (snd r))) = n)
            (encode_step img width x st).
Proof.
  intros H Hn. unfold encode_step.
  eapply ok_or_out_bind; [apply find_run_advances|].
  intros [len rpos] [Hr Hadv]. cbn [fst snd] in Hr, Hadv.
  eapply ok_or_out_bind
    with (P := fun r => x + rpos <= fst r /\ stream_ok hdr (dst (snd r)) /\
                        length (data (dst (snd r))) = n).
  - destruct (Z.eqb_spec rpos 0) as [->|Hne].
    + simpl. repeat split; auto; try lia; apply H.
    + eapply ok_or_out_bind;
        [apply (copy_literals_stream_ok hdr n); [lia|assumption..]|].
      intros st1 [H1 H1n]. simpl. repeat split; auto; try lia; apply H1.
  - intros [x1 st1] (Hx1 & H1 & H1n). cbn [fst snd] in Hx1, H1, H1n.
    destruct (Z.eqb_spec len 0) as [->|Hne].
    + simpl. repeat split; auto; try lia; apply H1.
    + eapply ok_or_out_bind;
        [apply (encode_run_stream_ok hdr n); [lia|assumption..]|].
      intros st2 [H2 H2n]. simpl. repeat split; auto; try lia; apply H2.
Qed.

Lemma encode_line_stream_ok (hdr : list Z) (n : nat) (img : list Z)
      (width : Z) (fuel : nat) : forall x st,
  width - x <= Z.of_nat fuel ->
  stream_ok hdr (dst st) -> length (data (dst st)) = n ->
  ok_or_out (fun st' => stream_ok hdr (dst st') /\ length (data (dst st')) = n)
            (encode_line fuel img width x st).
Proof.
  induction fuel as [|fuel IH]; intros x st Hf H Hn.
  - cbn [encode_line]. destruct (Z.ltb_spec x width); [lia|].
    split; assumption.
  - cbn [encode_line]. destruct (Z.ltb_spec x width); [|split; assumption].
    eapply ok_or_out_bind;
      [apply (encode_step_stream_ok hdr n); assumption|].
    intros [x1 st1] (Hx & H1 & H1n). cbn [fst snd] in Hx, H1, H1n.
    apply IH; [lia|assumption|assumption].
Qed.

Lemma encode_lines_stream_ok (hdr : list Z) (n : nat) (img : list Z)
      (width : Z) (k : nat) : forall st,
  stream_ok hdr (dst st) -> length (data (dst st)) = n ->
  ok_or_out (fun st' => stream_ok hdr (dst st') /\ length (data (dst st')) = n)
            (encode_lines k img width st).
Proof.
  induction k as [|k IH]; intros st H Hn; [split; assumption|].
  cbn [encode_lines].
  eapply ok_or_out_bind;
    [apply (encode_line_stream_ok hdr n); [lia|assumption..]|].
  intros st1 [H1 H1n]. apply IH; assumption.
Qed.

Lemma pack_loop_ok_or_out (n : nat) : forall data sp dp,
  ok_or_out (fun d => length d = length data) (pack_loop n data sp dp).
Proof.
  induction n as [|n IH]; intros data sp dp; [reflexivity|].
  cbn [pack_loop].
  eapply ok_or_out_bind; [apply peek_ok_or_out|]. intros px _.
  eapply ok_or_out_bind; [apply peek_ok_or_out|]. intros q _.
  eapply ok_or_out_bind; [apply poke_ok_or_out|]. intros d (_ & ->).
  eapply ok_or_out_impl; [apply IH|].
  intros d Hd. rewrite Hd. apply length_insert.
Qed.

Lemma write_header_stream_ok (width height : Z) (dst : memstream_buf_t) :
  pos dst = 0 -> Forall is_byte (data dst) ->
  ok_or_out (fun d => stream_ok (header_bytes width height) d /\
                      length (data d) = length (data dst))
            (write_header width height dst).
Proof.
  intros Hp Hb. unfold write_header, poke16.
  eapply ok_or_out_bind.
  { eapply ok_or_out_bind; [apply poke_ok_or_out|]. intros d0 (_ & ->).
    apply poke_ok_or_out. }
  intros d1 (_ & ->).
  eapply ok_or_out_bind.
  { eapply ok_or_out_bind; [apply poke_ok_or_out|]. intros d2 (_ & ->).
    apply poke_ok_or_out. }
  intros d3 (Hi & ->). rewrite !length_insert in Hi. simpl.
  unfold stream_ok. cbn [pos data]. rewrite !length_insert.
  repeat split; auto; try lia.
  - destruct (data dst) as [|b0 [|b1 [|b2 [|b3 rest]]]]; simpl in Hi; try lia.
    reflexivity.
  - repeat apply Forall_insert; auto using u8_is_byte.
Qed.

(** The three ways the encoder ends. *)
Lemma encoder_outcome (img : memstream_buf_t) (width height : Z) :
  match main img width height with
  | Ok out =>
      width * height <= 2147483647 /\
      4 <= Z.of_nat (length out) <= width * height /\
      take 4 out = header_bytes width height /\
      Forall is_byte out
  | OutOfBounds => width * height <= 2147483647
  | NoMemory => 2147483647 < width * height
  | _ => False
  end.
Proof.
  unfold main.
  destruct (Z.le_gt_cases (width * height) 2147483647) as [Hint|Hbig].
  2:{ rewrite alloc_beyond by lia. cbn [mbind result_bind]. lia. }
  rewrite alloc_int by exact Hint. cbn [mbind result_bind].
  set (dst0 := Memstream (width * height) 0 (calloc (width * height))).
  assert (Hl0 : length (data dst0) = Z.to_nat (width * height))
    by apply length_replicate.
  destruct (ok_or_out_cases _ _
              (write_header_stream_ok width height dst0 eq_refl
                 ltac:(apply Forall_replicate; unfold is_byte; lia)))
    as [->|(d1 & -> & H1 & H1n)]; [exact Hint|].
  cbn [mbind result_bind].
  destruct (ok_or_out_cases _ _
              (pack_loop_ok_or_out (Z.to_nat ((len img + 1) / 2)) (data img)
                 0 0))
    as [E|(packed & E & _)]; unfold pack_pixels; rewrite E; [exact Hint|].
  cbn [mbind result_bind].
  destruct (ok_or_out_cases _ _
              (encode_lines_stream_ok (header_bytes width height)
                 (length (data dst0)) packed (width / 2) (Z.to_nat height)
                 (State ((height - 1) * (width / 2)) d1) H1 H1n))
    as [->|(st & -> & (Hp & Hh & Hb) & Hn)]; [exact Hint|].
  cbn [mbind result_bind].
  rewrite length_take. rewrite Hn, Hl0 in *.
  repeat split; try lia.
  - rewrite take_take. replace (4 `min` Z.to_nat (pos (dst st)))%nat
      with 4%nat by lia. exact Hh.
  - apply Forall_take. exact Hb.
Qed.

(** X3. Whatever the image, the width and the height, the encoder ends in
    one of three ways.  With a product [width * height] beyond
    [INT_MAX] it finds no memory for its output.  Otherwise it goes
    outside a buffer, or its output is a sequence of bytes, at least 4
    and at most [width * height] of them, that starts with the four
    bytes of the size prefix. *)
Theorem encoder_output_well_formed (img : memstream_buf_t)
        (width height : Z) :
  match main img width height with
  | Ok out =>
      width * height <= 2147483647 /\
      4 <= Z.of_nat (length out) <= width * height /\
      take 4 out = header_bytes width height /\
      Forall is_byte out
  | OutOfBounds => width * height <= 2147483647
  | NoMemory => 2147483647 < width * height
  | _ => False
  end.
Proof. exact (encoder_outcome img width height). Qed.

Lemma peek_past (buf : list Z) (i : Z) :
  Z.of_nat (length buf) <= i -> peek buf i = OutOfBounds.
Proof.
  intros H. unfold peek. destruct (0 <=? i); [|reflexivity].
  rewrite lookup_ge_None_2 by lia. reflexivity.
Qed.

Lemma pack_loop_past (n : nat) : forall data sp dp,
  (1 <= n)%nat -> sp + 2 * Z.of_nat n - 1 = Z.of_nat (length data) ->
  pack_loop n data sp dp = OutOfBounds.
Proof.
  induction n as [|n IH]; intros data sp dp Hn Hl; [lia|].
  cbn [pack_loop].
  destruct (ok_or_out_cases _ _ (peek_ok_or_out data sp))
    as [->|(px & -> & _)]; [reflexivity|].
  cbn [mbind result_bind].
  destruct n as [|n].
  - rewrite peek_past by lia. reflexivity.
  - destruct (ok_or_out_cases _ _ (peek_ok_or_out data (sp + 1)))
      as [->|(q & -> & _)]; [reflexivity|].
    cbn [mbind result_bind].
    destruct (ok_or_out_cases _ _
                (poke_ok_or_out data dp
                   (Z.lor (u8 (Z.shiftl px 4)) (Z.land q 15))))
      as [->|(d & -> & _ & ->)]; [reflexivity|].
    cbn [mbind result_bind]. apply IH; [lia|].
    rewrite length_insert. lia.
Qed.

(** X4. An image with an odd number of pixels (an odd width and an odd
    height) is not encoded.  Unless [width * height] is beyond
    [INT_MAX], and no output buffer is allotted, the encoder goes
    outside a buffer: the packing loop takes the pixels two by two up
    to [img.len] without a check of the second one, and reads the byte
    after the image. *)
Theorem encoder_reads_past_odd_image (img : memstream_buf_t)
        (width height : Z) :
  len img = Z.of_nat (length (data img)) ->
  Z.odd (len img) = true ->
  main img width height
  = if width * height >? 2147483647 then NoMemory else OutOfBounds.
Proof.
  intros Hlen Hodd. unfold main, alloc, INT_MAX.
  destruct (width * height >? 2147483647); [reflexivity|].
  cbn [mbind result_bind].
  set (dst0 := Memstream (width * height) 0 (calloc (width * height))).
  destruct (ok_or_out_cases _ _
              (write_header_stream_ok width height dst0 eq_refl
                 ltac:(apply Forall_replicate; unfold is_byte; lia)))
    as [->|(d & -> & _)]; [reflexivity|].
  cbn [mbind result_bind].
  unfold pack_pixels. rewrite pack_loop_past; [reflexivity| |].
  - apply Z.odd_spec in Hodd as [k Hk].
    rewrite Hk. replace ((2 * k + 1 + 1) / 2) with (k + 1)
      by (Z.div_mod_to_equations; lia). lia.
  - apply Z.odd_spec in Hodd as [k Hk].
    assert (0 <= k) by lia.
    rewrite Hk. replace ((2 * k + 1 + 1) / 2) with (k + 1)
      by (Z.div_mod_to_equations; lia).
    rewrite Z2Nat.id by lia. lia.
Qed.

Lemma encoder_reads_past_odd_image_3_by_3 :
  main (loaded [1; 2; 3; 4; 5; 6; 7; 8; 9]) 3 3 = OutOfBounds.
Proof.
  apply (encoder_reads_past_odd_image (loaded [1; 2; 3; 4; 5; 6; 7; 8; 9]) 3 3).
  - reflexivity.
  - reflexivity.
Defined.

End EncoderAnyImage.

(** ** The size of the encoding *)

Section EncodingSize.

Import Bmp2ega.

Lemma find_run_loop_end (n : nat) : forall buf lc lp count pos c p,
  lp + count = pos ->
  find_run_loop n buf lc lp count pos = Ok (c, p) ->
  (c = 0 -> p = pos + Z.of_nat n) /\ (c <> 0 -> p + c <= pos + Z.of_nat n).
Proof.
  induction n as [|n IH]; intros buf lc lp count pos c p Hinv H.
  - cbn [find_run_loop] in H.
    destruct (Z.gtb_spec 3 count); injection H as <- <-; lia.
  - cbn [find_run_loop] in H. destruct buf as [|cc buf]; [discriminate|].
    destruct (negb (lc =? cc)).
    + destruct (Z.leb_spec 3 count).
      * injection H as <- <-. lia.
      * apply IH in H; lia.
    + apply IH in H; lia.
Qed.

(** Without a run the finder returns the whole of what it looked at,
    and a run it returns lies inside it: the first [len mod 256] bytes,
    or one byte when that is 0. *)
Lemma find_run_end (buf : list Z) (len c p : Z) :
  find_run buf len = Ok (c, p) ->
  (c = 0 -> p = Z.max 1 (u8 len)) /\ (c <> 0 -> p + c <= Z.max 1 (u8 len)).
Proof.
  unfold find_run. destruct buf as [|lc buf]; [discriminate|].
  intros H. apply find_run_loop_end in H; [|lia].
  assert (0 <= u8 len) by (apply Z.mod_pos_bound; lia). lia.
Qed.

Lemma step_bytes_length (row : list Z) (len rpos : nat) :
  (rpos + len <= length row)%nat ->
  Z.of_nat (length (step_bytes row len rpos))
  = (if (rpos =? 0)%nat then 0
     else Z.of_nat rpos + cdiv (Z.of_nat rpos) 128)
    + (if (len =? 0)%nat then 0 else 2 * cdiv (Z.of_nat len) 130).
Proof.
  intros Hle. unfold step_bytes. rewrite length_app, Nat2Z.inj_add.
  f_equal.
  - destruct rpos as [|rpos]; [reflexivity|].
    destruct (Z.eqb_spec (Z.of_nat (S rpos)) 0); [lia|].
    rewrite literal_bytes_length; rewrite length_take_le by lia;
      [reflexivity|lia].
  - destruct len as [|len]; [reflexivity|].
    destruct (Z.eqb_spec (Z.of_nat (S len)) 0); [lia|].
    rewrite run_bytes_length by lia. reflexivity.
Qed.

Lemma line_bytes_length (fuel : nat) : forall row,
  (length row <= fuel)%nat ->
  Z.of_nat (length (line_bytes fuel row))
  <= Z.of_nat (length row) + slack (Z.of_nat (length row)).
Proof.
  induction fuel as [|fuel IH]; intros row Hf.
  - destruct row; [|simpl in Hf; lia]. apply Z.leb_le. reflexivity.
  - destruct row as [|b row'] eqn:Erow.
    { apply Z.leb_le. reflexivity. }
    rewrite <- Erow in *.
    assert (Hne : row <> []) by (rewrite Erow; discriminate).
    destruct (find_run_result row Hne) as (len & rpos & Hfr & Hrange & Hrun).
    pose proof (find_run_end _ _ _ _ Hfr) as [H0 Hn0].
    rewrite (line_bytes_step fuel row len rpos Hne Hfr).
    rewrite length_app, Nat2Z.inj_add, step_bytes_length by lia.
    specialize (IH (drop len (drop rpos row))).
    rewrite !length_drop in IH. specialize (IH ltac:(lia)).
    set (n := Z.of_nat (length row)) in *.
    assert (Hn' : Z.of_nat (length row - rpos - len)
                  = n - Z.of_nat rpos - Z.of_nat len) by lia.
    rewrite Hn' in IH. clear Hn'.
    assert (Hu : 0 <= u8 n < 256) by (apply Z.mod_pos_bound; lia).
    unfold slack, cdiv, u8 in *.
    destruct Hrun as [->|(H3 & _)].
    + specialize (H0 eq_refl). cbn [Nat.eqb] in *.
      destruct rpos as [|rpos]; [lia|]. cbn [Nat.eqb].
      Z.div_mod_to_equations. lia.
    + specialize (Hn0 ltac:(lia)).
      destruct len as [|len]; [lia|]. cbn [Nat.eqb].
      destruct rpos as [|rpos]; cbn [Nat.eqb];
        Z.div_mod_to_equations; lia.
Qed.

Lemma slack_small (n : Z) : 5 <= n -> slack n + 4 <= n.
Proof. intros H. unfold slack. Z.div_mod_to_equations. lia. Qed.

Lemma stream_bytes_length (n : nat) (rows : list (list Z)) :
  Forall (fun r => length r = n) rows ->
  Z.of_nat (length (stream_bytes rows))
  <= Z.of_nat (length rows) * (Z.of_nat n + slack (Z.of_nat n)).
Proof.
  induction rows as [|r rows IH] using rev_ind; intros Hu.
  - simpl. lia.
  - apply Forall_app in Hu as [Hu Hr].
    apply Forall_cons in Hr as [Hr _]. cbn beta in Hr.
    rewrite stream_bytes_snoc, !length_app, Nat2Z.inj_add.
    specialize (IH Hu).
    pose proof (line_bytes_length (length r) r ltac:(lia)) as Hl.
    rewrite Hr in Hl |- *. rewrite Nat2Z.inj_add. simpl length.
    change (Z.of_nat 1) with 1. lia.
Qed.

Lemma stream_fits (pixels : list Z) (width height : Z) :
  10 <= width < 65536 -> width mod 2 = 0 ->
  1 <= height < 65536 ->
  Z.of_nat (length pixels) = width * height ->
  let rows := lines (Z.to_nat (width / 2)) (Z.to_nat height) (pack pixels) in
  Z.of_nat (length (stream_bytes rows))
  <= height * (width / 2 + slack (width / 2)) /\
  4 + height * (width / 2 + slack (width / 2)) <= width * height.
Proof.
  intros Hw Hev Hh Hlen rows.
  set (n := Z.to_nat (width / 2)). set (h := Z.to_nat height).
  assert (Hwn : width = 2 * Z.of_nat n).
  { unfold n. rewrite Z2Nat.id by (apply Z.div_pos; lia).
    pose proof (Z.div_mod width 2 ltac:(lia)). lia. }
  assert (Hn2 : width / 2 = Z.of_nat n)
    by (unfold n; rewrite Z2Nat.id by (apply Z.div_pos; lia); reflexivity).
  assert (Hhn : height = Z.of_nat h) by (unfold h; lia).
  assert (Hpk : length (pack pixels) = (h * n)%nat).
  { assert (Hev' : Nat.Even (length pixels)) by (exists (h * n)%nat; nia).
    pose proof (pack_length pixels Hev'). nia. }
  pose proof (stream_bytes_length n rows
                (lines_uniform n h (pack pixels) Hpk)) as Hs.
  unfold rows in Hs at 2. rewrite lines_length in Hs.
  rewrite Hn2, Hhn. split; [exact Hs|].
  pose proof (slack_small (Z.of_nat n) ltac:(lia)). nia.
Qed.

(** X5. From a width of 10 pixels on (an even width), with a height of 1
    or more and [width * height] within [int], the encoder stays inside
    the [width * height] bytes it allots for its output, whatever the
    pixels: a line of n = width / 2 packed bytes takes at most
    n + 4 * (n / 256) + ceil ((n mod 256) / 128) bytes. *)
Theorem encoder_output_fits_from_width_10 (pixels : list Z)
        (width height : Z) :
  10 <= width < 65536 -> width mod 2 = 0 ->
  1 <= height < 65536 ->
  width * height <= 2147483647 ->
  Z.of_nat (length pixels) = width * height ->
  Forall is_pixel pixels ->
  exists out,
    main (loaded pixels) width height = Ok out /\
    Z.of_nat (length out) <= 4 + height * (width / 2 + slack (width / 2)) /\
    4 + height * (width / 2 + slack (width / 2)) <= width * height.
Proof.
  intros Hw Hev Hh Hint Hlen Hpx.
  destruct (stream_fits pixels width height Hw Hev Hh Hlen) as [Hs Hcap].
  destruct (bmp2ega_main_stream pixels width height ltac:(lia) Hev Hh Hint
              Hlen Hpx ltac:(lia)) as (Henc & _).
  eexists. split; [exact Henc|]. split; [|exact Hcap].
  rewrite length_app. simpl length. lia.
Qed.

Lemma encoder_output_fits_from_width_10_witness :
  exists out,
    main (loaded [1; 2; 3; 4; 5; 6; 7; 8; 9; 10]) 10 1 = Ok out /\
    Z.of_nat (length out) <= 4 + 1 * (10 / 2 + slack (10 / 2)) /\
    4 + 1 * (10 / 2 + slack (10 / 2)) <= 10 * 1.
Proof.
  apply (encoder_output_fits_from_width_10 [1; 2; 3; 4; 5; 6; 7; 8; 9; 10]
           10 1).
  - lia.
  - reflexivity.
  - lia.
  - lia.
  - reflexivity.
  - repeat constructor; unfold is_pixel; lia.
Defined.

Lemma encode_decode_from_width_10 (pixels : list Z) (width height : Z) :
  10 <= width < 65536 -> width mod 2 = 0 ->
  1 <= height < 65536 ->
  width * height <= 2147483647 ->
  Z.of_nat (length pixels) = width * height ->
  Forall is_pixel pixels ->
  Forall (fun r => has_run 131 r = false)
         (lines (Z.to_nat (width / 2)) (Z.to_nat height) (pack pixels)) ->
  exists out,
    main (loaded pixels) width height = Ok out /\
    Ega2bmp.main out = Ok (width, height, pixels).
Proof.
  intros Hw Hev Hh Hint Hlen Hpx Hno.
  destruct (stream_fits pixels width height Hw Hev Hh Hlen) as [Hs Hcap].
  destruct (bmp2ega_main_stream pixels width height ltac:(lia) Hev Hh Hint
              Hlen Hpx ltac:(lia)) as (Henc & Hconcat & Hrl & Huni & Hb).
  eexists. split; [exact Henc|].
  rewrite (ega2bmp_main_lines _ width height ltac:(lia) Hev Hh Hint Hrl Huni
             Hb Hno).
  rewrite Hconcat, unpack_pack; [reflexivity| |exact Hpx].
  exists (Z.to_nat (width / 2 * height)).
  pose proof (Z.div_mod width 2 ltac:(lia)). nia.
Qed.

(** X6. Decoding what the encoder wrote gives the image back, for every
    image of an even width of 10 pixels or more, a height of 1 or more
    and [width * height] within [int], none of whose packed lines has
    131 equal bytes in a row. *)
Theorem roundtrip_from_width_10 (pixels : list Z) (width height : Z) :
  10 <= width < 65536 -> width mod 2 = 0 ->
  1 <= height < 65536 ->
  width * height <= 2147483647 ->
  Z.of_nat (length pixels) = width * height ->
  Forall is_pixel pixels ->
  Forall (fun r => has_run 131 r = false)
         (lines (Z.to_nat (width / 2)) (Z.to_nat height) (pack pixels)) ->
  exists out,
    main (loaded pixels) width height = Ok out /\
    Ega2bmp.main out = Ok (width, height, pixels).
Proof. exact (encode_decode_from_width_10 pixels width height). Qed.

Lemma roundtrip_from_width_10_witness :
  exists out,
    main (loaded [1; 2; 3; 4; 5; 6; 7; 8; 9; 10]) 10 1 = Ok out /\
    Ega2bmp.main out = Ok (10, 1, [1; 2; 3; 4; 5; 6; 7; 8; 9; 10]).
Proof.
  apply (roundtrip_from_width_10 [1; 2; 3; 4; 5; 6; 7; 8; 9; 10] 10 1).
  - lia.
  - reflexivity.
  - lia.
  - lia.
  - reflexivity.
  - repeat constructor; unfold is_pixel; lia.
  - repeat constructor.
Defined.

End EncodingSize.

(** ** Strings *)

Section Strings.

Lemma is_char_u8 (c : Z) : is_char c -> u8 c = c.
Proof. intros H. apply Z.mod_small. unfold is_char in H. lia. Qed.

Lemma is_char_nonzero (c : Z) : is_char c -> (c =? 0) = false.
Proof. intros H. apply Z.eqb_neq. unfold is_char in H. lia. Qed.

Lemma strlen_chars (s rest : list Z) :
  Forall is_char s -> strlen (s ++ 0 :: rest) = Ok (Z.of_nat (length s)).
Proof.
  induction 1 as [|c s Hc Hs IH]; [reflexivity|].
  cbn [app strlen]. rewrite (is_char_nonzero c Hc), IH.
  cbn [mbind result_bind]. f_equal. simpl length. lia.
Qed.

Lemma text_chars (s rest : list Z) :
  Forall is_char s -> text (s ++ 0 :: rest) = s.
Proof.
  induction 1 as [|c s Hc Hs IH]; [reflexivity|].
  cbn [app text]. rewrite (is_char_nonzero c Hc), IH. reflexivity.
Qed.

Lemma strrchr_none (c : Z) (s rest : list Z) :
  c <> 0 -> Forall is_char s -> Forall (fun b => b <> c) s ->
  strrchr (s ++ 0 :: rest) c = Ok None.
Proof.
  intros Hc Hs Hn. induction Hs as [|b s Hb Hs IH].
  - cbn. destruct (Z.eqb_spec c 0); [contradiction|reflexivity].
  - apply Forall_cons in Hn as [Hbc Hn].
    cbn [app strrchr]. rewrite (is_char_nonzero b Hb), (IH Hn).
    cbn [mbind result_bind].
    destruct (Z.eqb_spec b c); [contradiction|reflexivity].
Qed.

Lemma strrchr_last (c : Z) (a b rest : list Z) :
  is_char c -> Forall is_char a -> Forall is_char b ->
  Forall (fun x => x <> c) b ->
  strrchr (a ++ c :: b ++ 0 :: rest) c = Ok (Some (Z.of_nat (length a))).
Proof.
  intros Hc Ha Hb Hn. induction Ha as [|x a Hx Ha IH].
  - cbn [app strrchr]. rewrite (is_char_nonzero c Hc).
    rewrite strrchr_none; try assumption; [|unfold is_char in Hc; lia].
    cbn [mbind result_bind]. rewrite Z.eqb_refl. reflexivity.
  - cbn [app strrchr]. rewrite (is_char_nonzero x Hx), IH.
    cbn [mbind result_bind]. do 2 f_equal. simpl length. lia.
Qed.

Lemma poke_insert (buf : list Z) (i : nat) (v : Z) :
  (i < length buf)%nat ->
  poke buf (Z.of_nat i) v = Ok (take i buf ++ u8 v :: drop (S i) buf).
Proof.
  intros H. unfold poke.
  destruct (Z.leb_spec 0 (Z.of_nat i)); [|lia].
  destruct (Z.ltb_spec (Z.of_nat i) (Z.of_nat (length buf))); [|lia].
  simpl. rewrite Nat2Z.id. f_equal. apply insert_take_drop. exact H.
Qed.

Lemma take_snoc_drop (buf : list Z) (i : nat) (v : Z) :
  (i < length buf)%nat ->
  take (S i) (take i buf ++ v :: drop (S i) buf) = take i buf ++ [v].
Proof.
  intros H.
  replace (take i buf ++ v :: drop (S i) buf)
    with ((take i buf ++ [v]) ++ drop (S i) buf)
    by (rewrite <- app_assoc; reflexivity).
  apply take_app_length'. rewrite length_app, length_take. simpl. lia.
Qed.

Lemma drop_snoc_drop (buf : list Z) (i k : nat) (v : Z) :
  (i < length buf)%nat ->
  drop (S i + k) (take i buf ++ v :: drop (S i) buf) = drop (S i + k) buf.
Proof.
  intros H.
  replace (take i buf ++ v :: drop (S i) buf)
    with ((take i buf ++ [v]) ++ drop (S i) buf)
    by (rewrite <- app_assoc; reflexivity).
  rewrite drop_app_add'
    by (rewrite length_app, length_take; simpl; lia).
  rewrite drop_drop. f_equal.
Qed.

Lemma strncpy_at_chars (s : list Z) : forall (dst : list Z) (i : nat) tail,
  Forall is_char s ->
  (i + length s <= length dst)%nat ->
  strncpy_at (length s) dst (Z.of_nat i) (s ++ tail)
  = Ok (take i dst ++ s ++ drop (i + length s) dst).
Proof.
  induction s as [|c s IH]; intros dst i tail Hs Hl.
  - cbn [length strncpy_at app]. rewrite Nat.add_0_r, take_drop. reflexivity.
  - apply Forall_cons in Hs as [Hc Hs]. simpl length in *.
    cbn [app strncpy_at]. rewrite poke_insert by lia.
    cbn [mbind result_bind]. rewrite (is_char_nonzero c Hc), (is_char_u8 c Hc).
    replace (Z.of_nat i + 1) with (Z.of_nat (S i)) by lia.
    rewrite IH; [|exact Hs|rewrite length_app, length_take; simpl;
                            rewrite length_drop; lia].
    rewrite take_snoc_drop by lia.
    rewrite drop_snoc_drop by lia.
    replace (S i + length s)%nat with (i + S (length s))%nat by lia.
    rewrite <- app_assoc. reflexivity.
Qed.

Lemma strncat_at_chars (e : list Z) : forall (n : nat) (dst : list Z)
                                             (i : nat) tail,
  Forall is_char e ->
  (length e <= n)%nat ->
  (i + length e < length dst)%nat ->
  strncat_at n dst (Z.of_nat i) (e ++ 0 :: tail)
  = Ok (take i dst ++ e ++ 0 :: drop (S (i + length e)) dst).
Proof.
  induction e as [|c e IH]; intros n dst i tail He Hn Hl.
  - cbn [app length] in *. rewrite Nat.add_0_r in *.
    destruct n; cbn [strncat_at]; [|cbn [Z.eqb]];
      rewrite poke_insert by lia; reflexivity.
  - apply Forall_cons in He as [Hc He]. simpl length in *.
    destruct n as [|n]; [lia|].
    cbn [app strncat_at]. rewrite (is_char_nonzero c Hc).
    rewrite poke_insert by lia.
    cbn [mbind result_bind]. rewrite (is_char_u8 c Hc).
    replace (Z.of_nat i + 1) with (Z.of_nat (S i)) by lia.
    rewrite IH; [|exact He|lia|rewrite length_app, length_take; simpl;
                                 rewrite length_drop; lia].
    rewrite take_snoc_drop by lia.
    replace (S (S i + length e)) with (S i + S (length e))%nat by lia.
    rewrite drop_snoc_drop by lia.
    replace (S i + S (length e))%nat with (S (i + S (length e))) by lia.
    rewrite <- app_assoc. reflexivity.
Qed.

End Strings.

(** ** The names of the files *)

Section FileNames.

Import Common.

Lemma filename_loop_slash (d b tail : list Z) (k : nat) : forall fuel,
  Forall (fun c => c <> 47) b ->
  (k <= length b)%nat -> (k <= fuel)%nat ->
  filename_loop fuel (d ++ 47 :: b ++ tail) (Z.of_nat (length d + k))
  = Ok (Z.of_nat (length d)).
Proof.
  induction k as [|k IH]; intros fuel Hb Hk Hf.
  - rewrite Nat.add_0_r.
    destruct fuel; cbn [filename_loop];
      (destruct (Z.geb_spec (Z.of_nat (length d)) 0); [|lia]);
      rewrite (peek_app d) by reflexivity; reflexivity.
  - destruct fuel as [|fuel]; [lia|]. cbn [filename_loop].
    destruct (Z.geb_spec (Z.of_nat (length d + S k)) 0); [|lia].
    destruct (lookup_lt_is_Some_2 b k ltac:(lia)) as [c Hc].
    assert (Hpk : peek (d ++ 47 :: b ++ tail) (Z.of_nat (length d + S k))
                  = Ok c).
    { apply peek_lookup. rewrite lookup_app_r by lia.
      replace (length d + S k - length d)%nat with (S k) by lia.
      change ((47 :: b ++ tail) !! S k) with ((b ++ tail) !! k).
      rewrite lookup_app_l by lia. exact Hc. }
    rewrite Hpk. cbn [mbind result_bind].
    assert (Hne : c <> 47).
    { eapply Forall_lookup_1 in Hb; [exact Hb|exact Hc]. }
    destruct (Z.eqb_spec c 47); [contradiction|]. cbn [negb].
    replace (Z.of_nat (length d + S k) - 1) with (Z.of_nat (length d + k))
      by lia.
    apply IH; [exact Hb|lia|lia].
Qed.

Lemma filename_loop_none (s tail : list Z) (k : nat) : forall fuel,
  Forall (fun c => c <> 47) s ->
  (k <= length s)%nat -> (k <= fuel)%nat ->
  filename_loop fuel (s ++ tail) (Z.of_nat k - 1) = Ok (-1).
Proof.
  induction k as [|k IH]; intros fuel Hs Hk Hf.
  - destruct fuel; reflexivity.
  - destruct fuel as [|fuel]; [lia|]. cbn [filename_loop].
    destruct (Z.geb_spec (Z.of_nat (S k) - 1) 0); [|lia].
    destruct (lookup_lt_is_Some_2 s k ltac:(lia)) as [c Hc].
    assert (Hpk : peek (s ++ tail) (Z.of_nat (S k) - 1) = Ok c).
    { replace (Z.of_nat (S k) - 1) with (Z.of_nat k) by lia.
      apply peek_lookup. rewrite lookup_app_l by lia. exact Hc. }
    rewrite Hpk. cbn [mbind result_bind].
    assert (Hne : c <> 47).
    { eapply Forall_lookup_1 in Hs; [exact Hs|exact Hc]. }
    destruct (Z.eqb_spec c 47); [contradiction|]. cbn [negb].
    replace (Z.of_nat (S k) - 1 - 1) with (Z.of_nat k - 1) by lia.
    apply IH; [exact Hs|lia|lia].
Qed.

(** X7. [filename] returns what follows the last ['/'] of the path (the
    empty string for a path that ends in one), and the empty string, not
    the path, for a path without a ['/'], for the empty path and for
    [NULL]. *)
Theorem filename_after_last_slash :
  filename None = Ok [0] /\
  (forall d b rest,
     Forall is_char d -> Forall is_char b -> Forall (fun c => c <> 47) b ->
     filename (Some (d ++ 47 :: b ++ 0 :: rest)) = Ok (b ++ 0 :: rest)) /\
  (forall s rest,
     Forall is_char s -> Forall (fun c => c <> 47) s ->
     filename (Some (s ++ 0 :: rest)) = Ok [0]).
Proof.
  split; [reflexivity|]. split.
  - intros d b rest Hd Hb Hn. unfold filename.
    assert (Hall : Forall is_char (d ++ 47 :: b)).
    { apply Forall_app. split; [exact Hd|].
      constructor; [unfold is_char; lia|exact Hb]. }
    assert (H0 : exists c, peek (d ++ 47 :: b ++ 0 :: rest) 0 = Ok c
                           /\ is_char c).
    { destruct d as [|c d]; [exists 47|exists c];
        (split; [reflexivity|]); [unfold is_char; lia|].
      apply Forall_cons in Hd as [Hc _]. exact Hc. }
    destruct H0 as (c & -> & Hc). cbn [mbind result_bind].
    rewrite (is_char_nonzero c Hc).
    replace (d ++ 47 :: b ++ 0 :: rest) with ((d ++ 47 :: b) ++ 0 :: rest)
      by (rewrite <- app_assoc; reflexivity).
    rewrite strlen_chars by exact Hall. cbn [mbind result_bind].
    rewrite <- app_assoc. cbn [app].
    rewrite length_app. simpl length.
    replace (Z.of_nat (length d + S (length b)) - 1)
      with (Z.of_nat (length d + length b)) by lia.
    rewrite filename_loop_slash; [|exact Hn|lia|lia].
    cbn [mbind result_bind].
    destruct (Z.eqb_spec (Z.of_nat (length d)) (-1)); [lia|].
    f_equal. unfold mem_at.
    destruct (Z.leb_spec 0 (Z.of_nat (length d) + 1)); [|lia].
    replace (Z.to_nat (Z.of_nat (length d) + 1)) with (length d + 1)%nat
      by lia.
    replace (d ++ 47 :: b ++ 0 :: rest) with ((d ++ [47]) ++ b ++ 0 :: rest)
      by (rewrite <- app_assoc; reflexivity).
    apply drop_app_length'. rewrite length_app. reflexivity.
  - intros s rest Hs Hn. unfold filename.
    destruct s as [|c s]; [reflexivity|].
    pose proof Hs as Hs0. apply Forall_cons in Hs0 as [Hc _].
    cbn [app]. change (peek (c :: s ++ 0 :: rest) 0) with (Ok c : result Z).
    cbn [mbind result_bind]. rewrite (is_char_nonzero c Hc).
    change (c :: s ++ 0 :: rest) with ((c :: s) ++ 0 :: rest).
    rewrite strlen_chars by exact Hs. cbn [mbind result_bind].
    rewrite Nat2Z.id.
    rewrite filename_loop_none; [reflexivity|exact Hn|lia|lia].
Qed.

Lemma drop_extension_dot (a b rest : list Z) :
  Forall is_char a -> Forall is_char b -> Forall (fun c => c <> 46) b ->
  drop_extension (a ++ 46 :: b ++ 0 :: rest) = Ok (a ++ 0 :: b ++ 0 :: rest).
Proof.
  intros Ha Hb Hn. unfold drop_extension.
  rewrite strrchr_last; try assumption; [|unfold is_char; lia].
  cbn [mbind result_bind]. apply poke_app. reflexivity.
Qed.

Lemma drop_extension_none (s rest : list Z) :
  Forall is_char s -> Forall (fun c => c <> 46) s ->
  drop_extension (s ++ 0 :: rest) = Ok (s ++ 0 :: rest).
Proof.
  intros Hs Hn. unfold drop_extension.
  rewrite strrchr_none; try assumption; [reflexivity|lia].
Qed.

(** X8. [drop_extension] cuts the string at its last ['.'], wherever it
    is (in a directory name too), and leaves a string without one as it
    is. *)
Theorem drop_extension_last_dot :
  (forall a b rest,
     Forall is_char a -> Forall is_char b -> Forall (fun c => c <> 46) b ->
     drop_extension (a ++ 46 :: b ++ 0 :: rest)
     = Ok (a ++ 0 :: b ++ 0 :: rest)) /\
  (forall s rest,
     Forall is_char s -> Forall (fun c => c <> 46) s ->
     drop_extension (s ++ 0 :: rest) = Ok (s ++ 0 :: rest)).
Proof. split; [exact drop_extension_dot|exact drop_extension_none]. Qed.

Lemma calloc_nat (n : nat) (k : Z) :
  0 <= k -> calloc (Z.of_nat n + k) = replicate (n + Z.to_nat k) 0.
Proof. intros H. unfold calloc. f_equal. lia. Qed.

Lemma strncpy_calloc (s tail : list Z) (k : Z) :
  Forall is_char s -> 0 <= k ->
  strncpy (calloc (Z.of_nat (length s) + k)) (s ++ tail)
          (Z.of_nat (length s))
  = Ok (s ++ replicate (Z.to_nat k) 0).
Proof.
  intros Hs Hk. unfold strncpy. rewrite Nat2Z.id, calloc_nat by exact Hk.
  rewrite (strncpy_at_chars s _ 0) by
    (try exact Hs; rewrite length_replicate; lia).
  rewrite take_0. cbn [app Nat.add]. rewrite drop_replicate.
  do 3 f_equal. lia.
Qed.

Lemma file_names_one (OUTEXT prog arg : list Z) :
  file_names OUTEXT [prog; arg]
  = (namelen ← strlen arg;
     fi_name ← strncpy (calloc (namelen + 1)) arg namelen;
     fo_name ← strncpy (calloc (namelen + 5)) fi_name namelen;
     fo_name ← drop_extension fo_name;
     fo_name ← strncat fo_name OUTEXT (namelen + 4);
     Ok (Some (fi_name, fo_name))).
Proof. reflexivity. Qed.

Lemma file_names_two (OUTEXT prog arg1 arg2 : list Z) :
  file_names OUTEXT [prog; arg1; arg2]
  = (namelen ← strlen arg1;
     fi_name ← strncpy (calloc (namelen + 1)) arg1 namelen;
     namelen ← strlen arg2;
     fo_name ← strncpy (calloc (namelen + 1)) arg2 namelen;
     Ok (Some (fi_name, fo_name))).
Proof. reflexivity. Qed.

Lemma file_names_cut (ext prog name stem tail : list Z) :
  Forall is_char ext -> (length ext <= 4)%nat ->
  Forall is_char name -> Forall is_char stem ->
  (length stem <= length name)%nat ->
  (length tail = length name - length stem + 4)%nat ->
  drop_extension (name ++ 0 :: replicate 4 0) = Ok (stem ++ 0 :: tail) ->
  file_names (ext ++ [0]) [prog; name ++ [0]]
  = Ok (Some (name ++ [0],
              stem ++ ext ++ 0 :: drop (length ext) tail)).
Proof.
  intros He Hl Hname Hstem Hsl Htl Hdrop.
  rewrite file_names_one.
  rewrite strlen_chars by exact Hname. cbn [mbind result_bind].
  rewrite (strncpy_calloc name [0] 1 Hname) by lia.
  cbn [mbind result_bind]. change (replicate (Z.to_nat 1) 0) with [0].
  rewrite (strncpy_calloc name [0] 5 Hname) by lia.
  cbn [mbind result_bind].
  change (replicate (Z.to_nat 5) 0) with (0 :: replicate 4 0).
  rewrite Hdrop. cbn [mbind result_bind]. unfold strncat.
  rewrite strlen_chars by exact Hstem. cbn [mbind result_bind].
  change (ext ++ [0]) with (ext ++ 0 :: []).
  rewrite strncat_at_chars; [|exact He|lia|].
  - do 3 f_equal. rewrite take_app_length. do 3 f_equal.
    replace (S (length stem + length ext))
      with (length stem + S (length ext))%nat by lia.
    rewrite drop_app_add'; reflexivity.
  - rewrite length_app. simpl length. lia.
Qed.

(** X9. Without a second argument the output file is named after the
    input file: its name up to its last ['.'], or the whole of it
    without one, followed by the extension of the program; the
    [namelen + 5] bytes allotted hold it for an extension of up to 4
    characters. *)
Theorem file_names_default (ext prog : list Z) :
  Forall is_char ext -> (length ext <= 4)%nat ->
  (forall a b,
     Forall is_char a -> Forall is_char b -> Forall (fun c => c <> 46) b ->
     exists rest,
       file_names (ext ++ [0]) [prog; a ++ 46 :: b ++ [0]]
       = Ok (Some (a ++ 46 :: b ++ [0], a ++ ext ++ 0 :: rest))) /\
  (forall s,
     Forall is_char s -> Forall (fun c => c <> 46) s ->
     exists rest,
       file_names (ext ++ [0]) [prog; s ++ [0]]
       = Ok (Some (s ++ [0], s ++ ext ++ 0 :: rest))).
Proof.
  intros He Hl. split.
  - intros a b Ha Hb Hn.
    assert (Hname : Forall is_char (a ++ 46 :: b)).
    { apply Forall_app. split; [exact Ha|].
      constructor; [unfold is_char; lia|exact Hb]. }
    eexists.
    replace (a ++ 46 :: b ++ [0]) with ((a ++ 46 :: b) ++ [0])
      by (rewrite <- app_assoc; reflexivity).
    apply (file_names_cut ext prog (a ++ 46 :: b) a
             (b ++ 0 :: replicate 4 0)); try assumption.
    + rewrite length_app. simpl length. lia.
    + rewrite !length_app. simpl length. lia.
    + rewrite <- app_assoc. cbn [app]. apply drop_extension_dot; assumption.
  - intros s Hs Hn. eexists.
    apply (file_names_cut ext prog s s (replicate 4 0)); try assumption.
    + lia.
    + simpl length. lia.
    + apply drop_extension_none; assumption.
Qed.

(** X10. With a second argument the two names are the two arguments as
    they are; with no argument or more than two the program prints its
    usage and returns -1. *)
Theorem file_names_given (OUTEXT prog : list Z) :
  (forall name1 name2,
     Forall is_char name1 -> Forall is_char name2 ->
     file_names OUTEXT [prog; name1 ++ [0]; name2 ++ [0]]
     = Ok (Some (name1 ++ [0], name2 ++ [0]))) /\
  (forall argv,
     (length argv < 2 \/ 3 < length argv)%nat ->
     file_names OUTEXT argv = Ok None).
Proof.
  split.
  - intros name1 name2 H1 H2. rewrite file_names_two.
    rewrite (strlen_chars name1 []) by exact H1. cbn [mbind result_bind].
    rewrite (strncpy_calloc name1 [0] 1 H1) by lia.
    cbn [mbind result_bind].
    rewrite (strlen_chars name2 []) by exact H2. cbn [mbind result_bind].
    rewrite (strncpy_calloc name2 [0] 1 H2) by lia.
    reflexivity.
  - intros argv H. unfold file_names.
    destruct (Z.ltb_spec (Z.of_nat (length argv)) 2); [reflexivity|].
    destruct (Z.gtb_spec (Z.of_nat (length argv)) 3); [reflexivity|lia].
Qed.

End FileNames.

(** ** Some names *)

Section Names.

Import String.
Import Common.

Lemma filename_after_last_slash_witness :
  filename (Some (chars "dir/sub" ++ 47 :: chars "pic.bmp" ++ 0 :: []))
  = Ok (chars "pic.bmp" ++ 0 :: []) /\
  filename (Some (chars "bmp2ega" ++ 0 :: [])) = Ok [0].
Proof.
  destruct filename_after_last_slash as (_ & Hslash & Hnone). split.
  - apply Hslash; repeat constructor; unfold is_char; simpl; lia.
  - apply Hnone; repeat constructor; unfold is_char; simpl; lia.
Defined.

Lemma drop_extension_last_dot_witness :
  drop_extension (chars "a.b/pic" ++ 46 :: chars "bmp" ++ 0 :: [])
  = Ok (chars "a.b/pic" ++ 0 :: chars "bmp" ++ 0 :: []) /\
  drop_extension (chars "./pic" ++ 0 :: [])
  = Ok ([] ++ 0 :: chars "/pic" ++ 0 :: []).
Proof.
  destruct drop_extension_last_dot as (Hdot & _). split.
  - apply Hdot; repeat constructor; unfold is_char; simpl; lia.
  - apply (Hdot [] (chars "/pic") []);
      repeat constructor; unfold is_char; simpl; lia.
Defined.

Lemma file_names_default_witness :
  (exists rest,
     file_names Bmp2egaFile.OUTEXT
       [chars "bmp2ega" ++ [0]; chars "a.b/pic" ++ 46 :: chars "bmp" ++ [0]]
     = Ok (Some (chars "a.b/pic" ++ 46 :: chars "bmp" ++ [0],
                 chars "a.b/pic" ++ chars ".EGA" ++ 0 :: rest))) /\
  (exists rest,
     file_names Ega2bmpFile.OUTEXT
       [chars "ega2bmp" ++ [0]; chars "pic" ++ [0]]
     = Ok (Some (chars "pic" ++ [0], chars "pic" ++ chars ".BMP" ++ 0 :: rest))).
Proof.
  split.
  - apply (file_names_default (chars ".EGA") (chars "bmp2ega" ++ [0]));
      try (simpl; lia); repeat constructor; unfold is_char; simpl; lia.
  - apply (file_names_default (chars ".BMP") (chars "ega2bmp" ++ [0]));
      try (simpl; lia); repeat constructor; unfold is_char; simpl; lia.
Defined.

End Names.

(** ** The lines of a BMP file *)

Section BmpLines.

Lemma stride_eq (w : Z) : 0 <= w < 65536 -> stride w = 2 * ((w + 3) / 4).
Proof.
  intros H. unfold stride, u32.
  change (Z.lnot 3) with (Z.lnot (Z.ones 2)).
  rewrite <- Z.ldiff_land, Z.ldiff_ones_r by lia.
  rewrite Z.shiftr_div_pow2, Z.shiftl_mul_pow2 by lia.
  change (2 ^ 2) with 4.
  Z.div_mod_to_equations. lia.
Qed.

Lemma stride_covers (w : Z) :
  0 <= w < 65536 ->
  (w + 1) / 2 <= stride w /\ stride w < (w + 1) / 2 + 2 /\
  stride w mod 2 = 0 /\ 0 <= stride w <= 32768.
Proof.
  intros H. rewrite stride_eq by exact H.
  Z.div_mod_to_equations. lia.
Qed.

Lemma unpack_cons (b : Z) (l : list Z) :
  unpack (b :: l) = Z.land (Z.shiftr b 4) 15 :: Z.land b 15 :: unpack l.
Proof. reflexivity. Qed.

Lemma unpack_pixels (l : list Z) : Forall is_pixel (unpack l).
Proof.
  induction l as [|b l IH]; [constructor|].
  rewrite unpack_cons.
  constructor; [|constructor; [|exact IH]];
    rewrite <- nibble_u8; apply land_15_pixel.
Qed.

Lemma memset_store (n : nat) (b : Z) : forall pre old back,
  length old = n ->
  memset n (pre ++ old ++ back) (Z.of_nat (length pre)) b
  = Ok (pre ++ replicate n (u8 b) ++ back).
Proof.
  induction n as [|n IH]; intros pre old back Hl.
  - destruct old; [reflexivity|discriminate].
  - destruct old as [|o old]; [discriminate|]. injection Hl as Hl.
    cbn [memset app].
    rewrite (poke_app pre (old ++ back) _ o b) by reflexivity.
    cbn [mbind result_bind].
    replace (pre ++ u8 b :: old ++ back) with ((pre ++ [u8 b]) ++ old ++ back)
      by (rewrite <- app_assoc; reflexivity).
    replace (Z.of_nat (length pre) + 1) with (Z.of_nat (length (pre ++ [u8 b])))
      by (rewrite length_app; simpl; lia).
    rewrite IH by exact Hl. rewrite <- app_assoc. reflexivity.
Qed.

End BmpLines.

Section LoadLines.

Import Bmp2egaFile.

Lemma unpack_line_store (n : nat) : forall lw pre cur front old back,
  (n <= length cur)%nat ->
  (2 * n = length old \/ 2 * n = length old + 1)%nat ->
  lw = Z.of_nat (length old + 2 * length pre) ->
  unpack_line n lw (pre ++ cur) (Z.of_nat (length pre))
              (front ++ old ++ back) (Z.of_nat (length front))
  = Ok (front ++ take (length old) (unpack (take n cur)) ++ back,
        Z.of_nat (length front + length old)).
Proof.
  induction n as [|n IH]; intros lw pre cur front old back Hn Ho Hlw.
  - destruct old as [|o old]; [|simpl in Ho; lia].
    cbn [unpack_line length take app]. rewrite Nat.add_0_r. reflexivity.
  - destruct cur as [|sp cur]; [simpl in Hn; lia|].
    destruct old as [|o1 old]; [simpl in Ho; lia|].
    cbn [unpack_line]. rewrite (peek_app pre cur _ sp) by reflexivity.
    cbn [mbind result_bind app].
    rewrite (poke_app front (old ++ back) _ o1) by reflexivity.
    cbn [mbind result_bind]. rewrite nibble_u8.
    cbn [take]. rewrite unpack_cons.
    destruct old as [|o2 old].
    + assert (n = 0)%nat by (simpl in Ho; lia). subst n.
      destruct (Z.ltb_spec (Z.of_nat (length pre) * 2 + 1) lw);
        [simpl in Hlw; lia|].
      cbn [mbind result_bind unpack_line length take app].
      do 2 f_equal. lia.
    + destruct (Z.ltb_spec (Z.of_nat (length pre) * 2 + 1) lw);
        [|simpl in Hlw; lia].
      replace (front ++ Z.land (Z.shiftr sp 4) 15 :: (o2 :: old) ++ back)
        with ((front ++ [Z.land (Z.shiftr sp 4) 15]) ++ o2 :: old ++ back)
        by (rewrite <- app_assoc; reflexivity).
      rewrite (poke_app _ (old ++ back) _ o2)
        by (rewrite length_app; simpl; lia).
      cbn [mbind result_bind]. rewrite nibble_u8.
      replace ((front ++ [Z.land (Z.shiftr sp 4) 15])
               ++ Z.land sp 15 :: old ++ back)
        with ((front ++ [Z.land (Z.shiftr sp 4) 15; Z.land sp 15])
              ++ old ++ back)
        by (rewrite <- !app_assoc; reflexivity).
      replace (pre ++ sp :: cur) with ((pre ++ [sp]) ++ cur)
        by (rewrite <- app_assoc; reflexivity).
      replace (Z.of_nat (length pre) + 1) with (Z.of_nat (length (pre ++ [sp])))
        by (rewrite length_app; simpl; lia).
      replace (Z.of_nat (length front) + 1 + 1)
        with (Z.of_nat (length (front ++ [Z.land (Z.shiftr sp 4) 15;
                                          Z.land sp 15])))
        by (rewrite length_app; simpl; lia).
      rewrite IH.
      * rewrite <- !app_assoc. cbn [app length take].
        do 2 f_equal. rewrite length_app. simpl length. lia.
      * simpl in Hn. lia.
      * simpl in Ho. lia.
      * rewrite length_app. simpl length in *. lia.
Qed.

Lemma unpack_take (n : nat) : forall l,
  unpack (take n l) = take (2 * n) (unpack l).
Proof.
  induction n as [|n IH]; intros l; [reflexivity|].
  destruct l as [|b l]; [reflexivity|].
  cbn [take]. rewrite !unpack_cons, IH.
  replace (2 * S n)%nat with (S (S (2 * n))) by lia. reflexivity.
Qed.

Lemma fread_some (size : Z) (c : list Z) (p : Z) :
  0 < size -> 0 <= p -> p + size <= Z.of_nat (length c) ->
  fread size (File c p)
  = (Some (take (Z.to_nat size) (drop (Z.to_nat p) c)), File c (p + size)).
Proof.
  intros Hs Hp Hl. unfold fread. cbn [contents fpos].
  destruct (Z.leb_spec size 0); [lia|].
  destruct (Z.leb_spec 0 p); [|lia].
  destruct (Z.leb_spec (p + size) (Z.of_nat (length c))); [|lia].
  reflexivity.
Qed.

Lemma fread_none (size : Z) (c : list Z) (p : Z) :
  size <= 0 \/ p < 0 \/ Z.of_nat (length c) < p + size ->
  fst (fread size (File c p)) = None.
Proof.
  intros H. unfold fread. cbn [contents fpos].
  destruct (Z.leb_spec size 0); [reflexivity|].
  destruct (Z.leb_spec 0 p); destruct (Z.leb_spec (p + size)
                                         (Z.of_nat (length c)));
    simpl; first [reflexivity|lia].
Qed.

Lemma bmp_row_length (lw : Z) (c : list Z) (p : Z) :
  0 <= lw < 65536 -> 0 <= p ->
  p + stride lw <= Z.of_nat (length c) ->
  Z.of_nat (length (take (Z.to_nat lw)
                      (unpack (take (Z.to_nat (stride lw))
                                 (drop (Z.to_nat p) c)))))
  = lw.
Proof.
  intros Hlw Hp Hc.
  pose proof (stride_covers lw Hlw) as (Hs1 & _ & _ & Hs3).
  assert (lw <= 2 * stride lw) by (Z.div_mod_to_equations; lia).
  rewrite length_take, unpack_length, length_take, length_drop. lia.
Qed.

(** One line read and unpacked. *)
Lemma read_line_store (lw : Z) (c : list Z) (p : Z) (front old back : list Z) :
  1 <= lw < 65536 -> 0 <= p ->
  p + stride lw <= Z.of_nat (length c) ->
  Z.of_nat (length old) = lw ->
  fread (stride lw) (File c p)
  = (Some (take (Z.to_nat (stride lw)) (drop (Z.to_nat p) c)),
     File c (p + stride lw)) /\
  unpack_line (Z.to_nat ((lw + 1) / 2)) lw
              (take (Z.to_nat (stride lw)) (drop (Z.to_nat p) c)) 0
              (front ++ old ++ back) (Z.of_nat (length front))
  = Ok (front
        ++ take (Z.to_nat lw)
                (unpack (take (Z.to_nat (stride lw)) (drop (Z.to_nat p) c)))
        ++ back,
        Z.of_nat (length front) + lw).
Proof.
  intros Hlw Hp Hc Ho.
  pose proof (stride_covers lw ltac:(lia)) as (Hs1 & Hs2 & _ & Hs3).
  assert (Hdiv : 1 <= (lw + 1) / 2) by (Z.div_mod_to_equations; lia).
  split; [apply fread_some; lia|].
  set (buf := take (Z.to_nat (stride lw)) (drop (Z.to_nat p) c)).
  assert (Hbuf : length buf = Z.to_nat (stride lw)).
  { unfold buf. rewrite length_take, length_drop. lia. }
  pose proof (unpack_line_store (Z.to_nat ((lw + 1) / 2)) lw [] buf
                front old back) as H.
  cbn [app length] in H. change (Z.of_nat 0) with 0 in H.
  rewrite H; clear H.
  - f_equal. f_equal; [|lia]. f_equal. f_equal.
    rewrite unpack_take, take_take. f_equal.
    assert (2 * ((lw + 1) / 2) >= lw) by (Z.div_mod_to_equations; lia).
    lia.
  - lia.
  - assert (2 * ((lw + 1) / 2) = lw \/ 2 * ((lw + 1) / 2) = lw + 1)
      by (Z.div_mod_to_equations; lia).
    lia.
  - lia.
Qed.

Lemma bmp_rows_S (lw : Z) (k : nat) (bytes : list Z) :
  bmp_rows lw (S k) bytes
  = take (Z.to_nat lw) (unpack (take (Z.to_nat (stride lw)) bytes))
    :: bmp_rows lw k (drop (Z.to_nat (stride lw)) bytes).
Proof. reflexivity. Qed.

(** The lines of the file, read one after the other, fill the image from
    its last line up. *)
Lemma read_lines_up (lw : Z) (c : list Z) (k : nat) : forall p top back,
  1 <= lw < 65536 -> 0 <= p ->
  p + Z.of_nat k * stride lw <= Z.of_nat (length c) ->
  Z.of_nat (length top) = Z.of_nat k * lw ->
  read_lines k lw false (File c p) (top ++ back) (Z.of_nat (length top) - lw)
  = Ok (Some (concat (rev (bmp_rows lw k (drop (Z.to_nat p) c))) ++ back)).
Proof.
  induction k as [|k IH]; intros p top back Hlw Hp Hc Ht.
  - destruct top; [reflexivity|simpl in Ht; lia].
  - pose proof (stride_covers lw ltac:(lia)) as (Hs1 & _ & _ & Hs3).
    set (n := Z.to_nat (Z.of_nat k * lw)).
    assert (Hsplit : top = take n top ++ drop n top)
      by (symmetry; apply take_drop).
    assert (Hl1 : length (take n top) = n) by (apply length_take_le; lia).
    assert (Hl2 : Z.of_nat (length (drop n top)) = lw)
      by (rewrite length_drop; lia).
    destruct (read_line_store lw c p (take n top) (drop n top) back
                Hlw Hp ltac:(nia) Hl2) as [Hfr Hun].
    cbn [read_lines]. rewrite Hfr.
    replace (Z.of_nat (length top) - lw) with (Z.of_nat (length (take n top)))
      by lia.
    rewrite Hsplit at 1. rewrite <- app_assoc, Hun.
    cbn [mbind result_bind negb].
    replace (Z.of_nat (length (take n top)) + lw - lw * 2)
      with (Z.of_nat (length (take n top)) - lw) by lia.
    rewrite IH; [|exact Hlw|lia|nia|lia].
    rewrite bmp_rows_S. cbn [rev]. rewrite concat_app.
    cbn [concat]. rewrite app_nil_r, <- app_assoc.
    rewrite drop_drop.
    replace (Z.to_nat p + Z.to_nat (stride lw))%nat
      with (Z.to_nat (p + stride lw)) by lia.
    reflexivity.
Qed.

(** With [flip], from its first line down. *)
Lemma read_lines_down (lw : Z) (c : list Z) (k : nat) :
  forall p front zone back,
  1 <= lw < 65536 -> 0 <= p ->
  p + Z.of_nat k * stride lw <= Z.of_nat (length c) ->
  Z.of_nat (length zone) = Z.of_nat k * lw ->
  read_lines k lw true (File c p) (front ++ zone ++ back)
             (Z.of_nat (length front))
  = Ok (Some (front ++ concat (bmp_rows lw k (drop (Z.to_nat p) c)) ++ back)).
Proof.
  induction k as [|k IH]; intros p front zone back Hlw Hp Hc Hz.
  - destruct zone; [reflexivity|simpl in Hz; lia].
  - pose proof (stride_covers lw ltac:(lia)) as (Hs1 & _ & _ & Hs3).
    set (n := Z.to_nat lw).
    assert (Hsplit : zone = take n zone ++ drop n zone)
      by (symmetry; apply take_drop).
    assert (Hl1 : Z.of_nat (length (take n zone)) = lw)
      by (rewrite length_take; lia).
    assert (Hl2 : Z.of_nat (length (drop n zone)) = Z.of_nat k * lw)
      by (rewrite length_drop; lia).
    destruct (read_line_store lw c p front (take n zone)
                (drop n zone ++ back) Hlw Hp ltac:(nia) Hl1) as [Hfr Hun].
    cbn [read_lines]. rewrite Hfr.
    rewrite Hsplit at 1. rewrite <- app_assoc, Hun.
    cbn [mbind result_bind negb].
    set (row := take (Z.to_nat lw)
                  (unpack (take (Z.to_nat (stride lw)) (drop (Z.to_nat p) c)))).
    replace (front ++ row ++ drop n zone ++ back)
      with ((front ++ row) ++ drop n zone ++ back)
      by (rewrite <- app_assoc; reflexivity).
    assert (Hrow : Z.of_nat (length row) = lw)
      by (apply bmp_row_length; [lia|lia|nia]).
    replace (Z.of_nat (length front) + lw)
      with (Z.of_nat (length (front ++ row)))
      by (rewrite length_app; lia).
    rewrite IH; [|exact Hlw|lia|nia|lia].
    rewrite bmp_rows_S. cbn [concat]. fold row.
    rewrite <- !app_assoc. rewrite drop_drop.
    replace (Z.to_nat p + Z.to_nat (stride lw))%nat
      with (Z.to_nat (p + stride lw)) by lia.
    reflexivity.
Qed.

(** A file that ends before the last line gives [rval = -3], and no
    access outside the image on the way. *)
Lemma read_lines_short (lw : Z) (c : list Z) (flip : bool) (k : nat) :
  forall p front zone back px,
  0 <= lw < 65536 ->
  (1 <= k)%nat ->
  p < 0 \/ Z.of_nat (length c) < p + Z.of_nat k * stride lw \/ lw = 0 ->
  Z.of_nat (length zone) = Z.of_nat k * lw ->
  px = (if flip then Z.of_nat (length front)
        else Z.of_nat (length front) + (Z.of_nat k - 1) * lw) ->
  read_lines k lw flip (File c p) (front ++ zone ++ back) px = Ok None.
Proof.
  induction k as [|k IH]; intros p front zone back px Hlw Hk Hshort Hz Hpx;
    [lia|].
  cbn [read_lines].
  pose proof (stride_covers lw ltac:(lia)) as (Hs1 & Hs2 & _ & Hs3).
  destruct (Z.eq_dec lw 0) as [H0|H0].
  { pose proof (fread_none (stride lw) c p) as Hn.
    destruct (fread (stride lw) (File c p)) as [buf fp]. cbn [fst] in Hn.
    rewrite Hn; [reflexivity|]. left. subst lw. vm_compute. discriminate. }
  destruct (Z_lt_dec p 0) as [Hp|Hp].
  { pose proof (fread_none (stride lw) c p) as Hn.
    destruct (fread (stride lw) (File c p)) as [buf fp]. cbn [fst] in Hn.
    rewrite Hn; [reflexivity|]. lia. }
  destruct (Z_lt_dec (Z.of_nat (length c)) (p + stride lw)) as [Hc|Hc].
  { pose proof (fread_none (stride lw) c p) as Hn.
    destruct (fread (stride lw) (File c p)) as [buf fp]. cbn [fst] in Hn.
    rewrite Hn; [reflexivity|]. lia. }
  assert (Hk' : (1 <= k)%nat) by (destruct k; [lia|lia]).
  destruct flip.
  - set (n := Z.to_nat lw).
    assert (Hsplit : zone = take n zone ++ drop n zone)
      by (symmetry; apply take_drop).
    assert (Hl1 : Z.of_nat (length (take n zone)) = lw)
      by (rewrite length_take; nia).
    destruct (read_line_store lw c p front (take n zone)
                (drop n zone ++ back) ltac:(lia) ltac:(lia) ltac:(lia) Hl1)
      as [Hfr Hun].
    rewrite Hfr. subst px.
    rewrite Hsplit at 1. rewrite <- app_assoc, Hun.
    cbn [mbind result_bind negb].
    set (row := take (Z.to_nat lw)
                  (unpack (take (Z.to_nat (stride lw)) (drop (Z.to_nat p) c)))).
    replace (front ++ row ++ drop n zone ++ back)
      with ((front ++ row) ++ drop n zone ++ back)
      by (rewrite <- app_assoc; reflexivity).
    assert (Hrow : Z.of_nat (length row) = lw)
      by (apply bmp_row_length; [lia|lia|nia]).
    apply IH; try assumption; try lia.
    + rewrite length_drop. nia.
    + rewrite length_app. lia.
  - set (n := Z.to_nat (Z.of_nat k * lw)).
    assert (Hsplit : zone = take n zone ++ drop n zone)
      by (symmetry; apply take_drop).
    assert (Hl1 : length (take n zone) = n) by (apply length_take_le; nia).
    assert (Hl2 : Z.of_nat (length (drop n zone)) = lw)
      by (rewrite length_drop; nia).
    destruct (read_line_store lw c p (front ++ take n zone) (drop n zone)
                back ltac:(lia) ltac:(lia) ltac:(lia) Hl2)
      as [Hfr Hun].
    rewrite Hfr. subst px.
    rewrite Hsplit at 1.
    replace (front ++ (take n zone ++ drop n zone) ++ back)
      with ((front ++ take n zone) ++ drop n zone ++ back)
      by (rewrite <- !app_assoc; reflexivity).
    replace (Z.of_nat (length front) + (Z.of_nat (S k) - 1) * lw)
      with (Z.of_nat (length (front ++ take n zone)))
      by (rewrite length_app; nia).
    rewrite Hun. cbn [mbind result_bind negb].
    set (row := take (Z.to_nat lw)
                  (unpack (take (Z.to_nat (stride lw)) (drop (Z.to_nat p) c)))).
    rewrite <- app_assoc.
    apply IH; try assumption; try lia.
    rewrite length_app. nia.
Qed.

End LoadLines.

(** ** load_bmp *)

Section LoadBmp.

Import Bmp2egaFile.

Lemma fread_inv (size : Z) (c : list Z) (p : Z) (b : list Z) (fp : FILE) :
  fread size (File c p) = (Some b, fp) ->
  0 < size /\ 0 <= p /\ p + size <= Z.of_nat (length c) /\
  b = take (Z.to_nat size) (drop (Z.to_nat p) c) /\ fp = File c (p + size).
Proof.
  unfold fread. cbn [contents fpos].
  destruct (Z.leb_spec size 0); [discriminate|].
  destruct (Z.leb_spec 0 p); destruct (Z.leb_spec (p + size)
                                         (Z.of_nat (length c)));
    cbn [andb]; try discriminate.
  intros E. injection E as <- <-. repeat split; lia.
Qed.

Lemma fread_cases (size : Z) (c : list Z) (p : Z) :
  (exists fp, fread size (File c p) = (None, fp) /\
              (size <= 0 \/ p < 0 \/ Z.of_nat (length c) < p + size)) \/
  (fread size (File c p)
   = (Some (take (Z.to_nat size) (drop (Z.to_nat p) c)), File c (p + size))
   /\ 0 < size /\ 0 <= p /\ p + size <= Z.of_nat (length c)).
Proof.
  unfold fread. cbn [contents fpos].
  destruct (Z.leb_spec size 0); [left; eexists; split; [reflexivity|lia]|].
  destruct (Z.leb_spec 0 p); destruct (Z.leb_spec (p + size)
                                         (Z.of_nat (length c)));
    cbn [andb];
    first [right; split; [reflexivity|lia]
          |left; eexists; split; [reflexivity|lia]].
Qed.

Lemma bmp_rows_uniform (lw : Z) (k : nat) : forall bytes,
  0 <= lw < 65536 ->
  Z.of_nat k * stride lw <= Z.of_nat (length bytes) ->
  Forall (fun r => Z.of_nat (length r) = lw) (bmp_rows lw k bytes).
Proof.
  induction k as [|k IH]; intros bytes Hlw Hl; [constructor|].
  pose proof (stride_covers lw Hlw) as (_ & _ & _ & Hs).
  rewrite bmp_rows_S. constructor.
  - apply (bmp_row_length lw bytes 0); [exact Hlw|lia|nia].
  - apply IH; [exact Hlw|]. rewrite length_drop. nia.
Qed.

Lemma bmp_rows_pixels (lw : Z) (k : nat) (bytes : list Z) :
  Forall (Forall is_pixel) (bmp_rows lw k bytes).
Proof.
  unfold bmp_rows. apply Forall_map, Forall_forall. intros l _.
  apply Forall_take, unpack_pixels.
Qed.

Lemma concat_length_rows (lw : Z) (rows : list (list Z)) :
  Forall (fun r => Z.of_nat (length r) = lw) rows ->
  Z.of_nat (length (concat rows)) = Z.of_nat (length rows) * lw.
Proof.
  induction 1 as [|r rows Hr _ IH]; [reflexivity|].
  cbn [concat length]. rewrite length_app. lia.
Qed.

Lemma bmp_rows_length (lw : Z) (k : nat) (bytes : list Z) :
  length (bmp_rows lw k bytes) = k.
Proof. unfold bmp_rows. rewrite length_map. apply lines_length. Qed.

(** The lines loop of [load_bmp] on the image [calloc] made. *)
Lemma read_lines_calloc (lw lh : Z) (flip : bool) (c : list Z) (p : Z) :
  0 <= lw < 65536 -> 0 <= lh < 65536 ->
  let r := read_lines (Z.to_nat lh) lw flip (File c p) (calloc (lw * lh))
             (if flip then 0 else lw * lh - lw) in
  let rows := bmp_rows lw (Z.to_nat lh) (drop (Z.to_nat p) c) in
  if bool_decide (lh = 0 \/ (1 <= lw /\ 0 <= p /\
                             p + lh * stride lw <= Z.of_nat (length c)))
  then r = Ok (Some (concat (if flip then rows else rev rows)))
  else r = Ok None.
Proof.
  intros Hlw Hlh r rows. unfold r.
  assert (Hcl : Z.of_nat (length (calloc (lw * lh))) = Z.of_nat (Z.to_nat lh) * lw).
  { unfold calloc. rewrite length_replicate. nia. }
  destruct (bool_decide_reflect
              (lh = 0 \/ (1 <= lw /\ 0 <= p /\
                          p + lh * stride lw <= Z.of_nat (length c))))
    as [Hok|Hno].
  - destruct (Z.eq_dec lh 0) as [->|Hne].
    + cbn. rewrite Z.mul_0_r. destruct flip; reflexivity.
    + destruct Hok as [?|(H1 & Hp & Hc)]; [contradiction|].
      destruct flip.
      * pose proof (read_lines_down lw c (Z.to_nat lh) p []
                      (calloc (lw * lh)) [] ltac:(lia) Hp ltac:(lia) Hcl)
          as H.
        cbn [app length] in H. change (Z.of_nat 0) with 0 in H.
        rewrite app_nil_r in H.
        rewrite H. rewrite app_nil_r. reflexivity.
      * pose proof (read_lines_up lw c (Z.to_nat lh) p
                      (calloc (lw * lh)) [] ltac:(lia) Hp ltac:(lia) Hcl)
          as H.
        rewrite app_nil_r in H.
        replace (Z.of_nat (length (calloc (lw * lh))) - lw)
          with (lw * lh - lw) in H by lia.
        rewrite H. rewrite app_nil_r. reflexivity.
  - pose proof (read_lines_short lw c flip (Z.to_nat lh) p []
                  (calloc (lw * lh)) []
                  (if flip then 0 else lw * lh - lw) Hlw ltac:(lia)) as H.
    rewrite app_nil_r in H. cbn [app] in H. apply H.
    + destruct (Z.eq_dec lw 0); [lia|].
      destruct (Z_lt_dec p 0); [lia|].
      right. left.
      destruct (Z_lt_dec (Z.of_nat (length c))
                  (p + Z.of_nat (Z.to_nat lh) * stride lw)); [assumption|].
      exfalso. apply Hno. right. lia.
    + exact Hcl.
    + destruct flip; [reflexivity|]. cbn [length]. lia.
Qed.

Lemma loaded_image_well_formed (h : bmp_h) (bytes : list Z) :
  loadable h bytes ->
  let bmp := header_read h bytes in
  let lw := u16 (image_width (bmi bmp)) in
  let lh := u16 (Z.abs (image_height (bmi bmp))) in
  0 <= lw < 65536 /\ 0 <= lh < 65536 /\
  Z.of_nat (length (loaded_image h bytes)) = lw * lh /\
  Forall is_pixel (loaded_image h bytes).
Proof.
  intros (Hs1 & Hs2 & Hlen & _ & _ & _ & _ & _ & _ & _ & _ & Hlines)
         bmp lw lh.
  fold bmp lw lh in Hlines.
  assert (Hlw : 0 <= lw < 65536) by (apply Z.mod_pos_bound; lia).
  assert (Hlh : 0 <= lh < 65536) by (apply Z.mod_pos_bound; lia).
  split; [exact Hlw|]. split; [exact Hlh|].
  unfold loaded_image. fold bmp lw lh.
  set (rows := bmp_rows lw (Z.to_nat lh)
                 (drop (Z.to_nat (lines_offset h bmp)) bytes)).
  assert (Hoff : 0 <= lines_offset h bmp).
  { unfold lines_offset. destruct (Z.leb_spec 0 (image_offset (dib bmp))); lia. }
  assert (Hu : Forall (fun r => Z.of_nat (length r) = lw) rows).
  { destruct Hlines as [H0|[H1 Hc]].
    - unfold rows. rewrite H0. constructor.
    - apply bmp_rows_uniform; [exact Hlw|]. rewrite length_drop. lia. }
  assert (Hp : Forall (Forall is_pixel) rows) by apply bmp_rows_pixels.
  assert (Hn : length rows = Z.to_nat lh) by apply bmp_rows_length.
  split.
  - destruct (image_height (bmi bmp) <? 0).
    + rewrite (concat_length_rows lw rows Hu). lia.
    + rewrite (concat_length_rows lw (rev rows)), length_rev;
        [lia|apply Forall_rev, Hu].
  - apply Forall_concat.
    destruct (image_height (bmi bmp) <? 0); [|apply Forall_rev]; exact Hp.
Qed.

(** [load_bmp] on any file: it takes the loadable ones, and refuses the
    others with one of its negative values. *)
Lemma load_bmp_cases (h : bmp_h) (bytes : list Z) :
  let bmp := header_read h bytes in
  let lw := u16 (image_width (bmi bmp)) in
  let lh := u16 (Z.abs (image_height (bmi bmp))) in
  (loadable h bytes /\
   load_bmp h (Some bytes)
   = Ok (Loaded (Memstream (lw * lh) 0 (loaded_image h bytes)) lw lh)) \/
  (~ loadable h bytes /\
   exists rval, load_bmp h (Some bytes) = Ok (LoadFailed rval) /\
                In rval [-3; -4; -5; -6; -7]).
Proof.
  intros bmp lw lh. unfold load_bmp.
  destruct (fread_cases (sizeof_bmp_signature_t h) bytes 0)
    as [(fp & -> & Hc)|(-> & Hs1 & _ & Hl1)].
  { right. split; [|exists (-3); split; [reflexivity|simpl; tauto]].
    intros (H1 & H2 & H3 & _). lia. }
  change (drop (Z.to_nat 0) bytes) with bytes.
  destruct (Z.eqb_spec (BMPFILESIG h)
              (signature_of h (take (Z.to_nat (sizeof_bmp_signature_t h))
                                 bytes))) as [Hsig|Hsig]; cbn [negb].
  2:{ right. split; [|exists (-4); split; [reflexivity|simpl; tauto]].
      intros (_ & _ & _ & H4 & _). congruence. }
  destruct (fread_cases (sizeof_bmp_header_t h) bytes
              (0 + sizeof_bmp_signature_t h))
    as [(fp & -> & Hc)|(-> & Hs2 & _ & Hl2)].
  { right. split; [|exists (-3); split; [reflexivity|simpl; tauto]].
    intros (H1 & H2 & H3 & _). lia. }
  rewrite Z.add_0_l. fold (header_read h bytes). fold bmp.
  destruct (Z.eqb_spec 1 (num_planes (bmi bmp))) as [Hpl|Hpl]; cbn [negb orb].
  2:{ right. split; [|exists (-6); split; [reflexivity|simpl; tauto]].
      intros (_ & _ & _ & _ & H5 & _). fold bmp in H5. congruence. }
  destruct (Z.eqb_spec (sizeof_bmi_header_t h) (header_size (bmi bmp)))
    as [Hhs|Hhs]; cbn [negb orb].
  2:{ right. split; [|exists (-6); split; [reflexivity|simpl; tauto]].
      intros (_ & _ & _ & _ & _ & H6 & _). fold bmp in H6. congruence. }
  destruct (Z.eqb_spec 0 (RES (dib bmp))) as [Hres|Hres]; cbn [negb orb].
  2:{ right. split; [|exists (-6); split; [reflexivity|simpl; tauto]].
      intros (_ & _ & _ & _ & _ & _ & H7 & _). fold bmp in H7. congruence. }
  destruct (Z.eqb_spec 4 (bits_per_pixel (bmi bmp))) as [Hbpp|Hbpp];
    cbn [negb orb].
  2:{ right. split; [|exists (-7); split; [reflexivity|simpl; tauto]].
      intros (_ & _ & _ & _ & _ & _ & _ & H8 & _). fold bmp in H8.
      congruence. }
  destruct (Z.eqb_spec 16 (num_colors (bmi bmp))) as [Hnc|Hnc];
    cbn [negb orb].
  2:{ right. split; [|exists (-7); split; [reflexivity|simpl; tauto]].
      intros (_ & _ & _ & _ & _ & _ & _ & _ & H9 & _). fold bmp in H9.
      congruence. }
  destruct (Z.eqb_spec 0 (compression (bmi bmp))) as [Hco|Hco];
    cbn [negb orb].
  2:{ right. split; [|exists (-7); split; [reflexivity|simpl; tauto]].
      intros (_ & _ & _ & _ & _ & _ & _ & _ & _ & H10 & _). fold bmp in H10.
      congruence. }
  fold lw lh. cbn [len data].
  assert (Hseek : fseek_set (File bytes (sizeof_bmp_signature_t h
                                         + sizeof_bmp_header_t h))
                            (image_offset (dib bmp))
                  = File bytes (lines_offset h bmp)).
  { unfold fseek_set, lines_offset.
    destruct (0 <=? image_offset (dib bmp)); reflexivity. }
  rewrite Hseek.
  assert (Hoff : 0 <= lines_offset h bmp).
  { unfold lines_offset. destruct (Z.leb_spec 0 (image_offset (dib bmp))); lia. }
  assert (Hlw : 0 <= lw < 65536) by (apply Z.mod_pos_bound; lia).
  assert (Hlh : 0 <= lh < 65536) by (apply Z.mod_pos_bound; lia).
  unfold INT_MAX.
  destruct (Z.gtb_spec (lw * lh) 2147483647) as [Hbig|Hint].
  { right. split; [|exists (-5); split; [reflexivity|simpl; tauto]].
    intros (_ & _ & _ & _ & _ & _ & _ & _ & _ & _ & H11 & _).
    fold bmp lw lh in H11. lia. }
  pose proof (read_lines_calloc lw lh (image_height (bmi bmp) <? 0) bytes
                (lines_offset h bmp) Hlw Hlh) as Hrl.
  cbv zeta in Hrl.
  destruct (bool_decide_reflect
              (lh = 0 \/ (1 <= lw /\ 0 <= lines_offset h bmp /\
                          lines_offset h bmp + lh * stride lw
                          <= Z.of_nat (length bytes)))) as [Hok|Hno].
  - left. split.
    + unfold loadable. fold bmp lw lh. repeat split; try lia; congruence.
    + rewrite Hrl. reflexivity.
  - right. split.
    + intros (_ & _ & _ & _ & _ & _ & _ & _ & _ & _ & _ & H11).
      fold bmp lw lh in H11. apply Hno.
      destruct H11 as [?|[? ?]]; [left|right]; auto.
    + exists (-3). rewrite Hrl. split; [reflexivity|simpl; tauto].
Qed.

End LoadBmp.

(** ** save_bmp *)

Section SaveBmp.

Import Ega2bmpFile.

Lemma log2_byte (a : Z) : 0 <= a < 256 -> Z.log2 a < 8.
Proof.
  intros H. destruct (Z.eq_dec a 0) as [->|Hne]; [reflexivity|].
  apply (Z.log2_lt_pow2 a 8); lia.
Qed.

Lemma lor_byte (a b : Z) : is_byte a -> is_byte b -> is_byte (Z.lor a b).
Proof.
  unfold is_byte. intros Ha Hb.
  assert (H0 : 0 <= Z.lor a b) by (apply Z.lor_nonneg; lia).
  split; [exact H0|].
  destruct (Z.eq_dec (Z.lor a b) 0) as [->|Hne]; [lia|].
  apply (Z.log2_lt_pow2 (Z.lor a b) 8); [lia|].
  rewrite Z.log2_lor by lia.
  pose proof (log2_byte a Ha). pose proof (log2_byte b Hb). lia.
Qed.

Lemma packed_pair_byte (l r : Z) :
  u8 (Z.lor (u8 (Z.shiftl l 4)) (Z.land r 15))
  = Z.lor (u8 (Z.shiftl l 4)) (Z.land r 15).
Proof.
  apply u8_byte, lor_byte; [apply u8_is_byte|].
  rewrite <- nibble_u8. apply u8_is_byte.
Qed.

Lemma pack_line_store (n : nat) : forall width row before after bufpre old
                                         bufback,
  (2 * n = length row \/ 2 * n = length row + 1)%nat ->
  length old = n ->
  width = Z.of_nat (length row + 2 * length bufpre) ->
  pack_line n width (before ++ row ++ after) (Z.of_nat (length before))
            (bufpre ++ old ++ bufback) (Z.of_nat (length bufpre))
  = Ok (bufpre ++ pack_row row ++ bufback,
        Z.of_nat (length before + length row)).
Proof.
  induction n as [|n IH];
    intros width row before after bufpre old bufback Hn Ho Hw.
  - destruct row as [|l row]; [|simpl in Hn; lia].
    destruct old; [|discriminate].
    cbn [pack_line pack_row app length]. rewrite Nat.add_0_r. reflexivity.
  - destruct row as [|l row]; [simpl in Hn; lia|].
    destruct old as [|o old]; [discriminate|]. injection Ho as Ho.
    cbn [pack_line app].
    rewrite (peek_app before (row ++ after) (Z.of_nat (length before)) l)
      by reflexivity.
    cbn [mbind result_bind].
    destruct row as [|r row].
    + assert (n = 0)%nat by (simpl in Hn; lia). subst n.
      destruct old; [|discriminate].
      destruct (Z.ltb_spec (Z.of_nat (length bufpre) * 2 + 1) width);
        [simpl in Hw; lia|].
      cbn [mbind result_bind app].
      rewrite (poke_app bufpre bufback _ o) by reflexivity.
      cbn [mbind result_bind length pack_line pack_row app].
      rewrite (u8_byte (u8 _)) by apply u8_is_byte.
      do 2 f_equal. lia.
    + destruct (Z.ltb_spec (Z.of_nat (length bufpre) * 2 + 1) width);
        [|simpl in Hw; lia].
      cbn [app].
      replace (before ++ l :: r :: row ++ after)
        with ((before ++ [l]) ++ r :: row ++ after)
        by (rewrite <- app_assoc; reflexivity).
      rewrite (peek_app (before ++ [l]) (row ++ after)
                 (Z.of_nat (length before) + 1) r)
        by (rewrite length_app; simpl; lia).
      cbn [mbind result_bind app].
      rewrite (poke_app bufpre (old ++ bufback) _ o) by reflexivity.
      cbn [mbind result_bind]. rewrite packed_pair_byte.
      set (b := Z.lor (u8 (Z.shiftl l 4)) (Z.land r 15)).
      replace ((before ++ [l]) ++ r :: row ++ after)
        with ((before ++ [l; r]) ++ row ++ after)
        by (rewrite <- !app_assoc; reflexivity).
      replace (bufpre ++ b :: old ++ bufback)
        with ((bufpre ++ [b]) ++ old ++ bufback)
        by (rewrite <- app_assoc; reflexivity).
      replace (Z.of_nat (length before) + 1 + 1)
        with (Z.of_nat (length (before ++ [l; r])))
        by (rewrite length_app; simpl; lia).
      replace (Z.of_nat (length bufpre) + 1)
        with (Z.of_nat (length (bufpre ++ [b])))
        by (rewrite length_app; simpl; lia).
      rewrite IH.
      * rewrite <- app_assoc. cbn [app pack_row]. fold b.
        do 2 f_equal. rewrite length_app. simpl length. lia.
      * simpl in Hn. lia.
      * exact Ho.
      * rewrite length_app. simpl length in *. lia.
Qed.

(** Induction two pixels at a time, for a line of any length. *)
Lemma pixels_ind (P : list Z -> Prop) :
  P [] -> (forall l, P [l]) ->
  (forall l r row, P row -> P (l :: r :: row)) ->
  forall row, P row.
Proof.
  intros H0 H1 H2. fix IH 1. intros [|l [|r row]].
  - exact H0.
  - apply H1.
  - apply H2, IH.
Qed.

Lemma pack_row_length (row : list Z) :
  Z.of_nat (length (pack_row row)) = (Z.of_nat (length row) + 1) / 2.
Proof.
  induction row as [|l|l r row IH] using pixels_ind.
  - reflexivity.
  - reflexivity.
  - cbn [pack_row length].
    rewrite !Nat2Z.inj_succ, IH.
    Z.div_mod_to_equations. lia.
Qed.

Lemma unpack_pack_row (row : list Z) : forall tail,
  Forall is_pixel row ->
  take (length row) (unpack (pack_row row ++ tail)) = row.
Proof.
  induction row as [|l|l r row IH] using pixels_ind; intros tail Hpx.
  - reflexivity.
  - apply Forall_cons in Hpx as [Hl _].
    cbn [pack_row app length]. rewrite unpack_cons. cbn [take]. f_equal.
    destruct (pack_unpack_byte l 0 Hl ltac:(unfold is_pixel; lia))
      as [Hb Hu].
    cbv zeta in Hb, Hu. change (Z.land 0 15) with 0 in Hb, Hu.
    rewrite Z.lor_0_r in Hu. unfold unpack_byte in Hu.
    injection Hu as Hu _. exact Hu.
  - apply Forall_cons in Hpx as [Hl Hpx].
    apply Forall_cons in Hpx as [Hr Hpx].
    cbn [pack_row app length].
    destruct (pack_unpack_byte l r Hl Hr) as [_ Hu]. cbv zeta in Hu.
    change (unpack (?b :: ?t)) with (unpack_byte b ++ unpack t).
    rewrite Hu. cbn [app take]. rewrite IH by exact Hpx. reflexivity.
Qed.

Lemma lines_snoc (n : nat) (k : nat) : forall top row,
  length top = (k * n)%nat ->
  lines n (S k) (top ++ row) = lines n k top ++ [take n row].
Proof.
  induction k as [|k IH]; intros top row Hl.
  - destruct top; [|discriminate]. reflexivity.
  - change (lines n (S (S k)) (top ++ row))
      with (take n (top ++ row) :: lines n (S k) (drop n (top ++ row))).
    rewrite take_app_le, drop_app_le by lia.
    rewrite IH by (rewrite length_drop; lia). reflexivity.
Qed.

Lemma lines_of_concat (n : nat) (rows : list (list Z)) : forall junk,
  Forall (fun r => length r = n) rows ->
  lines n (length rows) (concat rows ++ junk) = rows.
Proof.
  induction rows as [|r rows IH]; intros junk Hu; [reflexivity|].
  apply Forall_cons in Hu as [Hr Hu].
  cbn [length lines concat]. rewrite <- app_assoc.
  rewrite take_app_length', drop_app_length' by (symmetry; exact Hr).
  rewrite IH by exact Hu. reflexivity.
Qed.

Lemma bmp_line_length (w : Z) (row : list Z) :
  1 <= w < 65536 -> Z.of_nat (length row) = w ->
  Z.of_nat (length (bmp_line w row)) = stride w.
Proof.
  intros Hw Hr. unfold bmp_line.
  pose proof (stride_covers w ltac:(lia)) as (Hs1 & _).
  pose proof (pack_row_length row) as Hp. rewrite Hr in Hp.
  rewrite length_app, length_replicate. lia.
Qed.

Lemma bmp_lines_snoc (w : Z) (rows : list (list Z)) (row : list Z) :
  bmp_lines w (rows ++ [row]) = bmp_line w row ++ bmp_lines w rows.
Proof. unfold bmp_lines. rewrite rev_unit. reflexivity. Qed.

Lemma bmp_lines_length (w : Z) (rows : list (list Z)) :
  1 <= w < 65536 ->
  Forall (fun r => Z.of_nat (length r) = w) rows ->
  Z.of_nat (length (bmp_lines w rows)) = Z.of_nat (length rows) * stride w.
Proof.
  intros Hw Hu. induction rows as [|r rows IH] using rev_ind.
  - reflexivity.
  - apply Forall_app in Hu as [Hu Hr]. apply Forall_cons in Hr as [Hr _].
    rewrite bmp_lines_snoc, !length_app, Nat2Z.inj_add, IH by exact Hu.
    rewrite Nat2Z.inj_add, bmp_line_length by assumption. simpl length. lia.
Qed.

(** One line packed and written. *)
Lemma write_line_store (width : Z) (before row after buf : list Z) :
  1 <= width < 65536 ->
  Z.of_nat (length row) = width ->
  stride width <= Z.of_nat (length buf) ->
  exists buf',
    length buf' = length buf /\
    (buf0 ← memset (Z.to_nat (stride width)) buf 0 0;
     pack_line (Z.to_nat ((width + 1) / 2)) width (before ++ row ++ after)
               (Z.of_nat (length before)) buf0 0)
    = Ok (buf', Z.of_nat (length before) + width) /\
    take (Z.to_nat (stride width)) buf' = bmp_line width row.
Proof.
  intros Hw Hr Hb.
  pose proof (stride_covers width ltac:(lia)) as (Hs1 & _ & _ & Hs3).
  set (s := Z.to_nat (stride width)).
  set (n := Z.to_nat ((width + 1) / 2)).
  assert (Hdiv : 2 * ((width + 1) / 2) = width
                 \/ 2 * ((width + 1) / 2) = width + 1)
    by (Z.div_mod_to_equations; lia).
  assert (Hns : (n <= s)%nat) by (unfold n, s; lia).
  pose proof (memset_store s 0 [] (take s buf) (drop s buf)
                ltac:(apply length_take_le; lia)) as Hm.
  cbn [app length] in Hm. change (Z.of_nat 0) with 0 in Hm.
  rewrite take_drop in Hm.
  exists (pack_row row ++ replicate (s - n) 0 ++ drop s buf).
  pose proof (pack_row_length row) as Hpl. rewrite Hr in Hpl.
  split; [|split].
  - rewrite !length_app, length_replicate, length_drop. lia.
  - rewrite Hm. cbn [mbind result_bind]. change (u8 0) with 0.
    replace (replicate s 0 ++ drop s buf)
      with ([] ++ replicate n 0 ++ (replicate (s - n) 0 ++ drop s buf)).
    2:{ cbn [app]. rewrite app_assoc, <- replicate_add.
        do 2 f_equal. lia. }
    pose proof (pack_line_store n width row before after []
                  (replicate n 0) (replicate (s - n) 0 ++ drop s buf)) as Hp.
    cbn [length] in Hp. change (Z.of_nat 0) with 0 in Hp.
    rewrite Hp.
    + cbn [app]. do 2 f_equal. lia.
    + unfold n. lia.
    + apply length_replicate.
    + lia.
  - unfold bmp_line. fold s.
    rewrite take_app_ge by lia.
    f_equal. rewrite take_app_length'.
    + f_equal. lia.
    + rewrite length_replicate. lia.
Qed.

(** The lines of the image are written from its last line up. *)
Lemma write_lines_rows (width : Z) (k : nat) : forall top after buf fp,
  1 <= width < 65536 ->
  Z.of_nat (length top) = Z.of_nat k * width ->
  stride width <= Z.of_nat (length buf) ->
  write_lines k width (top ++ after) (Z.of_nat (length top) - width) buf fp
  = Ok (0, fp ++ bmp_lines width (lines (Z.to_nat width) k top)).
Proof.
  induction k as [|k IH]; intros top after buf fp Hw Ht Hb.
  - cbn [write_lines lines]. unfold bmp_lines. cbn. rewrite app_nil_r.
    reflexivity.
  - pose proof (stride_covers width ltac:(lia)) as (Hs1 & _ & _ & Hs3).
    assert (Hs0 : 1 <= stride width) by (Z.div_mod_to_equations; lia).
    set (m := Z.to_nat (Z.of_nat k * width)).
    assert (Hsplit : top = take m top ++ drop m top)
      by (symmetry; apply take_drop).
    assert (Hl1 : length (take m top) = m) by (apply length_take_le; lia).
    assert (Hl2 : Z.of_nat (length (drop m top)) = width)
      by (rewrite length_drop; lia).
    destruct (write_line_store width (take m top) (drop m top) after buf
                Hw Hl2 Hb) as (buf' & Hbl & Hrun & Htake).
    cbn [write_lines].
    replace (Z.of_nat (length top) - width)
      with (Z.of_nat (length (take m top))) by lia.
    replace (top ++ after) with (take m top ++ drop m top ++ after)
      by (rewrite app_assoc, take_drop; reflexivity).
    destruct (memset (Z.to_nat (stride width)) buf 0 0) as [buf0| | | |];
      cbn [mbind result_bind] in Hrun |- *; try discriminate.
    rewrite Hrun. cbn [mbind result_bind].
    unfold fwrite. destruct (Z.leb_spec (stride width) 0); [lia|].
    change (negb (1 =? 1)) with false. cbn iota.
    replace (Z.of_nat (length (take m top)) + width - width * 2)
      with (Z.of_nat (length (take m top)) - width) by lia.
    rewrite IH; [|exact Hw|lia|lia].
    rewrite Htake, <- app_assoc. do 3 f_equal.
    replace (lines (Z.to_nat width) (S k) top)
      with (lines (Z.to_nat width) (S k) (take m top ++ drop m top))
      by (rewrite take_drop; reflexivity).
    rewrite lines_snoc by (rewrite Hl1; unfold m; nia).
    rewrite bmp_lines_snoc. do 2 f_equal.
    symmetry. apply take_ge. lia.
Qed.

End SaveBmp.

(** ** The BMP file written and read back *)

Section BmpFile.

Import Bmp2egaFile Ega2bmpFile.

Lemma bmp_header_fits (h : bmp_h) (width height : Z) :
  bmp_h_ok h -> 0 <= width < 65536 -> 0 <= height < 65536 ->
  header_fits (bmp_header h width height) /\
  file_size (dib (bmp_header h width height))
  = HDRBUFSZ h + sizeof_bmp_palette_entry_t h * 16 + stride width * height.
Proof.
  intros (Hs1 & Hs2 & Hs3 & Hoff & Hbmi & Hdpi & _) Hw Hh.
  pose proof (stride_covers width Hw) as (_ & _ & _ & Hs).
  assert (Hu : u32 (stride width * height) = stride width * height).
  { unfold u32. apply Z.mod_small. nia. }
  unfold bmp_header, header_fits, HDRBUFSZ in *. cbn. rewrite Hu.
  repeat split; try lia; try nia.
Qed.

(** The file [save_bmp] writes: signature, header, palette and the
    lines of the image, the last one first. *)
Lemma save_bmp_file (h : bmp_h) (src : memstream_buf_t) (width height : Z)
      (pal : list bmp_palette_entry_t) :
  bmp_h_ok h ->
  1 <= width < 65536 -> 0 <= height < 65536 ->
  len src = width * height ->
  Z.of_nat (length (data src)) = width * height ->
  length pal = 16%nat ->
  save_bmp h src width height pal
  = Ok (0, bytes_of_signature h (BMPFILESIG h)
           ++ bytes_of_header h (bmp_header h width height)
           ++ bytes_of_palette h pal
           ++ bmp_lines width
                (lines (Z.to_nat width) (Z.to_nat height) (data src))).
Proof.
  intros (Hs1 & Hs2 & Hs3 & Hoff & Hbmi & Hdpi & Hsl & _ & Hhl & _ & Hpl)
         Hw Hh Hlen Hdl Hpal.
  pose proof (stride_covers width ltac:(lia)) as (_ & _ & _ & Hs).
  unfold save_bmp.
  set (bmp := bmp_header h width height).
  set (sigb := bytes_of_signature h (BMPFILESIG h)).
  set (hdrb := bytes_of_header h bmp).
  assert (Hcl : Z.of_nat (length (calloc (stride width + 2)))
                = stride width + 2).
  { unfold calloc. rewrite length_replicate. lia. }
  rewrite (mem_at_app_length (calloc (stride width + 2)) (sigb ++ hdrb))
    by (symmetry; exact Hcl).
  assert (Hhb : Z.of_nat (length (sigb ++ hdrb)) = HDRBUFSZ h).
  { rewrite length_app. unfold sigb, hdrb, HDRBUFSZ.
    specialize (Hhl bmp). lia. }
  unfold fwrite at 1. unfold HDRBUFSZ in *.
  destruct (Z.leb_spec (sizeof_bmp_signature_t h + sizeof_bmp_header_t h) 0);
    [lia|].
  change (negb (1 =? 1)) with false. cbn iota.
  rewrite take_ge by lia.
  unfold fwrite at 1.
  destruct (Z.leb_spec (sizeof_bmp_palette_entry_t h * 16) 0); [lia|].
  change (negb (1 =? 1)) with false. cbn iota.
  rewrite take_ge by (specialize (Hpl pal); lia).
  rewrite Hlen.
  pose proof (write_lines_rows width (Z.to_nat height) (data src) []
                (calloc (stride width + 2) ++ sigb ++ hdrb)
                ([] ++ sigb ++ hdrb ++ bytes_of_palette h pal)
                Hw ltac:(rewrite Z2Nat.id by lia; lia)
                ltac:(rewrite length_app; lia)) as Hwl.
  rewrite app_nil_r in Hwl.
  replace (Z.of_nat (length (data src)) - width) with (width * height - width)
    in Hwl by lia.
  cbn [app] in Hwl |- *. rewrite <- ?app_assoc in Hwl |- *.
  rewrite Hwl. rewrite <- ?app_assoc. reflexivity.
Qed.

Lemma unpack_bmp_line (w : Z) (row : list Z) :
  Z.of_nat (length row) = w -> Forall is_pixel row ->
  take (Z.to_nat w) (unpack (bmp_line w row)) = row.
Proof.
  intros Hr Hpx. unfold bmp_line.
  replace (Z.to_nat w) with (length row) by lia.
  apply unpack_pack_row. exact Hpx.
Qed.

Lemma bmp_rows_of_lines (w : Z) (rows : list (list Z)) :
  1 <= w < 65536 ->
  Forall (fun r => Z.of_nat (length r) = w) rows ->
  Forall (Forall is_pixel) rows ->
  bmp_rows w (length rows) (bmp_lines w rows) = rev rows.
Proof.
  intros Hw Hu Hpx. unfold bmp_rows, bmp_lines.
  pose proof (lines_of_concat (Z.to_nat (stride w))
                (map (bmp_line w) (rev rows)) []) as Hl.
  rewrite app_nil_r, length_map, length_rev in Hl. rewrite Hl.
  - rewrite map_map. rewrite <- (map_id (rev rows)) at 2.
    apply map_ext_in. intros r Hin.
    apply in_rev in Hin. rewrite Forall_forall in Hu, Hpx.
    apply list_elem_of_In in Hin.
    apply unpack_bmp_line; auto.
  - apply Forall_map, Forall_rev. eapply Forall_impl; [exact Hu|].
    intros r Hr. cbn beta in *.
    pose proof (bmp_line_length w r Hw Hr). lia.
Qed.

(** What [load_bmp] finds in the file [save_bmp] wrote. *)
Lemma saved_file_loadable (h : bmp_h) (img : list Z) (width height : Z)
      (pal : list bmp_palette_entry_t) :
  bmp_h_ok h ->
  1 <= width < 65536 -> 0 <= height < 65536 ->
  width * height <= 2147483647 ->
  Z.of_nat (length img) = width * height ->
  Forall is_pixel img ->
  length pal = 16%nat ->
  let file := bytes_of_signature h (BMPFILESIG h)
              ++ bytes_of_header h (bmp_header h width height)
              ++ bytes_of_palette h pal
              ++ bmp_lines width
                   (lines (Z.to_nat width) (Z.to_nat height) img) in
  loadable h file /\
  header_read h file = bmp_header h width height /\
  loaded_image h file = img /\
  Z.of_nat (length file) = file_size (dib (bmp_header h width height)).
Proof.
  intros Hok Hw Hh Hint Hlen Hpx Hpal file.
  destruct (bmp_header_fits h width height Hok ltac:(lia) Hh) as [Hfits Hfs].
  destruct Hok as (Hs1 & Hs2 & Hs3 & Hoff & Hbmi & Hdpi & Hsl & Hsig & Hhl
                   & Hhdr & Hpl).
  set (bmp := bmp_header h width height) in *.
  set (sigb := bytes_of_signature h (BMPFILESIG h)) in *.
  set (hdrb := bytes_of_header h bmp) in *.
  set (palb := bytes_of_palette h pal) in *.
  set (R := lines (Z.to_nat width) (Z.to_nat height) img) in *.
  pose proof (stride_covers width ltac:(lia)) as (_ & _ & _ & Hs).
  assert (Hhl' : Z.of_nat (length hdrb) = sizeof_bmp_header_t h)
    by apply Hhl.
  assert (Hpl' : Z.of_nat (length palb) = sizeof_bmp_palette_entry_t h * 16)
    by (unfold palb; rewrite Hpl, Hpal; reflexivity).
  assert (Hil : length img = (Z.to_nat height * Z.to_nat width)%nat) by nia.
  assert (HRu : Forall (fun r => Z.of_nat (length r) = width) R).
  { eapply Forall_impl; [apply lines_uniform; exact Hil|].
    intros r Hr. cbn beta in Hr. lia. }
  assert (HRp : Forall (Forall is_pixel) R) by (apply lines_Forall, Hpx).
  assert (HRl : length R = Z.to_nat height) by apply lines_length.
  assert (HRc : concat R = img) by (apply lines_concat; exact Hil).
  assert (Hll : Z.of_nat (length (bmp_lines width R)) = height * stride width).
  { rewrite bmp_lines_length by assumption. rewrite HRl. lia. }
  assert (Hread : header_read h file = bmp).
  { unfold header_read, file.
    rewrite drop_app_length' by lia.
    rewrite take_app_length' by lia.
    apply Hhdr. exact Hfits. }
  assert (Hlo : lines_offset h bmp
                = HDRBUFSZ h + sizeof_bmp_palette_entry_t h * 16).
  { unfold lines_offset, bmp, bmp_header, HDRBUFSZ. cbn [image_offset dib].
    destruct (Z.leb_spec 0 (sizeof_bmp_signature_t h + sizeof_bmp_header_t h
                            + sizeof_bmp_palette_entry_t h * 16));
      [reflexivity|lia]. }
  assert (Hfl : Z.of_nat (length file)
                = HDRBUFSZ h + sizeof_bmp_palette_entry_t h * 16
                  + height * stride width).
  { unfold file, HDRBUFSZ. rewrite !length_app. lia. }
  assert (Hw16 : u16 width = width) by (apply Z.mod_small; lia).
  assert (Hh16 : u16 (Z.abs height) = height)
    by (rewrite Z.abs_eq by lia; apply Z.mod_small; lia).
  assert (Hiw : image_width (bmi bmp) = width) by reflexivity.
  assert (Hih : image_height (bmi bmp) = height) by reflexivity.
  split; [|split; [exact Hread|split]].
  - unfold loadable. rewrite Hread. cbv zeta.
    rewrite Hiw, Hih, Hw16, Hh16, Hlo, Hfl.
    repeat split; try lia; try reflexivity; try (unfold HDRBUFSZ; nia).
    unfold file. rewrite take_app_length' by lia. exact Hsig.
  - unfold loaded_image. rewrite Hread. cbv zeta.
    rewrite Hiw, Hih, Hw16, Hh16, Hlo.
    destruct (Z.ltb_spec height 0); [lia|].
    replace (drop (Z.to_nat (HDRBUFSZ h + sizeof_bmp_palette_entry_t h * 16))
               file) with (bmp_lines width R).
    2:{ unfold file. rewrite !app_assoc. symmetry.
        apply drop_app_length'. rewrite !length_app. unfold HDRBUFSZ. lia. }
    rewrite <- HRl, bmp_rows_of_lines by assumption.
    rewrite rev_involutive. exact HRc.
  - rewrite Hfl, Hfs. lia.
Qed.

End BmpFile.

(** ** The Windows layout *)

Section WindowsLayout.

Lemma le_value_4 (v : Z) :
  0 <= v < 4294967296 -> le_value (le_bytes 4 v) = v.
Proof.
  intros H. cbn [le_bytes le_value]. Z.div_mod_to_equations. lia.
Qed.

Lemma le_value_2 (v : Z) :
  0 <= v < 65536 -> le_value (le_bytes 2 v) = v.
Proof.
  intros H. cbn [le_bytes le_value]. Z.div_mod_to_equations. lia.
Qed.

Lemma le_int32_4 (v : Z) :
  0 <= v < 2147483648 -> le_int32 (le_bytes 4 v) = v.
Proof.
  intros H. unfold le_int32. rewrite le_value_4 by lia.
  destruct (Z.ltb_spec v 2147483648); [reflexivity|lia].
Qed.

Lemma windows_bmp_h_ok : bmp_h_ok windows_bmp_h.
Proof.
  unfold bmp_h_ok, HDRBUFSZ. cbn [windows_bmp_h sizeof_bmp_signature_t
    sizeof_bmp_header_t sizeof_bmi_header_t sizeof_bmp_palette_entry_t
    BMPFILESIG BMP96DPI signature_of header_of bytes_of_signature
    bytes_of_header bytes_of_palette].
  repeat (split; [lia|]).
  split; [reflexivity|]. split; [reflexivity|].
  split; [intros b; reflexivity|]. split.
  - intros [[fs res off] [hs iw ih np bpp co bs hr vr nc ic]] Hfit.
    unfold header_fits in Hfit.
    cbn [dib bmi file_size RES image_offset header_size image_width
         image_height num_planes bits_per_pixel compression bitmap_size
         horiz_res vert_res num_colors important_colors] in Hfit |- *.
    destruct Hfit as (Hfs & -> & Hoff & Hhs & Hiw & Hih & -> & -> & -> & Hbs
                      & Hhr & Hvr & -> & ->).
    unfold field.
    change (take 4 (drop 0 (le_bytes 4 fs ++ ?r))) with (le_bytes 4 fs).
    change (take 4 (drop 4 (le_bytes 4 fs ++ le_bytes 4 0 ++ ?r)))
      with (le_bytes 4 0).
    change (take 4 (drop 8 (le_bytes 4 fs ++ le_bytes 4 0 ++ le_bytes 4 off
                            ++ ?r)))
      with (le_bytes 4 off).
    change (take 4 (drop 12 (le_bytes 4 fs ++ le_bytes 4 0 ++ le_bytes 4 off
                             ++ le_bytes 4 hs ++ ?r)))
      with (le_bytes 4 hs).
    change (take 4 (drop 16 (le_bytes 4 fs ++ le_bytes 4 0 ++ le_bytes 4 off
                             ++ le_bytes 4 hs ++ le_bytes 4 iw ++ ?r)))
      with (le_bytes 4 iw).
    change (take 4 (drop 20 (le_bytes 4 fs ++ le_bytes 4 0 ++ le_bytes 4 off
                             ++ le_bytes 4 hs ++ le_bytes 4 iw
                             ++ le_bytes 4 ih ++ ?r)))
      with (le_bytes 4 ih).
    change (take 2 (drop 24 (le_bytes 4 fs ++ le_bytes 4 0 ++ le_bytes 4 off
                             ++ le_bytes 4 hs ++ le_bytes 4 iw
                             ++ le_bytes 4 ih ++ le_bytes 2 1 ++ ?r)))
      with (le_bytes 2 1).
    change (take 2 (drop 26 (le_bytes 4 fs ++ le_bytes 4 0 ++ le_bytes 4 off
                             ++ le_bytes 4 hs ++ le_bytes 4 iw
                             ++ le_bytes 4 ih ++ le_bytes 2 1
                             ++ le_bytes 2 4 ++ ?r)))
      with (le_bytes 2 4).
    change (take 4 (drop 28 (le_bytes 4 fs ++ le_bytes 4 0 ++ le_bytes 4 off
                             ++ le_bytes 4 hs ++ le_bytes 4 iw
                             ++ le_bytes 4 ih ++ le_bytes 2 1
                             ++ le_bytes 2 4 ++ le_bytes 4 0 ++ ?r)))
      with (le_bytes 4 0).
    change (take 4 (drop 32 (le_bytes 4 fs ++ le_bytes 4 0 ++ le_bytes 4 off
                             ++ le_bytes 4 hs ++ le_bytes 4 iw
                             ++ le_bytes 4 ih ++ le_bytes 2 1
                             ++ le_bytes 2 4 ++ le_bytes 4 0
                             ++ le_bytes 4 bs ++ ?r)))
      with (le_bytes 4 bs).
    change (take 4 (drop 36 (le_bytes 4 fs ++ le_bytes 4 0 ++ le_bytes 4 off
                             ++ le_bytes 4 hs ++ le_bytes 4 iw
                             ++ le_bytes 4 ih ++ le_bytes 2 1
                             ++ le_bytes 2 4 ++ le_bytes 4 0
                             ++ le_bytes 4 bs ++ le_bytes 4 hr ++ ?r)))
      with (le_bytes 4 hr).
    change (take 4 (drop 40 (le_bytes 4 fs ++ le_bytes 4 0 ++ le_bytes 4 off
                             ++ le_bytes 4 hs ++ le_bytes 4 iw
                             ++ le_bytes 4 ih ++ le_bytes 2 1
                             ++ le_bytes 2 4 ++ le_bytes 4 0
                             ++ le_bytes 4 bs ++ le_bytes 4 hr
                             ++ le_bytes 4 vr ++ ?r)))
      with (le_bytes 4 vr).
    change (take 4 (drop 44 (le_bytes 4 fs ++ le_bytes 4 0 ++ le_bytes 4 off
                             ++ le_bytes 4 hs ++ le_bytes 4 iw
                             ++ le_bytes 4 ih ++ le_bytes 2 1
                             ++ le_bytes 2 4 ++ le_bytes 4 0
                             ++ le_bytes 4 bs ++ le_bytes 4 hr
                             ++ le_bytes 4 vr ++ le_bytes 4 16 ++ ?r)))
      with (le_bytes 4 16).
    change (take 4 (drop 48 (le_bytes 4 fs ++ le_bytes 4 0 ++ le_bytes 4 off
                             ++ le_bytes 4 hs ++ le_bytes 4 iw
                             ++ le_bytes 4 ih ++ le_bytes 2 1
                             ++ le_bytes 2 4 ++ le_bytes 4 0
                             ++ le_bytes 4 bs ++ le_bytes 4 hr
                             ++ le_bytes 4 vr ++ le_bytes 4 16
                             ++ le_bytes 4 0)))
      with (le_bytes 4 0).
    rewrite !le_value_4, !le_value_2, !le_int32_4 by lia. reflexivity.
  - intros pal. induction pal as [|[[[a b] c] d] pal IH]; [reflexivity|].
    cbn [map concat length app]. rewrite !Nat2Z.inj_succ. lia.
Qed.

End WindowsLayout.

(** ** The two programs on BMP files *)

Section BmpTheorems.

Import Bmp2egaFile Ega2bmpFile.



(** X12. [load_bmp] refuses every other file with one of its negative
    values (-5 among them, for an image whose size is beyond [int] and
    is not allotted), -2 for a file that cannot be opened, and reads or
    writes outside no buffer on the way. *)
Theorem load_bmp_refuses (h : bmp_h) :
  load_bmp h None = Ok (LoadFailed (-2)) /\
  (forall bytes,
     ~ loadable h bytes ->
     exists rval, load_bmp h (Some bytes) = Ok (LoadFailed rval) /\
                  In rval [-3; -4; -5; -6; -7]).
Proof.
  split; [reflexivity|]. intros bytes Hno.
  destruct (load_bmp_cases h bytes) as [[Hl _]|[_ H]];
    [contradiction|exact H].
Qed.

(** X13. [save_bmp] writes the signature, the header, the palette and the
    lines of the image, the last line first, each line two pixels to a
    byte and padded with zeros to the stride; the size of the file is
    the [file_size] of its header. *)
Theorem save_bmp_writes (h : bmp_h) (src : memstream_buf_t)
        (width height : Z) (pal : list bmp_palette_entry_t) :
  bmp_h_ok h ->
  1 <= width < 65536 -> 0 <= height < 65536 ->
  len src = width * height ->
  Z.of_nat (length (data src)) = width * height ->
  length pal = 16%nat ->
  exists file,
    save_bmp h src width height pal = Ok (0, file) /\
    file = bytes_of_signature h (BMPFILESIG h)
           ++ bytes_of_header h (bmp_header h width height)
           ++ bytes_of_palette h pal
           ++ bmp_lines width
                (lines (Z.to_nat width) (Z.to_nat height) (data src)) /\
    Z.of_nat (length file) = file_size (dib (bmp_header h width height)) /\
    file_size (dib (bmp_header h width height))
    = HDRBUFSZ h + sizeof_bmp_palette_entry_t h * 16 + stride width * height.
Proof.
  intros Hok Hw Hh Hlen Hdl Hpal. eexists.
  split; [apply save_bmp_file; assumption|]. split; [reflexivity|].
  destruct (bmp_header_fits h width height Hok ltac:(lia) Hh) as [_ Hfs].
  split; [|exact Hfs]. rewrite Hfs.
  destruct Hok as (Hs1 & Hs2 & Hs3 & Hoff & Hbmi & Hdpi & Hsl & Hsig & Hhl
                   & Hhdr & Hpl).
  pose proof (stride_covers width ltac:(lia)) as (_ & _ & _ & Hs).
  assert (Hil : length (data src)
                = (Z.to_nat height * Z.to_nat width)%nat) by nia.
  rewrite !length_app, !Nat2Z.inj_add, Hsl, Hhl, Hpl, Hpal.
  rewrite bmp_lines_length.
  - rewrite lines_length. unfold HDRBUFSZ. lia.
  - exact Hw.
  - eapply Forall_impl; [apply lines_uniform; exact Hil|].
    intros r Hr. cbn beta in Hr. lia.
Qed.

Lemma save_bmp_writes_witness :
  exists file,
    save_bmp windows_bmp_h (Memstream 10 0 [1; 2; 3; 4; 5; 6; 7; 8; 9; 10])
             10 1 ega_pal = Ok (0, file) /\
    file = bmp_10_by_1 /\
    Z.of_nat (length file) = 124 /\
    124 = 54 + 4 * 16 + 6 * 1.
Proof.
  apply (save_bmp_writes windows_bmp_h
           (Memstream 10 0 [1; 2; 3; 4; 5; 6; 7; 8; 9; 10]) 10 1 ega_pal).
  - exact windows_bmp_h_ok.
  - lia.
  - lia.
  - reflexivity.
  - reflexivity.
  - reflexivity.
Defined.

Lemma load_bmp_of_saved (h : bmp_h) (img : list Z) (width height : Z) :
  bmp_h_ok h ->
  1 <= width < 65536 -> 1 <= height < 65536 ->
  width * height <= 2147483647 ->
  Z.of_nat (length img) = width * height ->
  Forall is_pixel img ->
  exists file,
    save_bmp h (Memstream (width * height) 0 img) width height ega_pal
    = Ok (0, file) /\
    load_bmp h (Some file)
    = Ok (Loaded (Memstream (width * height) 0 img) width height).
Proof.
  intros Hok Hw Hh Hint Hlen Hpx. eexists.
  split; [apply save_bmp_file; try assumption; try reflexivity; lia|].
  cbn [data].
  destruct (saved_file_loadable h img width height ega_pal Hok Hw
              ltac:(lia) Hint Hlen Hpx eq_refl) as (Hl & Hread & Himg & _).
  cbv zeta in Hl, Hread, Himg.
  set (file := bytes_of_signature h (BMPFILESIG h) ++ _) in *.
  destruct (load_bmp_cases h file) as [[_ Hload]|[Hno _]]; [|contradiction].
  cbv zeta in Hload. rewrite Hread, Himg in Hload.
  cbn [bmp_header bmi image_width image_height] in Hload.
  replace (u16 width) with width in Hload
    by (symmetry; apply Z.mod_small; lia).
  replace (u16 (Z.abs height)) with height in Hload
    by (rewrite Z.abs_eq by lia; symmetry; apply Z.mod_small; lia).
  exact Hload.
Qed.

(** X14. [load_bmp] reads back from the file [save_bmp] wrote the image
    that was saved, its width and its height, for every image of pixels
    in 0..15 with a width and a height of 1 or more and a size within
    [int], of an odd width too. *)
Theorem load_bmp_reads_save_bmp (h : bmp_h) (img : list Z)
        (width height : Z) :
  bmp_h_ok h ->
  1 <= width < 65536 -> 1 <= height < 65536 ->
  width * height <= 2147483647 ->
  Z.of_nat (length img) = width * height ->
  Forall is_pixel img ->
  exists file,
    save_bmp h (Memstream (width * height) 0 img) width height ega_pal
    = Ok (0, file) /\
    load_bmp h (Some file)
    = Ok (Loaded (Memstream (width * height) 0 img) width height).
Proof. exact (load_bmp_of_saved h img width height). Qed.

Lemma load_bmp_reads_save_bmp_witness :
  exists file,
    save_bmp windows_bmp_h (Memstream (3 * 2) 0 [1; 2; 3; 4; 5; 6]) 3 2
             ega_pal = Ok (0, file) /\
    load_bmp windows_bmp_h (Some file)
    = Ok (Loaded (Memstream (3 * 2) 0 [1; 2; 3; 4; 5; 6]) 3 2).
Proof.
  apply (load_bmp_reads_save_bmp windows_bmp_h [1; 2; 3; 4; 5; 6] 3 2).
  - exact windows_bmp_h_ok.
  - lia.
  - lia.
  - lia.
  - reflexivity.
  - repeat constructor; unfold is_pixel; lia.
Defined.

(** X15. A BMP file that [load_bmp] takes, of an even width of 10 pixels
    or more and a height of 1 or more, without 131 equal packed bytes
    in a row in a line, is converted to an EGA file from which [ega2bmp] makes a BMP file with
    the same picture: [load_bmp] gives the same image, width and height
    for the two BMP files. *)
Theorem bmp_to_ega_to_bmp (h : bmp_h) (file : list Z) :
  bmp_h_ok h -> loadable h file ->
  let bmp := header_read h file in
  let width := u16 (image_width (bmi bmp)) in
  let height := u16 (Z.abs (image_height (bmi bmp))) in
  10 <= width -> width mod 2 = 0 -> 1 <= height ->
  Forall (fun r => has_run 131 r = false)
         (lines (Z.to_nat (width / 2)) (Z.to_nat height)
                (pack (loaded_image h file))) ->
  exists ega out,
    Bmp2egaFile.convert h (Some file) = Ok (Some ega) /\
    Ega2bmpFile.convert h ega = Ok (0, out) /\
    load_bmp h (Some out) = load_bmp h (Some file).
Proof.
  intros Hok Hl bmp width height Hw Hev Hh Hno.
  destruct (load_bmp_cases h file) as [[_ Hload]|[Hn _]]; [|contradiction].
  destruct (loaded_image_well_formed h file Hl) as (Hwr & Hhr & Hlen & Hpx).
  fold bmp in Hload, Hwr, Hhr, Hlen. fold width height in Hload, Hwr, Hhr, Hlen.
  set (img := loaded_image h file) in *.
  assert (Hint : width * height <= 2147483647)
    by (destruct Hl as (_ & _ & _ & _ & _ & _ & _ & _ & _ & _ & Hint & _);
        exact Hint).
  destruct (encode_decode_from_width_10 img width height ltac:(lia) Hev
              ltac:(lia) Hint Hlen Hpx Hno) as (ega & Henc & Hdec).
  unfold Bmp2ega.loaded in Henc. rewrite Hlen in Henc.
  destruct (load_bmp_of_saved h img width height Hok ltac:(lia) ltac:(lia)
              Hint Hlen Hpx) as (out & Hsave & Hback).
  exists ega, out. split; [|split].
  - unfold Bmp2egaFile.convert. rewrite Hload. cbn [mbind result_bind].
    rewrite Henc. reflexivity.
  - unfold Ega2bmpFile.convert. rewrite Hdec. cbn [mbind result_bind].
    exact Hsave.
  - rewrite Hback, Hload. reflexivity.
Qed.

Lemma bmp_to_ega_to_bmp_witness :
  exists ega out,
    Bmp2egaFile.convert windows_bmp_h (Some bmp_10_by_1) = Ok (Some ega) /\
    Ega2bmpFile.convert windows_bmp_h ega = Ok (0, out) /\
    load_bmp windows_bmp_h (Some out)
    = load_bmp windows_bmp_h (Some bmp_10_by_1).
Proof.
  apply (bmp_to_ega_to_bmp windows_bmp_h bmp_10_by_1).
  - exact windows_bmp_h_ok.
  - unfold loadable. cbv zeta.
    repeat split; try (vm_compute; first [reflexivity|discriminate]).
    right. split; vm_compute; discriminate.
  - vm_compute. discriminate.
  - reflexivity.
  - vm_compute. discriminate.
  - vm_compute. repeat constructor.
Defined.

Lemma read_file_bytes (b : Z) (bytes : list Z) :
  read_file (Some (b :: bytes)) = Some (b :: bytes).
Proof.
  unfold read_file, Common.filesize, ftell, fseek_end, fseek_set.
  cbn [contents fpos]. rewrite Z.add_0_r.
  destruct (Z.leb_spec 0 (Z.of_nat (length (b :: bytes)))); [|lia].
  cbn [contents fpos Z.leb Z.compare].
  rewrite fread_some; [|simpl length; lia|lia|lia].
  cbn [fst]. rewrite Nat2Z.id. f_equal.
  change (drop (Z.to_nat 0) (b :: bytes)) with (b :: bytes).
  apply take_ge. lia.
Qed.

(** X16. [ega2bmp] reads the whole of its input file, whatever its size,
    and gives up on an empty file as on one that cannot be opened:
    [fread] of one item of 0 bytes returns 0. *)
Theorem read_file_whole :
  (forall b bytes, read_file (Some (b :: bytes)) = Some (b :: bytes)) /\
  read_file (Some []) = None /\
  read_file None = None.
Proof.
  split; [exact read_file_bytes|]. split; reflexivity.
Qed.

End BmpTheorems.

(** ** More on the two conversions *)

Section Conversions.

Import Bmp2egaFile Ega2bmpFile.

(** X17. The stride of the two programs is the bytes of the width rounded
    up to a multiple of four pixels, 2 * ceil (width / 4): it covers
    the line with at most one byte more, and it is a multiple of 4 bytes
    (the 32 bit boundary of the comments), 4 * ceil (width / 8), only
    when ceil (width / 4) is even; otherwise it is 2 bytes short of
    that. *)
Theorem stride_pads_to_four_pixels (w : Z) :
  0 <= w < 65536 ->
  stride w = 2 * ((w + 3) / 4) /\
  (w + 1) / 2 <= stride w <= (w + 1) / 2 + 1 /\
  (((w + 3) / 4) mod 2 = 0 -> stride w = 4 * ((w + 7) / 8)) /\
  (((w + 3) / 4) mod 2 = 1 -> stride w = 4 * ((w + 7) / 8) - 2).
Proof.
  intros H. rewrite stride_eq by exact H.
  split; [reflexivity|]. split; [Z.div_mod_to_equations; lia|].
  split; intros He; Z.div_mod_to_equations; lia.
Qed.

Lemma stride_pads_to_four_pixels_witness :
  stride 10 = 2 * ((10 + 3) / 4) /\
  (10 + 1) / 2 <= stride 10 <= (10 + 1) / 2 + 1 /\
  (((10 + 3) / 4) mod 2 = 0 -> stride 10 = 4 * ((10 + 7) / 8)) /\
  (((10 + 3) / 4) mod 2 = 1 -> stride 10 = 4 * ((10 + 7) / 8) - 2).
Proof. apply (stride_pads_to_four_pixels 10). lia. Defined.

(** X18. Every EGA file the decoder gets through, with a width and a
    height of 1 or more, becomes a BMP file ([rval] 0) from which
    [load_bmp] reads the decoded image back. *)
Theorem ega_to_bmp_loads (h : bmp_h) (file : list Z) (width height : Z)
        (img : list Z) :
  bmp_h_ok h ->
  Ega2bmp.main file = Ok (width, height, img) ->
  1 <= width -> 1 <= height ->
  exists out,
    Ega2bmpFile.convert h file = Ok (0, out) /\
    load_bmp h (Some out)
    = Ok (Loaded (Memstream (width * height) 0 img) width height).
Proof.
  intros Hok Hmain Hw Hh.
  destruct (main_ok_image file width height img Hmain)
    as (Hwr & Hhr & Hint & Hlen & Hpx).
  destruct (load_bmp_of_saved h img width height Hok ltac:(lia) ltac:(lia)
              Hint Hlen Hpx) as (out & Hsave & Hback).
  exists out. split; [|exact Hback].
  unfold Ega2bmpFile.convert. rewrite Hmain. exact Hsave.
Qed.

Lemma ega_to_bmp_loads_witness :
  exists out,
    Ega2bmpFile.convert windows_bmp_h [9; 0; 0; 0; 4; 18; 52; 86; 120; 154]
    = Ok (0, out) /\
    load_bmp windows_bmp_h (Some out)
    = Ok (Loaded (Memstream (10 * 1) 0 [1; 2; 3; 4; 5; 6; 7; 8; 9; 10]) 10 1).
Proof.
  apply (ega_to_bmp_loads windows_bmp_h
           [9; 0; 0; 0; 4; 18; 52; 86; 120; 154] 10 1
           [1; 2; 3; 4; 5; 6; 7; 8; 9; 10]).
  - exact windows_bmp_h_ok.
  - reflexivity.
  - lia.
  - lia.
Defined.

(** X19. An image of width 0 is not saved: [save_bmp] writes the
    signature, the header and the palette and returns -4 at the first
    line, [fwrite] of one item of 0 bytes returning 0.  An EGA file
    whose width field is FFFF (a width of 65536 by the format, 0 in the
    [uint16_t] of the program) and that holds no token ends so. *)
Theorem zero_width_is_not_saved (h : bmp_h) :
  bmp_h_ok h ->
  (forall src height pal,
     1 <= height -> length pal = 16%nat ->
     save_bmp h src 0 height pal
     = Ok (-4, bytes_of_signature h (BMPFILESIG h)
               ++ bytes_of_header h (bmp_header h 0 height)
               ++ bytes_of_palette h pal)) /\
  (forall h0 h1,
     is_byte h0 -> is_byte h1 -> h0 + 256 * h1 < 65535 ->
     Ega2bmpFile.convert h [255; 255; h0; h1]
     = Ok (-4, bytes_of_signature h (BMPFILESIG h)
               ++ bytes_of_header h (bmp_header h 0 (h0 + 256 * h1 + 1))
               ++ bytes_of_palette h ega_pal)).
Proof.
  intros (Hs1 & Hs2 & Hs3 & Hoff & Hbmi & Hdpi & Hsl & _ & Hhl & _ & Hpl).
  assert (Hsave : forall src height pal,
             1 <= height -> length pal = 16%nat ->
             save_bmp h src 0 height pal
             = Ok (-4, bytes_of_signature h (BMPFILESIG h)
                       ++ bytes_of_header h (bmp_header h 0 height)
                       ++ bytes_of_palette h pal)).
  { intros src height pal Hh Hpal. unfold save_bmp.
    change (stride 0) with 0.
    set (bmp := bmp_header h 0 height).
    set (sigb := bytes_of_signature h (BMPFILESIG h)).
    set (hdrb := bytes_of_header h bmp).
    rewrite (mem_at_app_length (calloc (0 + 2)) (sigb ++ hdrb))
      by reflexivity.
    assert (Hhb : Z.of_nat (length (sigb ++ hdrb)) = HDRBUFSZ h).
    { rewrite length_app. unfold sigb, hdrb, HDRBUFSZ.
      specialize (Hhl bmp). lia. }
    unfold fwrite at 1. unfold HDRBUFSZ in *.
    destruct (Z.leb_spec (sizeof_bmp_signature_t h + sizeof_bmp_header_t h)
                0); [lia|].
    change (negb (1 =? 1)) with false. cbn iota.
    rewrite take_ge by lia.
    unfold fwrite at 1.
    destruct (Z.leb_spec (sizeof_bmp_palette_entry_t h * 16) 0); [lia|].
    change (negb (1 =? 1)) with false. cbn iota.
    rewrite take_ge by (specialize (Hpl pal); lia).
    destruct (Z.to_nat height) as [|k] eqn:Hk; [lia|].
    cbn [write_lines]. change (stride 0) with 0.
    cbn [Z.to_nat memset mbind result_bind].
    change (Z.to_nat ((0 + 1) / 2)) with 0%nat.
    cbn [pack_line mbind result_bind]. unfold fwrite.
    cbn [Z.leb Z.compare negb Z.eqb]. rewrite <- !app_assoc. reflexivity. }
  split; [exact Hsave|].
  intros h0 h1 Hb0 Hb1 Hlt. unfold is_byte in Hb0, Hb1.
  assert (Hhr : u16 (h0 + 256 * h1 + 1) = h0 + 256 * h1 + 1)
    by (apply Z.mod_small; lia).
  assert (Hmain : Ega2bmp.main [255; 255; h0; h1]
                  = Ok (0, u16 (h0 + 256 * h1 + 1), [])).
  { unfold Ega2bmp.main, Ega2bmp.read_header.
    pose proof (peek16_front [] 255 255 [h0; h1] 0 eq_refl) as E0.
    cbn [app] in E0. rewrite E0. cbn [mbind result_bind].
    pose proof (peek16_front [255; 255] h0 h1 [] 2 eq_refl) as E2.
    cbn [app] in E2. rewrite E2. cbn [mbind result_bind].
    change (u16 (255 + 256 * 255 + 1)) with 0.
    rewrite alloc_int by lia. cbn [mbind result_bind].
    rewrite decode_loop_unfold. cbn [Ega2bmp.src pos len].
    destruct (Z.ltb_spec (0 + 2 * 2) (Z.of_nat (length [255; 255; h0; h1])));
      [simpl in *; lia|].
    cbn [mbind result_bind Ega2bmp.img]. rewrite Z.mul_0_l. reflexivity. }
  unfold Ega2bmpFile.convert. rewrite Hmain, Hhr. cbn [mbind result_bind].
  apply Hsave; [lia|reflexivity].
Qed.

Lemma zero_width_is_not_saved_witness :
  Ega2bmpFile.convert windows_bmp_h [255; 255; 1; 0]
  = Ok (-4, bytes_of_signature windows_bmp_h (BMPFILESIG windows_bmp_h)
            ++ bytes_of_header windows_bmp_h
                 (bmp_header windows_bmp_h 0 (1 + 256 * 0 + 1))
            ++ bytes_of_palette windows_bmp_h ega_pal).
Proof.
  destruct (zero_width_is_not_saved windows_bmp_h windows_bmp_h_ok)
    as [_ H].
  apply (H 1 0); unfold is_byte; lia.
Defined.

(** X20. [bmp2ega] makes no EGA file of a BMP file that [load_bmp]
    refuses, nor without one: it prints "Unable to read BMP image" and
    ends before it opens the output file. *)
Theorem bmp2ega_refuses (h : bmp_h) :
  Bmp2egaFile.convert h None = Ok None /\
  (forall file, ~ loadable h file ->
                Bmp2egaFile.convert h (Some file) = Ok None).
Proof.
  split; [reflexivity|]. intros file Hno.
  destruct (load_bmp_cases h file) as [[Hl _]|[_ (rval & Hr & _)]];
    [contradiction|].
  unfold Bmp2egaFile.convert. rewrite Hr. reflexivity.
Qed.

End Conversions.

(** ** The encoder's output, or none *)

Section EncoderExact.

Import Bmp2ega.

Lemma bind_ok {A B : Type} (m : result A) (k : A -> result B) (b : B) :
  (a ← m; k a) = Ok b -> exists a, m = Ok a /\ k a = Ok b.
Proof. destruct m; cbn; intros H; try discriminate. eauto. Qed.

Lemma poke_extend (buf junk : list Z) (i b : Z) (buf' : list Z) :
  poke buf i b = Ok buf' -> poke (buf ++ junk) i b = Ok (buf' ++ junk).
Proof.
  unfold poke. rewrite length_app.
  destruct (Z.leb_spec 0 i); destruct (Z.ltb_spec i (Z.of_nat (length buf)));
    cbn [andb]; try discriminate.
  intros E. injection E as <-.
  destruct (Z.ltb_spec i (Z.of_nat (length buf + length junk))); [|lia].
  rewrite insert_app_l by lia. reflexivity.
Qed.

Lemma put_extend (junk : list Z) (b : Z) (d d' : memstream_buf_t) :
  put b d = Ok d' -> put b (extend d junk) = Ok (extend d' junk).
Proof.
  unfold put. intros H. apply bind_ok in H as (buf' & Hp & E).
  injection E as <-. cbn [extend data pos len].
  rewrite (poke_extend _ junk _ _ _ Hp). reflexivity.
Qed.

Lemma copy_bytes_extend (junk img : list Z) (n : nat) : forall st st',
  copy_bytes n img st = Ok st' ->
  copy_bytes n img (State (src st) (extend (dst st) junk))
  = Ok (State (src st') (extend (dst st') junk)).
Proof.
  induction n as [|n IH]; intros st st' H.
  - injection H as <-. reflexivity.
  - cbn [copy_bytes] in H |- *. cbn [src dst].
    apply bind_ok in H as (b & -> & H). cbn [mbind result_bind].
    apply bind_ok in H as (d & Hd & H).
    rewrite (put_extend junk _ _ _ Hd). cbn [mbind result_bind].
    apply (IH _ _ H).
Qed.

Lemma copy_literals_extend (junk img : list Z) (fuel : nat) :
  forall clen st st',
  copy_literals fuel img clen st = Ok st' ->
  copy_literals fuel img clen (State (src st) (extend (dst st) junk))
  = Ok (State (src st') (extend (dst st') junk)).
Proof.
  induction fuel as [|fuel IH]; intros clen st st' H; [discriminate|].
  cbn [copy_literals] in H |- *. cbn [src dst].
  destruct (clen >? 128).
  - apply bind_ok in H as (d & Hd & H).
    rewrite (put_extend junk _ _ _ Hd). cbn [mbind result_bind].
    apply bind_ok in H as (st1 & H1 & H).
    pose proof (copy_bytes_extend junk img 128 _ _ H1) as E.
    unfold with_dst in *. cbn [src dst] in E |- *. rewrite E.
    cbn [mbind result_bind]. apply (IH _ _ _ H).
  - apply bind_ok in H as (d & Hd & H).
    rewrite (put_extend junk _ _ _ Hd). cbn [mbind result_bind].
    pose proof (copy_bytes_extend junk img _ _ _ H) as E.
    unfold with_dst in *. cbn [src dst] in E |- *. exact E.
Qed.

Lemma encode_run_extend (junk img : list Z) (fuel : nat) :
  forall rlen st st',
  encode_run fuel img rlen st = Ok st' ->
  encode_run fuel img rlen (State (src st) (extend (dst st) junk))
  = Ok (State (src st') (extend (dst st') junk)).
Proof.
  induction fuel as [|fuel IH]; intros rlen st st' H; [discriminate|].
  cbn [encode_run] in H |- *. cbn [src dst].
  destruct (rlen >? 130).
  - apply bind_ok in H as (d & Hd & H).
    rewrite (put_extend junk _ _ _ Hd). cbn [mbind result_bind].
    apply bind_ok in H as (v & -> & H). cbn [mbind result_bind].
    apply bind_ok in H as (d' & Hd' & H).
    rewrite (put_extend junk _ _ _ Hd'). cbn [mbind result_bind].
    apply (IH _ _ _ H).
  - apply bind_ok in H as (d & Hd & H).
    rewrite (put_extend junk _ _ _ Hd). cbn [mbind result_bind].
    apply bind_ok in H as (v & -> & H). cbn [mbind result_bind].
    apply bind_ok in H as (d' & Hd' & H).
    rewrite (put_extend junk _ _ _ Hd'). cbn [mbind result_bind].
    injection H as <-. reflexivity.
Qed.

Lemma encode_step_extend (junk img : list Z) (width x : Z) (st : state)
      (x' : Z) (st' : state) :
  encode_step img width x st = Ok (x', st') ->
  encode_step img width x (State (src st) (extend (dst st) junk))
  = Ok (x', State (src st') (extend (dst st') junk)).
Proof.
  unfold encode_step. cbn [src dst]. intros H.
  apply bind_ok in H as ([len rpos] & -> & H). cbn [mbind result_bind].
  apply bind_ok in H as ([x1 st1] & H1 & H).
  assert (E1 : (if rpos =? 0
                then Ok (x, State (src st) (extend (dst st) junk))
                else st0 ← copy_literals (S (Z.to_nat rpos)) img rpos
                             (State (src st) (extend (dst st) junk));
                     Ok (x + rpos, st0))
               = Ok (x1, State (src st1) (extend (dst st1) junk))).
  { destruct (rpos =? 0).
    - injection H1 as <- <-. reflexivity.
    - apply bind_ok in H1 as (st0 & H0 & E). injection E as <- <-.
      rewrite (copy_literals_extend junk img _ _ _ _ H0). reflexivity. }
  rewrite E1. cbn [mbind result_bind].
  destruct (len =? 0).
  - injection H as <- <-. reflexivity.
  - apply bind_ok in H as (st2 & H2 & E). injection E as <- <-.
    pose proof (encode_run_extend junk img _ _ _ _ H2) as E2.
    cbn [src dst] in E2. rewrite E2. reflexivity.
Qed.

Lemma encode_line_extend (junk img : list Z) (width : Z) (fuel : nat) :
  forall x st st',
  encode_line fuel img width x st = Ok st' ->
  encode_line fuel img width x (State (src st) (extend (dst st) junk))
  = Ok (State (src st') (extend (dst st') junk)).
Proof.
  induction fuel as [|fuel IH]; intros x st st' H.
  - cbn [encode_line] in H |- *. destruct (x <? width); [discriminate|].
    injection H as <-. reflexivity.
  - cbn [encode_line] in H |- *. destruct (x <? width).
    + apply bind_ok in H as ([x1 st1] & H1 & H).
      rewrite (encode_step_extend junk img width x st x1 st1 H1).
      cbn [mbind result_bind]. apply (IH _ _ _ H).
    + injection H as <-. reflexivity.
Qed.

Lemma encode_lines_extend (junk img : list Z) (width : Z) (k : nat) :
  forall st st',
  encode_lines k img width st = Ok st' ->
  encode_lines k img width (State (src st) (extend (dst st) junk))
  = Ok (State (src st') (extend (dst st') junk)).
Proof.
  induction k as [|k IH]; intros st st' H.
  - injection H as <-. reflexivity.
  - cbn [encode_lines] in H |- *.
    apply bind_ok in H as (st1 & H1 & H).
    rewrite (encode_line_extend junk img width _ _ _ _ H1).
    cbn [mbind result_bind src dst].
    apply (IH (State (src st1 - 2 * width) (dst st1)) st' H).
Qed.

(** When the loop over the lines ends, the stream had room for what it
    wrote. *)
Lemma encode_lines_room (n : nat) (rows : list (list Z)) (junk : list Z)
      (hdr : list Z) (st st' : state) :
  (1 <= n)%nat ->
  Forall (fun r => length r = n) rows ->
  Forall (Forall is_byte) rows ->
  src st = (Z.of_nat (length rows) - 1) * Z.of_nat n ->
  stream_ok hdr (dst st) ->
  encode_lines (length rows) (concat rows ++ junk) (Z.of_nat n) st = Ok st' ->
  room (dst st) (length (stream_bytes rows)).
Proof.
  intros Hn Hu Hb Hsrc Hok H.
  set (J := replicate (length (stream_bytes rows)) 0).
  pose proof (encode_lines_extend J _ _ _ _ _ H) as Hext.
  assert (Hroom : room (extend (dst st) J) (length (stream_bytes rows))).
  { destruct Hok as (Hp & _). unfold room, extend. cbn [pos data].
    rewrite length_app. unfold J. rewrite length_replicate. lia. }
  rewrite (encode_lines_append n rows junk (State (src st) (extend (dst st) J))
             Hn Hu Hb Hsrc Hroom) in Hext.
  apply (f_equal (fun r => match r with Ok s => pos (dst s) | _ => 0 end))
    in Hext.
  cbn [dst pos extend append] in Hext.
  pose proof (encode_lines_stream_ok hdr (length (data (dst st)))
                (concat rows ++ junk) (Z.of_nat n) (length rows) st Hok
                eq_refl) as Hinv.
  rewrite H in Hinv. cbn [ok_or_out] in Hinv.
  destruct Hinv as ((Hp' & _) & Hl').
  destruct Hok as (Hp & _). unfold room. lia.
Qed.

(** The encoder's result, for every image of an even width. *)
Lemma main_exact (pixels : list Z) (width height : Z) :
  2 <= width < 65536 -> width mod 2 = 0 ->
  1 <= height < 65536 ->
  width * height <= 2147483647 ->
  Z.of_nat (length pixels) = width * height ->
  Forall is_pixel pixels ->
  main (loaded pixels) width height
  = if 4 + Z.of_nat (length (stream_bytes
                       (lines (Z.to_nat (width / 2)) (Z.to_nat height)
                              (pack pixels))))
       <=? width * height
    then Ok (header_bytes width height
             ++ stream_bytes (lines (Z.to_nat (width / 2)) (Z.to_nat height)
                                    (pack pixels)))
    else OutOfBounds.
Proof.
  intros Hw Hev Hh Hint Hlen Hpx.
  set (rows := lines (Z.to_nat (width / 2)) (Z.to_nat height) (pack pixels)).
  destruct (Z.leb_spec (4 + Z.of_nat (length (stream_bytes rows)))
              (width * height)) as [Hcap|Hcap].
  { apply (bmp2ega_main_stream pixels width height Hw Hev Hh Hint Hlen Hpx
             Hcap). }
  set (n := Z.to_nat (width / 2)) in *.
  set (h := Z.to_nat height) in *.
  assert (Hwn : width = 2 * Z.of_nat n).
  { unfold n. rewrite Z2Nat.id by (apply Z.div_pos; lia).
    pose proof (Z.div_mod width 2 ltac:(lia)). lia. }
  assert (Hhn : height = Z.of_nat h) by (unfold h; lia).
  assert (Hpl : length pixels = (2 * (h * n))%nat) by nia.
  assert (Hev' : Nat.Even (length pixels)) by (exists (h * n)%nat; exact Hpl).
  assert (Hpk : length (pack pixels) = (h * n)%nat).
  { pose proof (pack_length pixels Hev'). lia. }
  assert (Hrows_concat : concat rows = pack pixels)
    by (apply lines_concat; exact Hpk).
  assert (Hrows_len : length rows = h) by apply lines_length.
  assert (Hrows_uni : Forall (fun r => length r = n) rows)
    by (apply lines_uniform; exact Hpk).
  assert (Hrows_b : Forall (Forall is_byte) rows)
    by (apply lines_Forall, pack_bytes, Hpx).
  unfold main. rewrite alloc_int by exact Hint. cbn [mbind result_bind].
  set (dst0 := Memstream (width * height) 0 (calloc (width * height))).
  pose proof (write_header_stream_ok width height dst0 eq_refl
                ltac:(apply Forall_replicate; unfold is_byte; lia)) as Hhdr.
  apply ok_or_out_cases in Hhdr as [->|(d1 & -> & Hok & Hl1)]; [reflexivity|].
  cbn [mbind result_bind].
  rewrite pack_pixels_inplace by assumption.
  cbn [mbind result_bind].
  rewrite <- Hrows_concat.
  replace (Z.to_nat height) with (length rows) by (rewrite Hrows_len; auto).
  replace (width / 2) with (Z.of_nat n)
    by (unfold n; rewrite Z2Nat.id by (apply Z.div_pos; lia); reflexivity).
  set (st0 := State ((height - 1) * Z.of_nat n) d1).
  pose proof (encode_lines_stream_ok (header_bytes width height)
                (length (data d1))
                (concat rows ++ drop (length pixels / 2) pixels)
                (Z.of_nat n) (length rows) st0 Hok eq_refl) as Hinv.
  apply ok_or_out_cases in Hinv as [->|(st' & Hst' & _)]; [reflexivity|].
  exfalso.
  pose proof (encode_lines_room n rows _ (header_bytes width height) st0 st'
                ltac:(lia) Hrows_uni Hrows_b
                ltac:(unfold st0; cbn [src]; rewrite Hrows_len; lia)
                Hok Hst') as [_ Hroom].
  destruct Hok as ((Hp4 & _) & _).
  unfold st0 in Hroom. cbn [dst] in Hroom.
  rewrite Hl1 in Hroom. unfold dst0, calloc in Hroom. cbn [data] in Hroom.
  rewrite length_replicate in Hroom. lia.
Qed.

(** Lines of one packed byte take two bytes each. *)
Lemma stream_bytes_width_2 (rows : list (list Z)) :
  Forall (fun r => length r = 1%nat) rows ->
  length (stream_bytes rows) = (2 * length rows)%nat.
Proof.
  intros H. unfold stream_bytes. rewrite <- (length_rev rows).
  apply Forall_rev in H. induction H as [|r l Hr _ IH]; [reflexivity|].
  cbn [map concat length]. rewrite length_app, IH.
  destruct r as [|b [|c r]]; try discriminate.
  change (line_bytes (length [b]) [b]) with [0; b]. cbn [length]. lia.
Qed.

Lemma main_width_2 (pixels : list Z) (height : Z) :
  1 <= height < 65536 ->
  Z.of_nat (length pixels) = 2 * height ->
  Forall is_pixel pixels ->
  main (loaded pixels) 2 height = OutOfBounds.
Proof.
  intros Hh Hlen Hpx.
  rewrite (main_exact pixels 2 height ltac:(lia) eq_refl Hh ltac:(lia) Hlen
             Hpx).
  change (Z.to_nat (2 / 2)) with 1%nat.
  assert (Hev : Nat.Even (length pixels))
    by (exists (Z.to_nat height); lia).
  assert (Hpk : length (pack pixels) = (Z.to_nat height * 1)%nat).
  { pose proof (pack_length pixels Hev). lia. }
  rewrite (stream_bytes_width_2 _ (lines_uniform 1 _ _ Hpk)), lines_length.
  destruct (Z.leb_spec (4 + Z.of_nat (2 * Z.to_nat height)) (2 * height));
    [lia|reflexivity].
Qed.

(** X21. For an image of an even width, a height of 1 or more and
    [width * height] within [int], the encoder returns the size prefix
    followed by [stream_bytes] of its lines when these bytes fit into
    the [width * height] bytes it allots, and goes outside its output
    buffer when they do not.  [stream_bytes] is what the two emitters
    write for the lines, the bottom line first; when no line has 131
    equal bytes in a row it reads back as tokens that expand to the
    lines. *)
Theorem encoder_output_or_overflow (pixels : list Z) (width height : Z) :
  2 <= width < 65536 -> width mod 2 = 0 ->
  1 <= height < 65536 ->
  width * height <= 2147483647 ->
  Z.of_nat (length pixels) = width * height ->
  Forall is_pixel pixels ->
  main (loaded pixels) width height
  = (if 4 + Z.of_nat (length (stream_bytes
                        (lines (Z.to_nat (width / 2)) (Z.to_nat height)
                               (pack pixels))))
        <=? width * height
     then Ok (header_bytes width height
              ++ stream_bytes (lines (Z.to_nat (width / 2))
                                     (Z.to_nat height) (pack pixels)))
     else OutOfBounds) /\
  (Forall (fun r => has_run 131 r = false)
          (lines (Z.to_nat (width / 2)) (Z.to_nat height) (pack pixels)) ->
   exists tss,
     parse_tokens (stream_bytes (lines (Z.to_nat (width / 2))
                                       (Z.to_nat height) (pack pixels)))
     = Some (concat tss) /\
     Forall2 (fun r ts => expand_all ts = r /\
                          Forall (fun t => expand t <> []) ts)
             (rev (lines (Z.to_nat (width / 2)) (Z.to_nat height)
                         (pack pixels)))
             tss).
Proof.
  intros Hw Hev Hh Hint Hlen Hpx. split.
  - exact (main_exact pixels width height Hw Hev Hh Hint Hlen Hpx).
  - apply stream_bytes_tokens.
Qed.

Lemma encoder_output_or_overflow_witness :
  main (loaded [1; 1; 1; 1; 1; 1; 2; 3]) 8 1
  = Ok [7; 0; 0; 0; 128; 17; 0; 35] /\
  main (loaded [1; 2; 3; 4; 5; 6; 7; 8]) 8 1 = OutOfBounds.
Proof.
  split.
  - apply (encoder_output_or_overflow [1; 1; 1; 1; 1; 1; 2; 3] 8 1).
    + lia.
    + reflexivity.
    + lia.
    + lia.
    + reflexivity.
    + repeat constructor; unfold is_pixel; lia.
  - apply (encoder_output_or_overflow [1; 2; 3; 4; 5; 6; 7; 8] 8 1).
    + lia.
    + reflexivity.
    + lia.
    + lia.
    + reflexivity.
    + repeat constructor; unfold is_pixel; lia.
Defined.

(** X22. An image two pixels wide is never encoded: whatever its height and
    its pixels, the two bytes a line takes (a literal token of one byte)
    and the size prefix need more than the [2 * height] bytes of the
    output buffer, and the encoder writes past its end. *)
Theorem encoder_overflows_at_width_2 (pixels : list Z) (height : Z) :
  1 <= height < 65536 ->
  Z.of_nat (length pixels) = 2 * height ->
  Forall is_pixel pixels ->
  main (loaded pixels) 2 height = OutOfBounds.
Proof. exact (main_width_2 pixels height). Qed.

Lemma encoder_overflows_at_width_2_witness :
  main (loaded [1; 2; 3; 4; 5; 6]) 2 3 = OutOfBounds.
Proof.
  apply (encoder_overflows_at_width_2 [1; 2; 3; 4; 5; 6] 3).
  - lia.
  - reflexivity.
  - repeat constructor; unfold is_pixel; lia.
Defined.

End EncoderExact.
